(** * Contact book service: ownership-scoped repository and birthday window

    A shallow embedding of the contact repository
    ([src/repository/contacts.py]), of the contact and user routes that the
    properties below talk about ([src/routes/contacts.py],
    [src/routes/users.py], [src/repository/users.py]) and of the part of
    Python's [datetime.date] that the birthday query relies on.

    The relational store is a record of row lists (a table is the list of
    its rows in the order a query without ORDER BY yields them), raised
    exceptions are values of an error type, and a function that can both
    raise and commit returns its outcome next to the store it leaves
    behind. *)

From Stdlib Require Import ZArith List Bool Ascii String Lia Permutation.
Import ListNotations.

Local Open Scope Z_scope.

(** ** Exceptions and results *)

Inductive exn : Type :=
| ValueError
| OverflowError
| AttributeError
| DataError
| HTTPException (status_code : Z) (detail : string).

Inductive result (A : Type) : Type :=
| Ok (a : A)
| Raise (e : exn).

Arguments Ok {A} a.
Arguments Raise {A} e.

Definition bind {A B : Type} (r : result A) (k : A -> result B) : result B :=
  match r with
  | Ok a => k a
  | Raise e => Raise e
  end.

Notation "x <- r ;; k" := (bind r (fun x => k))
  (at level 61, r at next level, right associativity).

(** Python's short-circuit [a or b] when both sides may raise. *)
Definition or_else (a : result bool) (b : result bool) : result bool :=
  x <- a ;; if x then Ok true else b.

(** A list comprehension [[x for x in l if cond(x)]] whose condition may
    raise: the first exception aborts the whole comprehension. *)
Fixpoint filterM {A : Type} (cond : A -> result bool) (l : list A)
  : result (list A) :=
  match l with
  | [] => Ok []
  | x :: l' =>
      b <- cond x ;;
      r <- filterM cond l' ;;
      Ok (if b then x :: r else r)
  end.

(** The elements such a comprehension keeps when nothing raises. *)
Definition kept {A : Type} (cond : A -> result bool) (x : A) : bool :=
  match cond x with
  | Ok b => b
  | Raise _ => false
  end.

(** ** Calendar dates, after Python's [datetime.date] *)

Module PyDate.

Record date : Type := mkDate { year : Z; month : Z; day : Z }.

Definition MINYEAR : Z := 1.
Definition MAXYEAR : Z := 9999.

Definition is_leap (y : Z) : bool :=
  (y mod 4 =? 0) && (negb (y mod 100 =? 0) || (y mod 400 =? 0)).

Definition days_in_month (y m : Z) : Z :=
  match m with
  | 1 => 31
  | 2 => if is_leap y then 29 else 28
  | 3 => 31
  | 4 => 30
  | 5 => 31
  | 6 => 30
  | 7 => 31
  | 8 => 31
  | 9 => 30
  | 10 => 31
  | 11 => 30
  | 12 => 31
  | _ => 0
  end.

(** [_check_date_fields]: what the constructor accepts. *)
Definition check_date_fields (y m d : Z) : bool :=
  (MINYEAR <=? y) && (y <=? MAXYEAR) &&
  (1 <=? m) && (m <=? 12) &&
  (1 <=? d) && (d <=? days_in_month y m).

Definition valid (t : date) : bool :=
  check_date_fields (year t) (month t) (day t).

(** [date(y, m, d)], also [datetime(y, m, d).date()]. *)
Definition make (y m d : Z) : result date :=
  if check_date_fields y m d then Ok (mkDate y m d) else Raise ValueError.

(** [t.replace(month=m)]. *)
Definition replace_month (t : date) (m : Z) : result date :=
  make (year t) m (day t).

Definition days_before_year (y : Z) : Z :=
  let p := y - 1 in p * 365 + p / 4 - p / 100 + p / 400.

Definition days_before_month (y m : Z) : Z :=
  match m with
  | 1 => 0
  | 2 => 31
  | 3 => 59
  | 4 => 90
  | 5 => 120
  | 6 => 151
  | 7 => 181
  | 8 => 212
  | 9 => 243
  | 10 => 273
  | 11 => 304
  | 12 => 334
  | _ => 0
  end + (if (2 <? m) && is_leap y then 1 else 0).

Definition toordinal (t : date) : Z :=
  days_before_year (year t) + days_before_month (year t) (month t) + day t.

(** [(a - b).days] *)
Definition days_between (a b : date) : Z := toordinal a - toordinal b.

(** The day after [t]; past 9999-12-31 the arithmetic overflows. *)
Definition next_day (t : date) : result date :=
  if day t <? days_in_month (year t) (month t)
  then Ok (mkDate (year t) (month t) (day t + 1))
  else if month t <? 12
       then Ok (mkDate (year t) (month t + 1) 1)
       else if year t <? MAXYEAR
            then Ok (mkDate (year t + 1) 1 1)
            else Raise OverflowError.

(** [t + timedelta(days=n)] for a count [n] of days. *)
Fixpoint add_days (t : date) (n : nat) : result date :=
  match n with
  | O => Ok t
  | S n' => t' <- next_day t ;; add_days t' n'
  end.

(** [x in range(n)] *)
Definition in_range (x n : Z) : bool := (0 <=? x) && (x <? n).

(** Case analysis on a month number known to lie in 1..12. *)
Ltac month_cases m :=
  let H := fresh "Hm" in
  assert (H : m = 1 \/ m = 2 \/ m = 3 \/ m = 4 \/ m = 5 \/ m = 6 \/
              m = 7 \/ m = 8 \/ m = 9 \/ m = 10 \/ m = 11 \/ m = 12) by lia;
  repeat (destruct H as [H | H]); subst m.

End PyDate.

(** ** Strings: case folding and SQL pattern matching *)

Module Sql.

(** OFFSET and LIMIT are 64-bit counts on the server. *)
Definition MAX_BIGINT : Z := 9223372036854775807.

(** Text is a string of bytes and the letters folded are those of ASCII:
    this is the server's matching on ASCII text.  How letters outside
    ASCII fold is the server's locale, and a character outside ASCII is
    more than one byte here. *)
Definition lower_ascii (c : ascii) : ascii :=
  let n := N_of_ascii c in
  if (N.leb 65 n && N.leb n 90)%bool then ascii_of_N (n + 32) else c.

Fixpoint lower (s : string) : string :=
  match s with
  | EmptyString => EmptyString
  | String c s' => String (lower_ascii c) (lower s')
  end.

(** [text LIKE pattern]: [%] stands for any run of characters, [_] for
    any one character and a backslash takes the character after it
    literally (PostgreSQL's default escape).  A pattern that stops right
    after a backslash is rejected by the server; it matches nothing here,
    and the patterns built by [search_contact] all end in [%]. *)
Fixpoint like (pattern text : string) {struct pattern} : bool :=
  match pattern with
  | EmptyString =>
      match text with EmptyString => true | String _ _ => false end
  | String c p' =>
      if Ascii.eqb c "%" then
        (fix any (t : string) : bool :=
           like p' t ||
           match t with EmptyString => false | String _ t' => any t' end)
          text
      else if Ascii.eqb c "_" then
        match text with EmptyString => false | String _ t' => like p' t' end
      else if Ascii.eqb c "\" then
        match p' with
        | EmptyString => false
        | String e p'' =>
            match text with
            | EmptyString => false
            | String a t' => Ascii.eqb e a && like p'' t'
            end
        end
      else
        match text with
        | EmptyString => false
        | String a t' => Ascii.eqb c a && like p' t'
        end
  end.

(** [column.ilike(pattern)]: [LIKE] after case folding. *)
Definition ilike (column pattern : string) : bool :=
  like (lower pattern) (lower column).

End Sql.

(** ** Rows of the two tables ([src/database/models.py]) *)

Module User.
Record t : Type := mk {
  id : Z;
  username : string;
  email : string;
  password : string;
  created_at : Z;
  avatar : option string;
  refresh_token : option string;
  confirmed : bool
}.

Definition set_refresh_token (u : t) (tok : option string) : t :=
  mk (id u) (username u) (email u) (password u) (created_at u) (avatar u)
     tok (confirmed u).

Definition set_confirmed (u : t) (b : bool) : t :=
  mk (id u) (username u) (email u) (password u) (created_at u) (avatar u)
     (refresh_token u) b.

Definition set_avatar (u : t) (url : option string) : t :=
  mk (id u) (username u) (email u) (password u) (created_at u) url
     (refresh_token u) (confirmed u).
End User.

Module Contact.
Record t : Type := mk {
  id : Z;
  first_name : string;
  last_name : string;
  email : string;
  phone_number : string;
  birth_date : PyDate.date;
  additional_info : option string;
  owner_id : Z
}.
End Contact.

(** [ContactModel] of [src/schemas.py]; [ContactCreate] and [ContactUpdate]
    add nothing to it. *)
Module ContactModel.
Record t : Type := mk {
  first_name : string;
  last_name : string;
  email : string;
  phone_number : string;
  birth_date : PyDate.date;
  additional_info : option string
}.
End ContactModel.

(** [UserModel] of [src/schemas.py]. *)
Module UserModel.
Record t : Type := mk {
  username : string;
  email : string;
  password : string
}.
End UserModel.

(** The store behind a [Session]: both tables in insertion order and the
    sequence that numbers new contacts. *)
Record Session : Type := mkSession {
  users : list User.t;
  contacts : list Contact.t;
  contacts_id_seq : Z
}.

Definition with_contacts (db : Session) (l : list Contact.t) : Session :=
  mkSession (users db) l (contacts_id_seq db).

Definition with_users (db : Session) (l : list User.t) : Session :=
  mkSession l (contacts db) (contacts_id_seq db).

(** [query.first()] *)
Definition first {A : Type} (l : list A) : option A :=
  match l with
  | [] => None
  | x :: _ => Some x
  end.

(** Python truthiness of an optional string: [None] and [""] are false. *)
Definition truthy (s : option string) : bool :=
  match s with
  | None => false
  | Some EmptyString => false
  | Some (String _ _) => true
  end.

(** ** The contact repository ([src/repository/contacts.py]) *)

Module repository_contacts.

Definition owned_by (user : User.t) (c : Contact.t) : bool :=
  Contact.owner_id c =? User.id user.

(** [filter(Contact.id == contact_id, Contact.owner_id == user.id)] *)
Definition by_id_and_owner (contact_id : Z) (user : User.t) (c : Contact.t)
  : bool :=
  (Contact.id c =? contact_id) && (Contact.owner_id c =? User.id user).

(** The server refuses an OFFSET or LIMIT that is negative or does not fit
    64 bits, and the driver raises; otherwise the rows of the owner come
    back in the order the table yields them: the query has no ORDER BY. *)
Definition get_contacts (skip limit : Z) (user : User.t) (db : Session)
  : result (list Contact.t) :=
  if (skip <? 0) || (limit <? 0)
     || (Sql.MAX_BIGINT <? skip) || (Sql.MAX_BIGINT <? limit)
  then Raise DataError
  else Ok (firstn (Z.to_nat limit)
             (skipn (Z.to_nat skip) (filter (owned_by user) (contacts db)))).

Definition get_contact (contact_id : Z) (user : User.t) (db : Session)
  : option Contact.t :=
  first (filter (by_id_and_owner contact_id user) (contacts db)).

Definition create_contact (body : ContactModel.t) (user : User.t)
  (db : Session) : Contact.t * Session :=
  let contact :=
    Contact.mk (contacts_id_seq db)
      (ContactModel.first_name body)
      (ContactModel.last_name body)
      (ContactModel.email body)
      (ContactModel.phone_number body)
      (ContactModel.birth_date body)
      (ContactModel.additional_info body)
      (User.id user) in
  (contact,
   mkSession (users db) (contacts db ++ [contact]) (contacts_id_seq db + 1)).

(** The six assignments of [update_contact]. *)
Definition assign (c : Contact.t) (body : ContactModel.t) : Contact.t :=
  Contact.mk (Contact.id c)
    (ContactModel.first_name body)
    (ContactModel.last_name body)
    (ContactModel.email body)
    (ContactModel.phone_number body)
    (ContactModel.birth_date body)
    (ContactModel.additional_info body)
    (Contact.owner_id c).

(** The commit writes the changed object back under its primary key.  The
    server stores the new version of a row behind the rows the table
    holds, so a query without ORDER BY lists an updated row after the
    others. *)
Definition update_contact (contact_id : Z) (body : ContactModel.t)
  (user : User.t) (db : Session) : option Contact.t * Session :=
  match first (filter (by_id_and_owner contact_id user) (contacts db)) with
  | Some db_contact =>
      (Some (assign db_contact body),
       with_contacts db
         (filter (fun r => negb (Contact.id r =? Contact.id db_contact))
                 (contacts db)
          ++ map (fun r => assign r body)
                 (filter (fun r => Contact.id r =? Contact.id db_contact)
                         (contacts db))))
  | None => (None, db)
  end.

(** [db.delete(contact)] deletes under the primary key of the object. *)
Definition remove_contact (contact_id : Z) (user : User.t) (db : Session)
  : option Contact.t * Session :=
  match first (filter (by_id_and_owner contact_id user) (contacts db)) with
  | Some contact =>
      (Some contact,
       with_contacts db
         (filter (fun r => negb (Contact.id r =? Contact.id contact))
                 (contacts db)))
  | None => (None, db)
  end.

(** [if value: query = query.filter(column.ilike(f"%{value}%"))] *)
Definition ilike_filter (column : Contact.t -> string) (value : option string)
  (query : list Contact.t) : list Contact.t :=
  match value with
  | Some v =>
      if truthy value
      then filter (fun c => Sql.ilike (column c) ("%" ++ v ++ "%")) query
      else query
  | None => query
  end.

Definition search_contact (first_name last_name email : option string)
  (user : User.t) (db : Session) : list Contact.t :=
  let query := filter (owned_by user) (contacts db) in
  let query := ilike_filter Contact.first_name first_name query in
  let query := ilike_filter Contact.last_name last_name query in
  let query := ilike_filter Contact.email email query in
  query.

(** The WHERE clause of the birthday query, once its Python operands
    [today], [next_month] and [seven_days_later] are evaluated. *)
Definition birthday_clause (today next_month seven_days_later : PyDate.date)
  (user : User.t) (c : Contact.t) : bool :=
  let b := Contact.birth_date c in
  (Contact.owner_id c =? User.id user) &&
  (((PyDate.month b =? PyDate.month today) &&
    (PyDate.day today <=? PyDate.day b) &&
    (PyDate.day b <? PyDate.day today + 7))
   ||
   ((PyDate.month b =? PyDate.month next_month) &&
    (PyDate.day b <=? PyDate.day seven_days_later))).

(** One probe of the comprehension:
    [(datetime(y, b.month, b.day).date() - today).days in range(7)]. *)
Definition probe (today : PyDate.date) (y : Z) (c : Contact.t) : result bool :=
  let b := Contact.birth_date c in
  p <- PyDate.make y (PyDate.month b) (PyDate.day b) ;;
  Ok (PyDate.in_range (PyDate.days_between p today) 7).

Definition probes (today : PyDate.date) (c : Contact.t) : result bool :=
  or_else (probe today (PyDate.year today) c)
          (probe today (PyDate.year today + 1) c).

(** [today] stands for [datetime.now().date()]. *)
Definition get_upcoming_birthdays (today : PyDate.date) (user : User.t)
  (db : Session) : result (list Contact.t) :=
  seven_days_later <- PyDate.add_days today 7 ;;
  next_month <-
    PyDate.replace_month today (PyDate.month today mod 12 + 1) ;;
  let upcoming_birthdays :=
    filter (birthday_clause today next_month seven_days_later user)
           (contacts db) in
  filterM (probes today) upcoming_birthdays.

End repository_contacts.

(** ** The contact routes ([src/routes/contacts.py]) *)

Module routes_contacts.

Definition HTTP_400_BAD_REQUEST : Z := 400.

Definition create_contact (contact : ContactModel.t) (db : Session)
  (current_user : User.t) : result Contact.t * Session :=
  let existing_contact :=
    first (filter (fun c =>
                     String.eqb (Contact.email c) (ContactModel.email contact)
                     && (Contact.owner_id c =? User.id current_user))
                  (contacts db)) in
  match existing_contact with
  | Some _ =>
      (Raise (HTTPException HTTP_400_BAD_REQUEST
                "Contact with this email already exists."), db)
  | None =>
      let (c, db') :=
        repository_contacts.create_contact contact current_user db in
      (Ok c, db')
  end.

(** [if db_contact is None: raise HTTPException(status_code=404, ...)] *)
Definition or_404 (db_contact : option Contact.t) : result Contact.t :=
  match db_contact with
  | None => Raise (HTTPException 404 "Contact not found")
  | Some c => Ok c
  end.

Definition read_contact (contact_id : Z) (db : Session)
  (current_user : User.t) : result Contact.t :=
  or_404 (repository_contacts.get_contact contact_id current_user db).

Definition update_contact (contact_id : Z) (body : ContactModel.t)
  (db : Session) (current_user : User.t) : result Contact.t * Session :=
  let (db_contact, db') :=
    repository_contacts.update_contact contact_id body current_user db in
  (or_404 db_contact, db').

Definition delete_contact (contact_id : Z) (db : Session)
  (current_user : User.t) : result Contact.t * Session :=
  let (db_contact, db') :=
    repository_contacts.remove_contact contact_id current_user db in
  (or_404 db_contact, db').


(** The three list routes test their result against [None]; a list is
    never [None], so they hand the repository's answer on. *)
Definition read_contacts (skip limit : Z) (db : Session)
  (current_user : User.t) : result (list Contact.t) :=
  repository_contacts.get_contacts skip limit current_user db.

Definition search_contacts (first_name last_name email : option string)
  (db : Session) (current_user : User.t) : result (list Contact.t) :=
  Ok (repository_contacts.search_contact first_name last_name email
        current_user db).

Definition get_upcoming_birthdays (today : PyDate.date) (db : Session)
  (current_user : User.t) : result (list Contact.t) :=
  repository_contacts.get_upcoming_birthdays today current_user db.
End routes_contacts.

(** ** Users: repository and refresh route
    ([src/repository/users.py], [src/routes/users.py]) *)

Module repository_users.

Definition get_user_by_email (email : string) (db : Session)
  : option User.t :=
  first (filter (fun u => String.eqb (User.email u) email) (users db)).

(** [user.refresh_token = token; db.commit()] *)
Definition update_token (user : User.t) (token : option string)
  (db : Session) : Session :=
  with_users db
    (map (fun r => if User.id r =? User.id user
                   then User.set_refresh_token r token else r)
         (users db)).


(** [user_id] is the number the server's sequence hands to the new row,
    [now] the value of [func.now()] and [avatar] what the Gravatar lookup
    gave ([None] when it raised).  A new row is unconfirmed and has no
    refresh token. *)
Definition create_user (body : UserModel.t) (user_id now : Z)
  (avatar : option string) (db : Session) : option User.t * Session :=
  let existing_user :=
    first (filter (fun u => String.eqb (User.email u) (UserModel.email body))
                  (users db)) in
  match existing_user with
  | Some _ => (None, db)
  | None =>
      let new_user :=
        User.mk user_id (UserModel.username body) (UserModel.email body)
          (UserModel.password body) now avatar None false in
      (Some new_user, with_users db (users db ++ [new_user]))
  end.

(** [user = get_user_by_email(...); user.confirmed = True; db.commit()];
    the assignment raises when the lookup gave [None]. *)
Definition confirmed_email (email : string) (db : Session) : result Session :=
  match get_user_by_email email db with
  | None => Raise AttributeError
  | Some user =>
      Ok (with_users db
            (map (fun r => if User.id r =? User.id user
                           then User.set_confirmed r true else r)
                 (users db)))
  end.

Definition update_avatar (email url : string) (db : Session)
  : result (User.t * Session) :=
  match get_user_by_email email db with
  | None => Raise AttributeError
  | Some user =>
      Ok (User.set_avatar user (Some url),
          with_users db
            (map (fun r => if User.id r =? User.id user
                           then User.set_avatar r (Some url) else r)
                 (users db)))
  end.
End repository_users.

(** The token service [auth_service] lives outside the modelled files; the
    route only needs these three operations of it.  Issued tokens carry
    their time of issue, so the two [create] operations take the clock. *)
Record AuthService : Type := mkAuthService {
  decode_refresh_token : string -> result string;
  create_access_token : string -> Z -> string;
  create_refresh_token : string -> Z -> string
}.

Record TokenModel : Type := mkTokenModel {
  access_token : string;
  refresh_token : string;
  token_type : string
}.

(** The rest of [auth_service] that the user routes call.  Hashing draws a
    salt, which is an input here. *)
Record PasswordService : Type := mkPasswordService {
  get_password_hash : string -> Z -> string;
  verify_password : string -> string -> bool;
  get_email_from_token : string -> result string
}.

(** One call [background_tasks.add_task(send_email, email, username, host)]. *)
Record EmailTask : Type := mkEmailTask {
  recipient : string;
  task_username : string;
  host : string
}.

Module routes_users.

Definition HTTP_401_UNAUTHORIZED : Z := 401.

Definition refresh_token (auth_service : AuthService) (now : Z)
  (credentials : string) (db : Session) : result TokenModel * Session :=
  let token := credentials in
  match decode_refresh_token auth_service token with
  | Raise e => (Raise e, db)
  | Ok email =>
      match repository_users.get_user_by_email email db with
      | None => (Raise AttributeError, db)
      | Some user =>
          if negb (match User.refresh_token user with
                   | Some stored => String.eqb stored token
                   | None => false
                   end)
          then
            (Raise (HTTPException HTTP_401_UNAUTHORIZED
                      "Invalid refresh token"),
             repository_users.update_token user None db)
          else
            let access_token := create_access_token auth_service email now in
            let refresh_token := create_refresh_token auth_service email now in
            (Ok (mkTokenModel access_token refresh_token "bearer"),
             repository_users.update_token user (Some refresh_token) db)
      end
  end.


Definition HTTP_409_CONFLICT : Z := 409.

(** The route answers with the new user, the store it leaves and the mail
    tasks it queued. *)
Definition signup (passwords : PasswordService) (user_id now salt : Z)
  (avatar : option string) (base_url : string) (body : UserModel.t)
  (db : Session) : result User.t * Session * list EmailTask :=
  match repository_users.get_user_by_email (UserModel.email body) db with
  | Some _ =>
      (Raise (HTTPException HTTP_409_CONFLICT "Account already exists"),
       db, [])
  | None =>
      let body :=
        UserModel.mk (UserModel.username body) (UserModel.email body)
          (get_password_hash passwords (UserModel.password body) salt) in
      match repository_users.create_user body user_id now avatar db with
      | (None, db') => (Raise AttributeError, db', [])
      | (Some new_user, db') =>
          (Ok new_user, db',
           [mkEmailTask (User.email new_user) (User.username new_user)
              base_url])
      end
  end.

Definition login (auth_service : AuthService) (passwords : PasswordService)
  (now : Z) (username password : string) (db : Session)
  : result TokenModel * Session :=
  match repository_users.get_user_by_email username db with
  | None =>
      (Raise (HTTPException HTTP_401_UNAUTHORIZED "Invalid email"), db)
  | Some user =>
      if negb (User.confirmed user) then
        (Raise (HTTPException HTTP_401_UNAUTHORIZED "Email not confirmed"),
         db)
      else if negb (verify_password passwords password (User.password user))
      then
        (Raise (HTTPException HTTP_401_UNAUTHORIZED "Invalid password"), db)
      else
        let access_token :=
          create_access_token auth_service (User.email user) now in
        let refresh_token :=
          create_refresh_token auth_service (User.email user) now in
        (Ok (mkTokenModel access_token refresh_token "bearer"),
         repository_users.update_token user (Some refresh_token) db)
  end.

Definition confirmed_email (passwords : PasswordService) (token : string)
  (db : Session) : result string * Session :=
  match get_email_from_token passwords token with
  | Raise e => (Raise e, db)
  | Ok email =>
      match repository_users.get_user_by_email email db with
      | None => (Raise (HTTPException 400 "Verification error"), db)
      | Some user =>
          if User.confirmed user
          then (Ok "Your email is already confirmed"%string, db)
          else
            match repository_users.confirmed_email email db with
            | Raise e => (Raise e, db)
            | Ok db' => (Ok "Email confirmed"%string, db')
            end
      end
  end.

(** [user.confirmed] is read before [user] is tested. *)
Definition request_email (email base_url : string) (db : Session)
  : result string * list EmailTask :=
  match repository_users.get_user_by_email email db with
  | None => (Raise AttributeError, [])
  | Some user =>
      if User.confirmed user
      then (Ok "Your email is already confirmed"%string, [])
      else (Ok "Check your email for confirmation."%string,
            [mkEmailTask (User.email user) (User.username user) base_url])
  end.

End routes_users.

(** ** Store invariants and specification vocabulary *)

(** [Contact.id] is the primary key of its table. *)
Definition contacts_pk (db : Session) : Prop :=
  NoDup (map Contact.id (contacts db)).

(** The sequence runs ahead of every number it has handed out. *)
Definition seq_fresh (db : Session) : Prop :=
  Forall (fun c => Contact.id c < contacts_id_seq db) (contacts db).

(** A [Date] column holds calendar dates. *)
Definition dates_valid (db : Session) : Prop :=
  Forall (fun c => PyDate.valid (Contact.birth_date c) = true) (contacts db).

(** What the repository keeps true of the contacts table. *)
Definition wf_contacts (db : Session) : Prop :=
  contacts_pk db /\ seq_fresh db /\ dates_valid db.

Definition body_valid (body : ContactModel.t) : Prop :=
  PyDate.valid (ContactModel.birth_date body) = true.

Definition empty_session : Session := mkSession [] [] 1.

(** [User.id] is the primary key of its table and [User.email] is
    declared unique. *)
Definition users_pk (db : Session) : Prop :=
  NoDup (map User.id (users db)).

Definition users_email_unique (db : Session) : Prop :=
  NoDup (map User.email (users db)).

(** The store after [user.field = value; db.commit()]: the row of [user]
    with [f] applied, the shape shared by [update_token],
    [confirmed_email] and [update_avatar]. *)
Definition write_row (f : User.t -> User.t) (user : User.t) (db : Session)
  : Session :=
  with_users db
    (map (fun r => if User.id r =? User.id user then f r else r) (users db)).

(** The writes of the contact repository, as requests. *)
Inductive contact_op : Type :=
| OpCreate (body : ContactModel.t) (user : User.t)
| OpUpdate (contact_id : Z) (body : ContactModel.t) (user : User.t)
| OpRemove (contact_id : Z) (user : User.t).

Definition op_user (op : contact_op) : User.t :=
  match op with
  | OpCreate _ user => user
  | OpUpdate _ _ user => user
  | OpRemove _ user => user
  end.

Definition op_body_valid (op : contact_op) : Prop :=
  match op with
  | OpCreate body _ => body_valid body
  | OpUpdate _ body _ => body_valid body
  | OpRemove _ _ => True
  end.

Definition apply_op (op : contact_op) (db : Session) : Session :=
  match op with
  | OpCreate body user =>
      snd (repository_contacts.create_contact body user db)
  | OpUpdate contact_id body user =>
      snd (repository_contacts.update_contact contact_id body user db)
  | OpRemove contact_id user =>
      snd (repository_contacts.remove_contact contact_id user db)
  end.

Definition run_ops (ops : list contact_op) (db : Session) : Session :=
  fold_left (fun db op => apply_op op db) ops db.

(** The user [user] owns a contact with e-mail [email]. *)
Definition owns_email (db : Session) (user : User.t) (email : string) : Prop :=
  exists c, In c (contacts db) /\ Contact.email c = email /\
            Contact.owner_id c = User.id user.

(** [needle] occurs in [hay]. *)
Fixpoint contains (needle hay : string) : bool :=
  String.prefix needle hay ||
  match hay with
  | EmptyString => false
  | String _ hay' => contains needle hay'
  end.

(** Case-insensitive substring match. *)
Definition icontains (needle hay : string) : bool :=
  contains (Sql.lower needle) (Sql.lower hay).

(** The characters with a meaning of their own in a [LIKE] pattern. *)
Definition special (c : ascii) : bool :=
  (Ascii.eqb c "%" || Ascii.eqb c "_" || Ascii.eqb c "\")%bool.

(** No character of [s] has a meaning of its own in a [LIKE] pattern. *)
Fixpoint plain (s : string) : bool :=
  match s with
  | EmptyString => true
  | String c s' => negb (special c) && plain s'
  end.

(** What [search_contact] does with one optional filter: the column is
    matched against the pattern made of the value between two [%]. *)
Definition pattern_filter (value : option string) (column : string) : bool :=
  match value with
  | Some v => if truthy value then Sql.ilike column ("%" ++ v ++ "%") else true
  | None => true
  end.

(** One optional filter read as a case-insensitive substring match. *)
Definition substring_filter (value : option string) (column : string)
  : bool :=
  match value with
  | Some v => if truthy value then icontains v column else true
  | None => true
  end.

(** The probe date of birthday [b] in year [y] exists and lies 0 to 6 days
    after [today]. *)
Definition probe_date_in_window (today : PyDate.date) (y : Z)
  (b : PyDate.date) : Prop :=
  exists p,
    PyDate.make y (PyDate.month b) (PyDate.day b) = Ok p /\
    0 <= PyDate.days_between p today < 7.

(** The month and day of [b] are those of the day [k] days after [today]. *)
Definition birthday_on (today : PyDate.date) (k : nat) (b : PyDate.date)
  : bool :=
  match PyDate.add_days today k with
  | Ok t => (PyDate.month t =? PyDate.month b) && (PyDate.day t =? PyDate.day b)
  | Raise _ => false
  end.

(** The month and day of [b] fall in [[today, today + 7 days)]. *)
Definition in_birthday_window (today b : PyDate.date) : bool :=
  existsb (fun k => birthday_on today k b) (seq 0 7).

(** ** A small store used to exercise the statements *)

Module Sample.
Local Open Scope string_scope.

Definition alice : User.t :=
  User.mk 1 "alice" "alice@example.com" "hash-a" 0 None (Some "rt-alice") true.

Definition bob : User.t :=
  User.mk 2 "bob" "bob@example.com" "hash-b" 0 None None true.

Definition john : Contact.t :=
  Contact.mk 1 "John" "Doe" "john.doe@example.com" "1234567890"
    (PyDate.mkDate 1990 1 2) None 1.

Definition jane : Contact.t :=
  Contact.mk 2 "Jane" "Roe" "jane.roe@example.com" "0987654321"
    (PyDate.mkDate 1991 1 31) None 2.

Definition johnny : Contact.t :=
  Contact.mk 3 "Johnny" "Smith" "johnny@example.com" "5550000"
    (PyDate.mkDate 1988 12 31) (Some "climbing") 1.

Definition leapling : Contact.t :=
  Contact.mk 4 "Lea" "Pling" "lea@example.com" "5550001"
    (PyDate.mkDate 1992 2 29) None 1.

Definition db : Session := mkSession [alice; bob] [john; jane; johnny] 4.

Definition db_leap : Session := mkSession [alice; bob] [john; leapling] 5.

Definition body : ContactModel.t :=
  ContactModel.mk "Jon" "Dough" "john.doe@example.com" "111"
    (PyDate.mkDate 1990 1 3) (Some "renamed").

(** A token service for the examples: a refresh token is the subject after
    a fixed prefix. *)
Definition auth : AuthService :=
  mkAuthService
    (fun token =>
       if String.prefix "rt-" token
       then Ok (String.substring 3 (String.length token - 3) token
                ++ "@example.com")%string
       else Raise (HTTPException 401 "Could not validate credentials"))
    (fun email now => ("at:" ++ email)%string)
    (fun email now => ("rt2:" ++ email)%string).


(** A password service for the examples: the hash is the password after a
    fixed prefix, whatever the salt, and an e-mail token is the address
    after a fixed prefix. *)
Definition passwords : PasswordService :=
  mkPasswordService
    (fun plain salt => "h:" ++ plain)
    (fun plain hashed => String.eqb ("h:" ++ plain) hashed)
    (fun token =>
       if String.prefix "et-" token
       then Ok (String.substring 3 (String.length token - 3) token)
       else Raise (HTTPException 422 "Invalid token for email verification")).

(** A token service that decodes what it issues: a token is the subject
    after a two-character tag that depends on the time of issue. *)
Definition tokens : AuthService :=
  mkAuthService
    (fun token =>
       if String.prefix "a:" token || String.prefix "b:" token
       then Ok (String.substring 2 (String.length token - 2) token)
       else Raise (HTTPException 401 "Could not validate credentials"))
    (fun email now => "access:" ++ email)
    (fun email now => (if Z.eqb now 0 then "a:" else "b:") ++ email).

Definition dave : User.t :=
  User.mk 3 "dave" "dave@example.com" "h:pw" 0 None
    (Some "a:dave@example.com") true.

Definition db_users : Session := mkSession [alice; bob; dave] [john] 2.

Definition carol : UserModel.t :=
  UserModel.mk "carol" "carol@example.com" "secret".

Definition jim : Contact.t :=
  Contact.mk 5 "Jim" "Doe" "jim@example.com" "5550002"
    (PyDate.mkDate 1979 6 5) None 1.

Definition db2 : Session := mkSession [alice; bob] [john; jane; johnny; jim] 6.
End Sample.

(** * Properties *)

(** ** Calendar arithmetic *)

Module PyDateFacts.
Import PyDate.

Lemma valid_spec (t : date) :
  valid t = true <->
  1 <= year t <= 9999 /\ 1 <= month t <= 12 /\
  1 <= day t <= days_in_month (year t) (month t).
Proof.
  unfold valid, check_date_fields, MINYEAR, MAXYEAR.
  rewrite !andb_true_iff, !Z.leb_le. lia.
Qed.

Lemma make_Ok (y m d : Z) (p : date) :
  make y m d = Ok p -> p = mkDate y m d /\ valid p = true.
Proof.
  unfold make. destruct (check_date_fields y m d) eqn:E; intros H.
  - inversion H; subst. split; [reflexivity | exact E].
  - discriminate.
Qed.

Lemma days_before_year_succ (y : Z) :
  days_before_year (y + 1) =
  days_before_year y + 365 + (if is_leap y then 1 else 0).
Proof.
  unfold days_before_year, is_leap.
  replace (y + 1 - 1) with y by lia.
  destruct (y mod 4 =? 0) eqn:E4; destruct (y mod 100 =? 0) eqn:E100;
    destruct (y mod 400 =? 0) eqn:E400; cbn [andb orb negb];
    rewrite ?Z.eqb_eq, ?Z.eqb_neq in *;
    Z.div_mod_to_equations; lia.
Qed.

Lemma days_before_year_mono (a b : Z) :
  a <= b -> days_before_year a <= days_before_year b.
Proof.
  unfold days_before_year. intros H. Z.div_mod_to_equations. lia.
Qed.

Lemma days_in_month_bounds (y m : Z) :
  1 <= m <= 12 -> 28 <= days_in_month y m <= 31.
Proof.
  intros H. month_cases m; cbn; try lia; destruct (is_leap y); lia.
Qed.

Lemma days_before_month_succ (y m : Z) :
  1 <= m < 12 ->
  days_before_month y (m + 1) = days_before_month y m + days_in_month y m.
Proof.
  intros H. month_cases m; try lia; unfold days_before_month; cbn;
    destruct (is_leap y); cbn; lia.
Qed.

Lemma days_before_month_december (y : Z) :
  days_before_month y 12 + 31 = 365 + (if is_leap y then 1 else 0).
Proof. unfold days_before_month; cbn; destruct (is_leap y); cbn; lia. Qed.

Lemma days_before_month_mono (y a b : Z) :
  1 <= a -> a < b -> b <= 12 ->
  days_before_month y a + days_in_month y a <= days_before_month y b.
Proof.
  intros Ha Hab Hb.
  month_cases a; try lia; month_cases b; try lia;
    unfold days_before_month; cbn; destruct (is_leap y); cbn; lia.
Qed.

Lemma toordinal_year_bounds (t : date) :
  valid t = true ->
  days_before_year (year t) < toordinal t <= days_before_year (year t + 1).
Proof.
  rewrite valid_spec. intros (Hy & Hm & Hd).
  rewrite days_before_year_succ. unfold toordinal.
  pose proof (days_before_month_december (year t)) as H12.
  assert (0 <= days_before_month (year t) (month t) /\
          days_before_month (year t) (month t)
          + days_in_month (year t) (month t)
          <= days_before_month (year t) 12 + 31) as [H0 H1].
  { destruct (Z.eq_dec (month t) 12) as [E | E].
    - rewrite E. unfold days_before_month; cbn.
      destruct (is_leap (year t)); cbn; lia.
    - pose proof (days_before_month_mono (year t) (month t) 12) as M.
      split; [| lia].
      remember (month t) as m. clear Heqm M.
      month_cases m; try lia; unfold days_before_month; cbn;
        destruct (is_leap (year t)); cbn; lia. }
  lia.
Qed.

Lemma toordinal_inj (a b : date) :
  valid a = true -> valid b = true -> toordinal a = toordinal b -> a = b.
Proof.
  intros Va Vb E.
  pose proof (toordinal_year_bounds a Va) as Ba.
  pose proof (toordinal_year_bounds b Vb) as Bb.
  assert (Hy : year a = year b).
  { destruct (Z.lt_trichotomy (year a) (year b)) as [L | [L | L]]; trivial.
    - pose proof (days_before_year_mono (year a + 1) (year b)). lia.
    - pose proof (days_before_year_mono (year b + 1) (year a)). lia. }
  apply valid_spec in Va, Vb.
  destruct a as [ya ma da], b as [yb mb db]; cbn in *. subst yb.
  unfold toordinal in E; cbn in E.
  assert (Hm : ma = mb).
  { destruct (Z.lt_trichotomy ma mb) as [L | [L | L]]; trivial.
    - pose proof (days_before_month_mono ya ma mb). lia.
    - pose proof (days_before_month_mono ya mb ma). lia. }
  subst mb. f_equal. lia.
Qed.

Lemma next_day_spec (t t' : date) :
  valid t = true -> next_day t = Ok t' ->
  valid t' = true /\ toordinal t' = toordinal t + 1.
Proof.
  intros V. pose proof V as V0. apply valid_spec in V.
  destruct V as (Hy & Hm & Hd).
  unfold next_day, MAXYEAR.
  destruct (day t <? days_in_month (year t) (month t)) eqn:E1.
  - apply Z.ltb_lt in E1. intros H; inversion H; subst; clear H.
    split; [apply valid_spec; cbn; lia | unfold toordinal; cbn; lia].
  - apply Z.ltb_ge in E1.
    destruct (month t <? 12) eqn:E2.
    + apply Z.ltb_lt in E2. intros H; inversion H; subst; clear H.
      pose proof (days_in_month_bounds (year t) (month t + 1)).
      split; [apply valid_spec; cbn; lia |].
      unfold toordinal; cbn.
      rewrite days_before_month_succ by lia. lia.
    + apply Z.ltb_ge in E2.
      destruct (year t <? 9999) eqn:E3; [| discriminate].
      apply Z.ltb_lt in E3. intros H; inversion H; subst; clear H.
      split; [apply valid_spec; cbn; lia |].
      unfold toordinal; cbn.
      rewrite days_before_year_succ.
      assert (month t = 12) as E12 by lia.
      pose proof (days_before_month_december (year t)).
      rewrite E12 in *. cbn in Hd, E1.
      replace (days_before_month (year t + 1) 1) with 0
        by (unfold days_before_month; cbn; destruct (is_leap _); reflexivity).
      lia.
Qed.

Lemma add_days_spec (n : nat) (t t' : date) :
  valid t = true -> add_days t n = Ok t' ->
  valid t' = true /\ toordinal t' = toordinal t + Z.of_nat n.
Proof.
  revert t. induction n as [| n IH]; intros t V H.
  - cbn in H. inversion H; subst. split; [assumption | lia].
  - cbn [add_days] in H. unfold bind in H.
    destruct (next_day t) as [t1 |] eqn:E; [| discriminate].
    destruct (next_day_spec t t1 V E) as [V1 O1].
    destruct (IH t1 V1 H) as [V' O']. split; [assumption | lia].
Qed.

(** Only 9999-12-31 has no next day. *)
Lemma next_day_total (t : date) :
  valid t = true -> year t < 9999 \/ month t < 12 \/ day t < 31 ->
  exists t', next_day t = Ok t'.
Proof.
  intros V H. apply valid_spec in V. destruct V as (Hy & Hm & Hd).
  unfold next_day, MAXYEAR.
  destruct (day t <? days_in_month (year t) (month t)) eqn:E1; eauto.
  destruct (month t <? 12) eqn:E2; eauto.
  destruct (year t <? 9999) eqn:E3; eauto.
  apply Z.ltb_ge in E1, E2, E3.
  assert (month t = 12) as E12 by lia. rewrite E12 in *. cbn in *. lia.
Qed.

Lemma add_days_total (n : nat) (t : date) :
  valid t = true -> year t < 9999 -> (n <= 28)%nat ->
  exists t', add_days t n = Ok t'.
Proof.
  intros V Hy Hn.
  assert (G : forall k s, valid s = true ->
            toordinal s + Z.of_nat k <= days_before_year 9999 + 28 ->
            (k <= 28)%nat -> exists s', add_days s k = Ok s').
  { induction k as [| k IH]; intros s Vs Hs Hk; cbn [add_days]; eauto.
    destruct (next_day_total s Vs) as [s1 E].
    - pose proof (toordinal_year_bounds s Vs) as B.
      destruct (Z.lt_trichotomy (year s) 9999) as [L | [L | L]];
        [lia | | apply valid_spec in Vs; lia].
      right.
      destruct (Z.lt_trichotomy (month s) 12) as [L' | [L' | L']];
        [lia | | apply valid_spec in Vs; lia].
      exfalso. unfold toordinal in Hs. rewrite L, L' in Hs.
      apply valid_spec in Vs.
      assert (days_before_month 9999 12 = 334) as D by reflexivity.
      lia.
    - rewrite E. cbn [bind].
      destruct (next_day_spec s s1 Vs E) as [V1 O1].
      apply IH; [assumption | lia | lia]. }
  apply G; trivial.
  pose proof (toordinal_year_bounds t V) as B.
  pose proof (days_before_year_mono (year t + 1) 9999). lia.
Qed.

Lemma days_before_month_first (y : Z) : days_before_month y 1 = 0.
Proof. unfold days_before_month; cbn; destruct (is_leap y); reflexivity. Qed.

(** A date at most four weeks after [t] lies in the month of [t] or in the
    month after it. *)
Lemma toordinal_close (t p : date) (k : Z) :
  valid t = true -> valid p = true ->
  toordinal p = toordinal t + k -> 0 <= k <= 28 ->
  (year p = year t /\ month p = month t /\ day p = day t + k) \/
  (year p = year t /\ month t < 12 /\ month p = month t + 1 /\
   day p = day t + k - days_in_month (year t) (month t)) \/
  (year p = year t + 1 /\ month t = 12 /\ month p = 1 /\
   day p = day t + k - 31).
Proof.
  intros Vt Vp E Hk.
  pose proof (toordinal_year_bounds t Vt) as Bt.
  pose proof (toordinal_year_bounds p Vp) as Bp.
  apply valid_spec in Vt, Vp.
  destruct Vt as (Hyt & Hmt & Hdt), Vp as (Hyp & Hmp & Hdp).
  pose proof (days_in_month_bounds (year t) (month t) Hmt) as Dt.
  assert (Hlo : year t <= year p).
  { destruct (Z_lt_le_dec (year p) (year t)) as [L |]; trivial.
    pose proof (days_before_year_mono (year p + 1) (year t)). lia. }
  assert (Hhi : year p <= year t + 1).
  { destruct (Z_lt_le_dec (year t + 1) (year p)) as [L |]; trivial.
    pose proof (days_before_year_mono (year t + 1 + 1) (year p)).
    pose proof (days_before_year_succ (year t + 1)).
    destruct (is_leap (year t + 1)); lia. }
  pose proof (days_before_year_succ (year t)) as S.
  pose proof (days_before_month_december (year t)) as D12.
  unfold toordinal in E.
  destruct (Z.eq_dec (year p) (year t)) as [Ey | Ey].
  - rewrite Ey in *.
    destruct (Z.lt_trichotomy (month p) (month t)) as [L | [L | L]].
    + pose proof (days_before_month_mono (year t) (month p) (month t)). lia.
    + left. rewrite L in E. lia.
    + right; left.
      pose proof (days_before_month_succ (year t) (month t)) as Sm.
      destruct (Z.eq_dec (month p) (month t + 1)) as [Em | Em].
      * rewrite Em in E. lia.
      * pose proof (days_before_month_mono (year t) (month t + 1) (month p)).
        pose proof (days_in_month_bounds (year t) (month t + 1)). lia.
  - right; right.
    assert (Ey' : year p = year t + 1) by lia. rewrite Ey' in *.
    destruct (Z.eq_dec (month t) 12) as [Em | Em].
    + rewrite Em in *.
      destruct (Z.eq_dec (month p) 1) as [Ep | Ep].
      * rewrite Ep in E. rewrite days_before_month_first in E.
        destruct (is_leap (year t)); lia.
      * pose proof (days_before_month_mono (year t + 1) 1 (month p)) as M.
        rewrite days_before_month_first in M. cbn in M.
        destruct (is_leap (year t)); lia.
    + pose proof (days_before_month_mono (year t) (month t) 12).
      assert (0 <= days_before_month (year t + 1) (month p)).
      { destruct (Z.eq_dec (month p) 1) as [Ep | Ep].
        - rewrite Ep, days_before_month_first. lia.
        - pose proof (days_before_month_mono (year t + 1) 1 (month p)) as M.
          rewrite days_before_month_first in M. cbn in M. lia. }
      destruct (is_leap (year t)); lia.
Qed.

End PyDateFacts.

(** ** Queries over row lists *)

Lemma first_filter_Some {A : Type} (f : A -> bool) (l : list A) (x : A) :
  first (filter f l) = Some x ->
  exists l1 l2, l = l1 ++ x :: l2 /\ f x = true /\
                forall y, In y l1 -> f y = false.
Proof.
  induction l as [| a l IH]; cbn; [discriminate |].
  destruct (f a) eqn:E; cbn.
  - intros H; inversion H; subst. exists [], l. auto with datatypes.
    repeat split; trivial. intros y [].
  - intros H. destruct (IH H) as (l1 & l2 & -> & Hx & Hl1).
    exists (a :: l1), l2. repeat split; trivial.
    intros y [<- | Hy]; auto.
Qed.

Lemma first_filter_None {A : Type} (f : A -> bool) (l : list A) :
  first (filter f l) = None <-> forall x, In x l -> f x = false.
Proof.
  induction l as [| a l IH]; cbn.
  - split; [intros _ x [] | reflexivity].
  - destruct (f a) eqn:E; cbn.
    + split; [discriminate |]. intros H. specialize (H a (or_introl eq_refl)).
      congruence.
    + rewrite IH. split.
      * intros H x [<- | Hx]; auto.
      * intros H x Hx. apply H. now right.
Qed.

Lemma filter_all {A : Type} (f : A -> bool) (l : list A) :
  (forall x, In x l -> f x = true) -> filter f l = l.
Proof.
  induction l as [| a l IH]; cbn; intros H; trivial.
  rewrite (H a) by now left. f_equal. apply IH. intros x Hx. apply H. now right.
Qed.

Lemma filter_none {A : Type} (f : A -> bool) (l : list A) :
  (forall x, In x l -> f x = false) -> filter f l = [].
Proof.
  induction l as [| a l IH]; cbn; intros H; trivial.
  rewrite (H a) by now left. apply IH. intros x Hx. apply H. now right.
Qed.

(** Splitting a list by a test only reorders it. *)
Lemma filter_split_perm {A : Type} (f : A -> bool) (l : list A) :
  Permutation l (filter (fun x => negb (f x)) l ++ filter f l).
Proof.
  induction l as [| a l IH]; cbn; [constructor |].
  destruct (f a); cbn.
  - now apply Permutation_cons_app.
  - now constructor.
Qed.

Lemma map_unchanged {A : Type} (f : A -> A) (l : list A) :
  (forall x, In x l -> f x = x) -> map f l = l.
Proof.
  intros H. rewrite <- (map_id l) at 2. apply map_ext_in. exact H.
Qed.

(** In a table keyed by [Contact.id], the row [c] is the only one with its
    key. *)
Lemma pk_split (l1 l2 : list Contact.t) (c : Contact.t) :
  NoDup (map Contact.id (l1 ++ c :: l2)) ->
  forall r, In r (l1 ++ l2) -> (Contact.id r =? Contact.id c) = false.
Proof.
  intros ND r Hr. apply Z.eqb_neq. intros E.
  rewrite map_app in ND. cbn in ND. apply NoDup_remove_2 in ND.
  apply ND. rewrite <- map_app, <- E. now apply in_map.
Qed.

Lemma pk_unique (db : Session) (c c' : Contact.t) :
  contacts_pk db -> In c (contacts db) -> In c' (contacts db) ->
  Contact.id c = Contact.id c' -> c = c'.
Proof.
  unfold contacts_pk. intros ND Hc Hc' E.
  apply in_split in Hc. destruct Hc as (l1 & l2 & Hl). rewrite Hl in *.
  pose proof (pk_split l1 l2 c ND) as U.
  apply in_app_or in Hc'. destruct Hc' as [H | [H | H]]; auto.
  - specialize (U c' (in_or_app _ _ _ (or_introl H))).
    apply Z.eqb_neq in U. congruence.
  - specialize (U c' (in_or_app _ _ _ (or_intror H))).
    apply Z.eqb_neq in U. congruence.
Qed.

(** ** Ownership scoping of the single-contact operations *)

Section Ownership.
Import repository_contacts.

Variable db : Session.
Hypothesis PK : contacts_pk db.

(** What the owner-scoped lookup finds is a row of the requester. *)
Lemma get_contact_Some (contact_id : Z) (user : User.t) (c : Contact.t) :
  get_contact contact_id user db = Some c ->
  In c (contacts db) /\ Contact.id c = contact_id /\
  Contact.owner_id c = User.id user.
Proof.
  unfold get_contact. intros H.
  apply first_filter_Some in H. destruct H as (l1 & l2 & E & Hc & _).
  unfold by_id_and_owner in Hc. apply andb_true_iff in Hc.
  destruct Hc as [H1 H2]. apply Z.eqb_eq in H1, H2.
  rewrite E. auto with datatypes.
Qed.

Lemma get_contact_owned (c : Contact.t) (user : User.t) :
  In c (contacts db) -> Contact.owner_id c = User.id user ->
  get_contact (Contact.id c) user db = Some c.
Proof.
  intros Hc Ho. unfold get_contact.
  destruct (first (filter (by_id_and_owner (Contact.id c) user) (contacts db)))
    as [c' |] eqn:E.
  - pose proof (get_contact_Some _ _ _ E) as (Hin & Hid & _).
    f_equal. apply (pk_unique db); auto.
  - rewrite first_filter_None in E. specialize (E c Hc).
    unfold by_id_and_owner in E. rewrite Z.eqb_refl, Ho, Z.eqb_refl in E.
    discriminate.
Qed.

Lemma get_contact_foreign (c : Contact.t) (user : User.t) :
  In c (contacts db) -> Contact.owner_id c <> User.id user ->
  get_contact (Contact.id c) user db = None.
Proof.
  intros Hc Ho. unfold get_contact.
  destruct (first (filter (by_id_and_owner (Contact.id c) user) (contacts db)))
    as [c' |] eqn:E; trivial.
  pose proof (get_contact_Some _ _ _ E) as (Hin & Hid & Hown).
  assert (c' = c) by (apply (pk_unique db); auto). subst c'. contradiction.
Qed.

Lemma update_contact_None (contact_id : Z) (body : ContactModel.t)
  (user : User.t) :
  get_contact contact_id user db = None ->
  update_contact contact_id body user db = (None, db).
Proof. unfold get_contact, update_contact. intros ->. reflexivity. Qed.

Lemma remove_contact_None (contact_id : Z) (user : User.t) :
  get_contact contact_id user db = None ->
  remove_contact contact_id user db = (None, db).
Proof. unfold get_contact, remove_contact. intros ->. reflexivity. Qed.

Lemma update_contact_Some (contact_id : Z) (body : ContactModel.t)
  (user : User.t) (c : Contact.t) :
  get_contact contact_id user db = Some c ->
  exists l1 l2,
    contacts db = l1 ++ c :: l2 /\
    update_contact contact_id body user db =
    (Some (assign c body),
     with_contacts db ((l1 ++ l2) ++ [assign c body])).
Proof.
  intros H. pose proof (get_contact_Some _ _ _ H) as (Hin & _).
  apply in_split in Hin. destruct Hin as (l1 & l2 & E).
  exists l1, l2. split; trivial.
  unfold get_contact in H. unfold update_contact. rewrite H.
  f_equal. f_equal. rewrite E.
  unfold contacts_pk in PK. rewrite E in PK.
  pose proof (pk_split l1 l2 c PK) as U.
  rewrite !filter_app. cbn [filter]. rewrite Z.eqb_refl. cbn [negb].
  rewrite (filter_all _ l1), (filter_all _ l2),
    (filter_none _ l1), (filter_none _ l2);
    try (intros r Hr; rewrite U; auto with datatypes).
  reflexivity.
Qed.

Lemma remove_contact_Some (contact_id : Z) (user : User.t) (c : Contact.t) :
  get_contact contact_id user db = Some c ->
  exists l1 l2,
    contacts db = l1 ++ c :: l2 /\
    remove_contact contact_id user db =
    (Some c, with_contacts db (l1 ++ l2)).
Proof.
  intros H. pose proof (get_contact_Some _ _ _ H) as (Hin & _).
  apply in_split in Hin. destruct Hin as (l1 & l2 & E).
  exists l1, l2. split; trivial.
  unfold get_contact in H. unfold remove_contact. rewrite H.
  f_equal. f_equal. rewrite E.
  unfold contacts_pk in PK. rewrite E in PK.
  pose proof (pk_split l1 l2 c PK) as U.
  rewrite filter_app. cbn [filter]. rewrite Z.eqb_refl. cbn [negb].
  f_equal; apply filter_all; intros r Hr;
    rewrite U; auto with datatypes.
Qed.

End Ownership.

(** ** The repository keeps the table well formed *)

Section StoreInvariants.
Import repository_contacts.

Lemma NoDup_map_filter {A B : Type} (f : A -> B) (g : A -> bool)
  (l : list A) :
  NoDup (map f l) -> NoDup (map f (filter g l)).
Proof.
  induction l as [| a l IH]; cbn; intros H; [constructor |].
  inversion H as [| x xs Hn Hd]; subst.
  destruct (g a); cbn; auto.
  constructor; auto. intros Hin. apply Hn.
  apply in_map_iff in Hin. destruct Hin as (y & Hy & Hin).
  apply filter_In in Hin. apply in_map_iff. exists y. tauto.
Qed.

Lemma empty_session_wf : wf_contacts empty_session.
Proof. repeat split; constructor. Qed.

Lemma create_contact_wf (db : Session) (body : ContactModel.t)
  (user : User.t) :
  wf_contacts db -> body_valid body ->
  wf_contacts (snd (create_contact body user db)).
Proof.
  intros (PK & SF & DV) HB. unfold wf_contacts, contacts_pk, seq_fresh,
    dates_valid in *. cbn.
  rewrite Forall_forall in SF. repeat split.
  - rewrite map_app. apply NoDup_app; trivial.
    + cbn. repeat constructor. intros [].
    + intros a Ha [<- | []]. cbn in Ha.
      apply in_map_iff in Ha. destruct Ha as (c & Hc & Hin).
      specialize (SF c Hin). lia.
  - apply Forall_app. split.
    + apply Forall_forall. intros c Hc. specialize (SF c Hc). lia.
    + repeat constructor. cbn. lia.
  - apply Forall_app. split; [assumption | repeat constructor; exact HB].
Qed.

Lemma update_contact_wf (db : Session) (contact_id : Z)
  (body : ContactModel.t) (user : User.t) :
  wf_contacts db -> body_valid body ->
  wf_contacts (snd (update_contact contact_id body user db)).
Proof.
  intros WF HB. unfold update_contact.
  destruct (first _) as [c |]; [| exact WF].
  destruct WF as (PK & SF & DV).
  unfold wf_contacts, contacts_pk, seq_fresh, dates_valid in *. cbn.
  rewrite Forall_forall in SF, DV.
  repeat split.
  - rewrite map_app, map_map. cbn [assign Contact.id].
    rewrite <- map_app.
    apply (Permutation_NoDup
             (Permutation_map Contact.id
                (filter_split_perm
                   (fun r => Contact.id r =? Contact.id c) (contacts db)))).
    exact PK.
  - apply Forall_app. split; apply Forall_forall; intros r Hr.
    + apply filter_In in Hr. apply SF, Hr.
    + apply in_map_iff in Hr. destruct Hr as (x & <- & Hx).
      apply filter_In in Hx. cbn. apply SF, Hx.
  - apply Forall_app. split; apply Forall_forall; intros r Hr.
    + apply filter_In in Hr. apply DV, Hr.
    + apply in_map_iff in Hr. destruct Hr as (x & <- & Hx). exact HB.
Qed.

Lemma remove_contact_wf (db : Session) (contact_id : Z) (user : User.t) :
  wf_contacts db -> wf_contacts (snd (remove_contact contact_id user db)).
Proof.
  intros WF. unfold remove_contact.
  destruct (first _) as [c |]; [| exact WF].
  destruct WF as (PK & SF & DV).
  unfold wf_contacts, contacts_pk, seq_fresh, dates_valid in *. cbn.
  repeat split.
  - apply NoDup_map_filter, PK.
  - apply Forall_forall. rewrite Forall_forall in SF.
    intros r Hr. apply filter_In in Hr. apply SF, Hr.
  - apply Forall_forall. rewrite Forall_forall in DV.
    intros r Hr. apply filter_In in Hr. apply DV, Hr.
Qed.

End StoreInvariants.

Section OwnershipClaims.
Import repository_contacts.

(** C1. A contact [C] owned by [A] is out of reach of another user [B]:
    looked up, updated or deleted by [B] under [C]'s identifier it is
    "not found" (404 at the route) and the store stays as it is; and
    whatever identifier [B] guesses, the lookup only ever yields a contact
    that [B] owns. *)
Theorem foreign_contact_unreachable (db : Session) (A B : User.t)
  (C : Contact.t) (body : ContactModel.t) :
  contacts_pk db ->
  In C (contacts db) ->
  Contact.owner_id C = User.id A ->
  User.id A <> User.id B ->
  get_contact (Contact.id C) B db = None /\
  routes_contacts.read_contact (Contact.id C) db B
    = Raise (HTTPException 404 "Contact not found") /\
  update_contact (Contact.id C) body B db = (None, db) /\
  routes_contacts.update_contact (Contact.id C) body db B
    = (Raise (HTTPException 404 "Contact not found"), db) /\
  remove_contact (Contact.id C) B db = (None, db) /\
  routes_contacts.delete_contact (Contact.id C) db B
    = (Raise (HTTPException 404 "Contact not found"), db) /\
  (forall guess c,
      get_contact guess B db = Some c -> Contact.owner_id c = User.id B).
Proof.
  intros PK HC HA HAB.
  assert (G : get_contact (Contact.id C) B db = None).
  { apply get_contact_foreign; trivial. congruence. }
  pose proof (update_contact_None db (Contact.id C) body B G) as U.
  pose proof (remove_contact_None db (Contact.id C) B G) as R.
  repeat split; trivial.
  - unfold routes_contacts.read_contact. rewrite G. reflexivity.
  - unfold routes_contacts.update_contact. rewrite U. reflexivity.
  - unfold routes_contacts.delete_contact. rewrite R. reflexivity.
  - intros guess c H. apply (get_contact_Some db guess B c H).
Qed.

(** C5. [update_contact] on an identifier the user owns replaces the six
    mutable fields of exactly that row, keeps its key and owner, and
    returns the new row: the table afterwards holds the new row and, apart
    from it, the very rows it held apart from the old one (in whatever
    order), and users and sequence are untouched.  On any other identifier
    it returns [None] and hands the store back untouched. *)
Theorem update_contact_replaces_or_not_found (db : Session) (contact_id : Z)
  (body : ContactModel.t) (user : User.t) :
  contacts_pk db ->
  (forall c,
      In c (contacts db) -> Contact.id c = contact_id ->
      Contact.owner_id c = User.id user ->
      let c' :=
        Contact.mk (Contact.id c)
          (ContactModel.first_name body) (ContactModel.last_name body)
          (ContactModel.email body) (ContactModel.phone_number body)
          (ContactModel.birth_date body) (ContactModel.additional_info body)
          (Contact.owner_id c) in
      exists others db',
        update_contact contact_id body user db = (Some c', db') /\
        Permutation (contacts db) (c :: others) /\
        Permutation (contacts db') (c' :: others) /\
        users db' = users db /\
        contacts_id_seq db' = contacts_id_seq db)
  /\
  ((forall c, In c (contacts db) ->
              ~ (Contact.id c = contact_id /\
                 Contact.owner_id c = User.id user)) ->
   update_contact contact_id body user db = (None, db)).
Proof.
  intros PK. split.
  - intros c Hc Hid Ho c'. subst contact_id.
    pose proof (get_contact_owned db PK c user Hc Ho) as G.
    destruct (update_contact_Some db PK _ body _ _ G) as (l1 & l2 & E & U).
    exists (l1 ++ l2). eexists. split; [exact U |].
    cbn [contacts users contacts_id_seq with_contacts]. rewrite E.
    split; [| split; [| split; reflexivity]].
    + apply Permutation_sym, Permutation_middle.
    + apply Permutation_sym, Permutation_cons_append.
  - intros H. apply update_contact_None.
    destruct (get_contact contact_id user db) as [c |] eqn:G; trivial.
    destruct (get_contact_Some db _ _ _ G) as (Hin & Hid & Ho).
    destruct (H c Hin). auto.
Qed.

(** C6. [remove_contact] on an identifier the user owns deletes exactly
    that row and returns it; on an identifier that is absent or belongs to
    someone else it returns [None] and leaves the store as it was. *)
Theorem remove_contact_deletes_or_not_found (db : Session) (contact_id : Z)
  (user : User.t) :
  contacts_pk db ->
  (forall c,
      In c (contacts db) -> Contact.id c = contact_id ->
      Contact.owner_id c = User.id user ->
      exists l1 l2,
        contacts db = l1 ++ c :: l2 /\
        remove_contact contact_id user db
        = (Some c, mkSession (users db) (l1 ++ l2) (contacts_id_seq db)))
  /\
  ((forall c, In c (contacts db) ->
              ~ (Contact.id c = contact_id /\
                 Contact.owner_id c = User.id user)) ->
   remove_contact contact_id user db = (None, db) /\
   routes_contacts.delete_contact contact_id db user
   = (Raise (HTTPException 404 "Contact not found"), db)).
Proof.
  intros PK. split.
  - intros c Hc Hid Ho. subst contact_id.
    pose proof (get_contact_owned db PK c user Hc Ho) as G.
    destruct (remove_contact_Some db PK _ _ _ G) as (l1 & l2 & E & U).
    exists l1, l2. split; trivial.
  - intros H.
    assert (R : remove_contact contact_id user db = (None, db)).
    { apply remove_contact_None.
      destruct (get_contact contact_id user db) as [c |] eqn:G; trivial.
      destruct (get_contact_Some db _ _ _ G) as (Hin & Hid & Ho).
      destruct (H c Hin). auto. }
    split; trivial.
    unfold routes_contacts.delete_contact. rewrite R. reflexivity.
Qed.

End OwnershipClaims.

Section OwnershipWitnesses.
Import repository_contacts.

Lemma sample_pk : contacts_pk Sample.db.
Proof.
  unfold contacts_pk; cbn.
  repeat constructor; cbn; intuition discriminate.
Defined.

Lemma foreign_contact_unreachable_witness :
  contacts_pk Sample.db /\
  In Sample.john (contacts Sample.db) /\
  Contact.owner_id Sample.john = User.id Sample.alice /\
  User.id Sample.alice <> User.id Sample.bob /\
  (get_contact 1 Sample.bob Sample.db = None /\
   routes_contacts.read_contact 1 Sample.db Sample.bob
     = Raise (HTTPException 404 "Contact not found") /\
   update_contact 1 Sample.body Sample.bob Sample.db = (None, Sample.db) /\
   routes_contacts.update_contact 1 Sample.body Sample.db Sample.bob
     = (Raise (HTTPException 404 "Contact not found"), Sample.db) /\
   remove_contact 1 Sample.bob Sample.db = (None, Sample.db) /\
   routes_contacts.delete_contact 1 Sample.db Sample.bob
     = (Raise (HTTPException 404 "Contact not found"), Sample.db) /\
   (forall guess c,
       get_contact guess Sample.bob Sample.db = Some c ->
       Contact.owner_id c = User.id Sample.bob)).
Proof.
  assert (H1 : In Sample.john (contacts Sample.db)) by (cbn; auto).
  assert (H2 : Contact.owner_id Sample.john = User.id Sample.alice)
    by reflexivity.
  assert (H3 : User.id Sample.alice <> User.id Sample.bob)
    by (cbn; discriminate).
  repeat (split; [assumption || exact sample_pk |]).
  exact (foreign_contact_unreachable Sample.db Sample.alice Sample.bob
           Sample.john Sample.body sample_pk H1 H2 H3).
Defined.

Lemma update_contact_replaces_or_not_found_witness :
  contacts_pk Sample.db /\
  ((forall c,
       In c (contacts Sample.db) -> Contact.id c = 1 ->
       Contact.owner_id c = User.id Sample.alice ->
       let c' :=
         Contact.mk (Contact.id c)
           (ContactModel.first_name Sample.body)
           (ContactModel.last_name Sample.body)
           (ContactModel.email Sample.body)
           (ContactModel.phone_number Sample.body)
           (ContactModel.birth_date Sample.body)
           (ContactModel.additional_info Sample.body)
           (Contact.owner_id c) in
       exists others db',
         update_contact 1 Sample.body Sample.alice Sample.db
         = (Some c', db') /\
         Permutation (contacts Sample.db) (c :: others) /\
         Permutation (contacts db') (c' :: others) /\
         users db' = users Sample.db /\
         contacts_id_seq db' = contacts_id_seq Sample.db)
   /\
   ((forall c, In c (contacts Sample.db) ->
               ~ (Contact.id c = 1 /\
                  Contact.owner_id c = User.id Sample.alice)) ->
    update_contact 1 Sample.body Sample.alice Sample.db = (None, Sample.db))).
Proof.
  split; [exact sample_pk |].
  exact (update_contact_replaces_or_not_found Sample.db 1 Sample.body
           Sample.alice sample_pk).
Defined.

Lemma remove_contact_deletes_or_not_found_witness :
  contacts_pk Sample.db /\
  ((forall c,
       In c (contacts Sample.db) -> Contact.id c = 2 ->
       Contact.owner_id c = User.id Sample.bob ->
       exists l1 l2,
         contacts Sample.db = l1 ++ c :: l2 /\
         remove_contact 2 Sample.bob Sample.db
         = (Some c,
            mkSession (users Sample.db) (l1 ++ l2)
              (contacts_id_seq Sample.db)))
   /\
   ((forall c, In c (contacts Sample.db) ->
               ~ (Contact.id c = 2 /\
                  Contact.owner_id c = User.id Sample.bob)) ->
    remove_contact 2 Sample.bob Sample.db = (None, Sample.db) /\
    routes_contacts.delete_contact 2 Sample.db Sample.bob
    = (Raise (HTTPException 404 "Contact not found"), Sample.db))).
Proof.
  split; [exact sample_pk |].
  exact (remove_contact_deletes_or_not_found Sample.db 2 Sample.bob
           sample_pk).
Defined.

End OwnershipWitnesses.

(** ** Listing and creating *)

Section ListingAndCreating.
Import repository_contacts.

Lemma owned_by_spec (user : User.t) (c : Contact.t) :
  owned_by user c = true <-> Contact.owner_id c = User.id user.
Proof. unfold owned_by. apply Z.eqb_eq. Qed.

(** Creating a contact appends it to the rows of its owner and to nobody
    else's. *)
Lemma create_contact_owned (db : Session) (body : ContactModel.t)
  (user other : User.t) :
  filter (owned_by other)
         (contacts (snd (create_contact body user db)))
  = filter (owned_by other) (contacts db)
    ++ (if User.id user =? User.id other
        then [fst (create_contact body user db)] else []).
Proof.
  unfold create_contact; cbn. rewrite filter_app. cbn.
  unfold owned_by at 2. cbn. reflexivity.
Qed.

Lemma get_contacts_in_range (db : Session) (user : User.t) (skip limit : Z) :
  0 <= skip <= Sql.MAX_BIGINT -> 0 <= limit <= Sql.MAX_BIGINT ->
  get_contacts skip limit user db
  = Ok (firstn (Z.to_nat limit)
          (skipn (Z.to_nat skip) (filter (owned_by user) (contacts db)))).
Proof.
  intros Hs Hl. unfold get_contacts.
  replace (skip <? 0) with false by (symmetry; apply Z.ltb_ge; lia).
  replace (limit <? 0) with false by (symmetry; apply Z.ltb_ge; lia).
  replace (Sql.MAX_BIGINT <? skip) with false
    by (symmetry; apply Z.ltb_ge; lia).
  replace (Sql.MAX_BIGINT <? limit) with false
    by (symmetry; apply Z.ltb_ge; lia).
  reflexivity.
Qed.

Lemma get_contacts_Ok (db : Session) (user : User.t) (skip limit : Z)
  (page : list Contact.t) :
  get_contacts skip limit user db = Ok page ->
  page = firstn (Z.to_nat limit)
           (skipn (Z.to_nat skip) (filter (owned_by user) (contacts db))).
Proof.
  unfold get_contacts. destruct (_ || _); [discriminate |].
  intros H. injection H as <-. reflexivity.
Qed.

(** C10 as stated fails.  Not every [skip] and [limit] gives a page: a
    negative [skip] is refused by the server.  And the order is not the
    order of insertion: once alice has updated John (number 1), he is
    listed after Johnny (number 3). *)
Lemma get_contacts_insertion_order_counterexample :
  get_contacts (-1) 10 Sample.alice Sample.db = Raise DataError /\
  get_contacts 0 10 Sample.alice
    (snd (update_contact 1 Sample.body Sample.alice Sample.db))
  = Ok [Sample.johnny; assign Sample.john Sample.body] /\
  Contact.id (assign Sample.john Sample.body) < Contact.id Sample.johnny.
Proof. repeat split. Qed.

(** C10, amended.  For [skip] and [limit] between 0 and 2^63 - 1,
    [get_contacts] returns the rows of the user, in the order the table
    yields them to a query without ORDER BY, from position [skip] on and
    at most [limit] of them: entry [i] of the page is entry [skip + i] of
    the user's rows when [i < limit], the page has
    [min limit (owned - skip)] entries, and a contact the user creates
    afterwards comes last among the user's rows. *)
Theorem get_contacts_pages_owned_rows (db : Session) (user : User.t)
  (skip limit : Z) :
  0 <= skip <= Sql.MAX_BIGINT -> 0 <= limit <= Sql.MAX_BIGINT ->
  let owned := filter (owned_by user) (contacts db) in
  (forall c, In c owned <->
             In c (contacts db) /\ Contact.owner_id c = User.id user) /\
  exists page,
    get_contacts skip limit user db = Ok page /\
    page = firstn (Z.to_nat limit) (skipn (Z.to_nat skip) owned) /\
    (forall i : nat,
        nth_error page i =
        if Z.of_nat i <? limit
        then nth_error owned (Z.to_nat skip + i) else None) /\
    List.length page = Nat.min (Z.to_nat limit) (List.length owned - Z.to_nat skip) /\
    (forall body,
        filter (owned_by user)
               (contacts (snd (create_contact body user db)))
        = owned ++ [fst (create_contact body user db)]).
Proof.
  intros Hs Hl owned. split.
  - intros c. unfold owned. rewrite filter_In, owned_by_spec. tauto.
  - eexists. split; [apply get_contacts_in_range; assumption |].
    split; [reflexivity |].
    fold owned. repeat split.
    + intros i. rewrite nth_error_firstn, nth_error_skipn.
      destruct (Z.of_nat i <? limit) eqn:E.
      * apply Z.ltb_lt in E.
        assert (i < Z.to_nat limit)%nat as L by lia.
        apply Nat.ltb_lt in L. rewrite L. reflexivity.
      * apply Z.ltb_ge in E.
        assert (Z.to_nat limit <= i)%nat as L by lia.
        apply Nat.ltb_ge in L. rewrite L. reflexivity.
    + rewrite length_firstn, length_skipn. reflexivity.
    + intros body. rewrite create_contact_owned, Z.eqb_refl. reflexivity.
Qed.

Lemma get_contacts_pages_owned_rows_witness :
  0 <= 1 <= Sql.MAX_BIGINT /\ 0 <= 1 <= Sql.MAX_BIGINT /\
  let owned := filter (owned_by Sample.alice) (contacts Sample.db) in
  (forall c, In c owned <->
             In c (contacts Sample.db) /\
             Contact.owner_id c = User.id Sample.alice) /\
  exists page,
    get_contacts 1 1 Sample.alice Sample.db = Ok page /\
    page = firstn (Z.to_nat 1) (skipn (Z.to_nat 1) owned) /\
    (forall i : nat,
        nth_error page i =
        if Z.of_nat i <? 1
        then nth_error owned (Z.to_nat 1 + i) else None) /\
    List.length page = Nat.min (Z.to_nat 1) (List.length owned - Z.to_nat 1) /\
    (forall body,
        filter (owned_by Sample.alice)
               (contacts (snd (create_contact body Sample.alice Sample.db)))
        = owned ++ [fst (create_contact body Sample.alice Sample.db)]).
Proof.
  assert (H : 0 <= 1 <= Sql.MAX_BIGINT) by (unfold Sql.MAX_BIGINT; lia).
  split; [exact H | split; [exact H |]].
  exact (get_contacts_pages_owned_rows Sample.db Sample.alice 1 1 H H).
Defined.

Example get_contacts_sample :
  get_contacts 1 1 Sample.alice Sample.db = Ok [Sample.johnny].
Proof. reflexivity. Qed.

Lemma existing_contact_spec (db : Session) (user : User.t) (email : string) :
  first (filter (fun c => String.eqb (Contact.email c) email
                          && (Contact.owner_id c =? User.id user))
                (contacts db)) = None
  <-> ~ owns_email db user email.
Proof.
  rewrite first_filter_None. unfold owns_email. split.
  - intros H (c & Hc & He & Ho). specialize (H c Hc).
    rewrite He, Ho, String.eqb_refl, Z.eqb_refl in H. discriminate.
  - intros H c Hc.
    destruct (String.eqb (Contact.email c) email) eqn:E1; trivial.
    destruct (Contact.owner_id c =? User.id user) eqn:E2; trivial.
    apply String.eqb_eq in E1. apply Z.eqb_eq in E2.
    exfalso. apply H. exists c. auto.
Qed.

Lemma route_create_conflict (db : Session) (contact : ContactModel.t)
  (user : User.t) :
  owns_email db user (ContactModel.email contact) ->
  routes_contacts.create_contact contact db user
  = (Raise (HTTPException 400 "Contact with this email already exists."), db).
Proof.
  intros H. unfold routes_contacts.create_contact.
  destruct (first _) eqn:E; [reflexivity |].
  apply existing_contact_spec in E. contradiction.
Qed.

Lemma route_create_fresh (db : Session) (contact : ContactModel.t)
  (user : User.t) :
  ~ owns_email db user (ContactModel.email contact) ->
  routes_contacts.create_contact contact db user
  = (Ok (fst (create_contact contact user db)),
     snd (create_contact contact user db)).
Proof.
  intros H. unfold routes_contacts.create_contact.
  apply existing_contact_spec in H. rewrite H. reflexivity.
Qed.

End ListingAndCreating.

Section CreateRoute.
Import repository_contacts.

(** C8. The e-mail of a contact is unique per owner and the route is what
    enforces it: the create route answers 400 exactly when the requester
    already owns a contact with that e-mail, and then leaves the store
    alone; otherwise it inserts.  The repository function inserts whatever
    it is given.  Two different users can each create a contact with the
    same e-mail. *)
Theorem contact_email_unique_per_owner (db : Session)
  (contact : ContactModel.t) (user : User.t) :
  let e := ContactModel.email contact in
  let inserted c :=
    mkSession (users db) (contacts db ++ [c]) (contacts_id_seq db + 1) in
  (owns_email db user e <->
   fst (routes_contacts.create_contact contact db user)
   = Raise (HTTPException 400 "Contact with this email already exists."))
  /\
  (owns_email db user e ->
   snd (routes_contacts.create_contact contact db user) = db)
  /\
  (~ owns_email db user e ->
   exists c,
     routes_contacts.create_contact contact db user = (Ok c, inserted c) /\
     Contact.email c = e /\ Contact.owner_id c = User.id user)
  /\
  (exists c,
     create_contact contact user db = (c, inserted c) /\
     Contact.email c = e /\ Contact.owner_id c = User.id user)
  /\
  (forall (other : User.t) (contact' : ContactModel.t),
      User.id other <> User.id user ->
      ContactModel.email contact' = e ->
      ~ owns_email db user e ->
      ~ owns_email db other e ->
      exists c1 db1 c2 db2,
        routes_contacts.create_contact contact db user = (Ok c1, db1) /\
        routes_contacts.create_contact contact' db1 other = (Ok c2, db2) /\
        Contact.email c1 = Contact.email c2 /\
        contacts db2 = contacts db ++ [c1; c2]).
Proof.
  intros e inserted.
  assert (Fresh : ~ owns_email db user e ->
                  routes_contacts.create_contact contact db user
                  = (Ok (fst (create_contact contact user db)),
                     inserted (fst (create_contact contact user db)))).
  { intros H. rewrite (route_create_fresh db contact user H). reflexivity. }
  split; [| split; [| split; [| split]]].
  - split.
    + intros H. rewrite (route_create_conflict db contact user H). reflexivity.
    + intros H.
      destruct (existing_contact_spec db user e) as [_ D].
      unfold routes_contacts.create_contact in H. fold e in H.
      destruct (first _) eqn:E in H.
      * apply first_filter_Some in E.
        destruct E as (l1 & l2 & El & Hc & _).
        apply andb_true_iff in Hc. destruct Hc as [H1 H2].
        apply String.eqb_eq in H1. apply Z.eqb_eq in H2.
        exists t. rewrite El. auto with datatypes.
      * cbn in H. discriminate.
  - intros H. rewrite (route_create_conflict db contact user H). reflexivity.
  - intros H. eexists. split; [apply Fresh, H | split; reflexivity].
  - eexists. split; [reflexivity | split; reflexivity].
  - intros other contact' Hne He Hu Ho.
    do 4 eexists. split; [apply Fresh, Hu |].
    split; [| split].
    + apply route_create_fresh. rewrite He.
      intros (c & Hc & Hce & Hco). cbn in Hc.
      apply in_app_or in Hc. destruct Hc as [Hc | [<- | []]].
      * apply Ho. exists c. auto.
      * cbn in Hco. congruence.
    + cbn. symmetry. exact He.
    + cbn. rewrite <- app_assoc. reflexivity.
Qed.

Lemma contact_email_unique_per_owner_witness :
  let contact :=
    ContactModel.mk "Ann" "New" "new@example.com" "1"
      (PyDate.mkDate 2000 5 5) None in
  let db := Sample.db in
  let user := Sample.alice in
  let e := ContactModel.email contact in
  let inserted c :=
    mkSession (users db) (contacts db ++ [c]) (contacts_id_seq db + 1) in
  (owns_email db user e <->
   fst (routes_contacts.create_contact contact db user)
   = Raise (HTTPException 400 "Contact with this email already exists."))
  /\
  (owns_email db user e ->
   snd (routes_contacts.create_contact contact db user) = db)
  /\
  (~ owns_email db user e ->
   exists c,
     routes_contacts.create_contact contact db user = (Ok c, inserted c) /\
     Contact.email c = e /\ Contact.owner_id c = User.id user)
  /\
  (exists c,
     create_contact contact user db = (c, inserted c) /\
     Contact.email c = e /\ Contact.owner_id c = User.id user)
  /\
  (forall (other : User.t) (contact' : ContactModel.t),
      User.id other <> User.id user ->
      ContactModel.email contact' = e ->
      ~ owns_email db user e ->
      ~ owns_email db other e ->
      exists c1 db1 c2 db2,
        routes_contacts.create_contact contact db user = (Ok c1, db1) /\
        routes_contacts.create_contact contact' db1 other = (Ok c2, db2) /\
        Contact.email c1 = Contact.email c2 /\
        contacts db2 = contacts db ++ [c1; c2]).
Proof.
  exact (contact_email_unique_per_owner Sample.db
           (ContactModel.mk "Ann" "New" "new@example.com" "1"
              (PyDate.mkDate 2000 5 5) None)
           Sample.alice).
Defined.

(** Both users of the sample store add a contact with one and the same
    e-mail, and a second attempt by the first of them is refused. *)
Example same_email_two_owners :
  let contact :=
    ContactModel.mk "Ann" "New" "new@example.com" "1"
      (PyDate.mkDate 2000 5 5) None in
  let r1 := routes_contacts.create_contact contact Sample.db Sample.alice in
  let r2 := routes_contacts.create_contact contact (snd r1) Sample.bob in
  let r3 := routes_contacts.create_contact contact (snd r2) Sample.alice in
  (exists c1, fst r1 = Ok c1 /\ Contact.id c1 = 4) /\
  (exists c2, fst r2 = Ok c2 /\ Contact.id c2 = 5) /\
  r3 = (Raise (HTTPException 400 "Contact with this email already exists."),
        snd r2).
Proof.
  cbn. repeat split; eexists; split; reflexivity.
Qed.

End CreateRoute.

(** ** The refresh-token exchange *)

Section RefreshToken.
Import repository_users.

Lemma email_set_refresh_token (u : User.t) (tok : option string) :
  User.email (User.set_refresh_token u tok) = User.email u.
Proof. reflexivity. Qed.

(** Writing the token of the user found under [email] shows in the next
    lookup under [email], and nowhere else in that row. *)
Lemma get_user_after_update_token (db : Session) (email : string)
  (user : User.t) (tok : option string) :
  get_user_by_email email db = Some user ->
  get_user_by_email email (update_token user tok db)
  = Some (User.set_refresh_token user tok).
Proof.
  unfold get_user_by_email, update_token. intros H.
  apply first_filter_Some in H. destruct H as (l1 & l2 & E & Hu & Hl1).
  cbn [users with_users]. rewrite E, map_app, filter_app. cbn [map].
  rewrite Z.eqb_refl. cbn [filter]. rewrite email_set_refresh_token, Hu.
  replace (filter _ (map _ l1)) with (@nil User.t); [reflexivity |].
  symmetry. clear E. induction l1 as [| a l1 IH]; [reflexivity |].
  cbn [map filter].
  assert (Ha : String.eqb (User.email a) email = false)
    by (apply Hl1; now left).
  destruct (User.id a =? User.id user);
    rewrite ?email_set_refresh_token, Ha;
    apply IH; intros y Hy; apply Hl1; now right.
Qed.

Lemma update_token_contacts (db : Session) (user : User.t)
  (tok : option string) :
  contacts (update_token user tok db) = contacts db.
Proof. reflexivity. Qed.

Lemma stored_token_differs (user : User.t) (token : string) :
  negb (match User.refresh_token user with
        | Some stored => String.eqb stored token
        | None => false
        end) = true
  <-> User.refresh_token user <> Some token.
Proof.
  destruct (User.refresh_token user) as [s |]; cbn.
  - rewrite negb_true_iff. split.
    + intros H E. inversion E; subst. rewrite String.eqb_refl in H.
      discriminate.
    + intros H. apply String.eqb_neq. congruence.
  - split; [discriminate | reflexivity].
Qed.

(** C9. For a presented token that decodes to the e-mail of a stored
    user: when it is not the refresh token stored for that user the
    exchange fails with 401 and the stored refresh token is set to [None];
    when it is, the exchange returns a fresh access/refresh pair and the
    new refresh token is the one stored from then on. *)
Theorem refresh_token_exchange (auth_service : AuthService) (now : Z)
  (token email : string) (db : Session) (user : User.t) :
  decode_refresh_token auth_service token = Ok email ->
  get_user_by_email email db = Some user ->
  (User.refresh_token user <> Some token ->
   exists db',
     routes_users.refresh_token auth_service now token db
     = (Raise (HTTPException 401 "Invalid refresh token"), db') /\
     contacts db' = contacts db /\
     exists user',
       get_user_by_email email db' = Some user' /\
       User.refresh_token user' = None /\
       user' = User.set_refresh_token user None)
  /\
  (User.refresh_token user = Some token ->
   let access := create_access_token auth_service email now in
   let refresh := create_refresh_token auth_service email now in
   exists db',
     routes_users.refresh_token auth_service now token db
     = (Ok (mkTokenModel access refresh "bearer"), db') /\
     contacts db' = contacts db /\
     exists user',
       get_user_by_email email db' = Some user' /\
       User.refresh_token user' = Some refresh /\
       user' = User.set_refresh_token user (Some refresh)).
Proof.
  intros Hd Hu. unfold routes_users.refresh_token. rewrite Hd, Hu. split.
  - intros Hne. apply stored_token_differs in Hne. rewrite Hne.
    eexists. split; [reflexivity |]. split; [reflexivity |].
    eexists. split; [apply get_user_after_update_token, Hu |].
    split; reflexivity.
  - intros He. cbv zeta.
    assert (N : negb (match User.refresh_token user with
                      | Some stored => String.eqb stored token
                      | None => false
                      end) = false).
    { rewrite He, String.eqb_refl. reflexivity. }
    rewrite N.
    eexists. split; [reflexivity |]. split; [reflexivity |].
    eexists. split; [apply get_user_after_update_token, Hu |].
    split; reflexivity.
Qed.

Lemma refresh_token_exchange_witness :
  decode_refresh_token Sample.auth "rt-bob" = Ok "bob@example.com"%string /\
  get_user_by_email "bob@example.com" Sample.db = Some Sample.bob /\
  (User.refresh_token Sample.bob <> Some "rt-bob"%string ->
   exists db',
     routes_users.refresh_token Sample.auth 0 "rt-bob" Sample.db
     = (Raise (HTTPException 401 "Invalid refresh token"), db') /\
     contacts db' = contacts Sample.db /\
     exists user',
       get_user_by_email "bob@example.com" db' = Some user' /\
       User.refresh_token user' = None /\
       user' = User.set_refresh_token Sample.bob None)
  /\
  (User.refresh_token Sample.bob = Some "rt-bob"%string ->
   let access := create_access_token Sample.auth "bob@example.com" 0 in
   let refresh := create_refresh_token Sample.auth "bob@example.com" 0 in
   exists db',
     routes_users.refresh_token Sample.auth 0 "rt-bob" Sample.db
     = (Ok (mkTokenModel access refresh "bearer"), db') /\
     contacts db' = contacts Sample.db /\
     exists user',
       get_user_by_email "bob@example.com" db' = Some user' /\
       User.refresh_token user' = Some refresh /\
       user' = User.set_refresh_token Sample.bob (Some refresh)).
Proof.
  assert (H1 : decode_refresh_token Sample.auth "rt-bob"
               = Ok "bob@example.com"%string) by reflexivity.
  assert (H2 : get_user_by_email "bob@example.com" Sample.db
               = Some Sample.bob) by reflexivity.
  split; [exact H1 | split; [exact H2 |]].
  exact (refresh_token_exchange Sample.auth 0 "rt-bob" "bob@example.com"
           Sample.db Sample.bob H1 H2).
Defined.

(** A stale token costs alice her stored refresh token; her current one is
    exchanged for a new pair. *)
Example refresh_token_sample :
  routes_users.refresh_token Sample.auth 0 "rt-alice" Sample.db
  = (Ok (mkTokenModel "at:alice@example.com" "rt2:alice@example.com" "bearer"),
     mkSession
       [User.set_refresh_token Sample.alice (Some "rt2:alice@example.com"%string);
        Sample.bob]
       (contacts Sample.db) 4)
  /\
  routes_users.refresh_token Sample.auth 0 "rt-bob" Sample.db
  = (Raise (HTTPException 401 "Invalid refresh token"),
     mkSession [Sample.alice; User.set_refresh_token Sample.bob None]
       (contacts Sample.db) 4).
Proof. split; reflexivity. Qed.

End RefreshToken.

(** ** The birthday query *)

Section Comprehension.
Context {A : Type} (cond : A -> result bool).

Lemma filterM_Ok (l r : list A) :
  filterM cond l = Ok r ->
  r = filter (kept cond) l /\ forall x, In x l -> exists b, cond x = Ok b.
Proof.
  revert r. induction l as [| a l IH]; cbn; intros r H.
  - inversion H; subst. split; [reflexivity | intros x []].
  - unfold kept at 1.
    destruct (cond a) as [b |] eqn:Ea; cbn in H; [| discriminate].
    destruct (filterM cond l) as [r' |] eqn:El; cbn in H; [| discriminate].
    inversion H; subst; clear H.
    destruct (IH r' eq_refl) as [-> Hall]. split.
    + destruct b; reflexivity.
    + intros x [<- | Hx]; eauto.
Qed.

Lemma filterM_total (l : list A) :
  (forall x, In x l -> exists b, cond x = Ok b) ->
  exists r, filterM cond l = Ok r.
Proof.
  induction l as [| a l IH]; cbn; intros H; eauto.
  destruct (H a (or_introl eq_refl)) as [b ->]. cbn.
  destruct IH as [r ->]; [intros x Hx; apply H; now right |].
  cbn. eauto.
Qed.

Lemma filterM_Raise (l : list A) (e : exn) :
  filterM cond l = Raise e -> exists x, In x l /\ cond x = Raise e.
Proof.
  induction l as [| a l IH]; cbn; [discriminate |].
  destruct (cond a) as [b |] eqn:Ea; cbn.
  - destruct (filterM cond l) as [r |]; cbn; [discriminate |].
    intros H; inversion H; subst.
    destruct (IH eq_refl) as (x & Hx & Hc). eauto.
  - intros H; inversion H; subst. eauto.
Qed.

Lemma filterM_raises (l : list A) (x : A) (e : exn) :
  In x l -> cond x = Raise e -> exists e', filterM cond l = Raise e'.
Proof.
  intros Hx Hc. destruct (filterM cond l) as [r |] eqn:E; eauto.
  destruct (filterM_Ok l r E) as [_ Hall].
  destruct (Hall x Hx) as [b Hb]. congruence.
Qed.

End Comprehension.

Section BirthdayQuery.
Import PyDate PyDateFacts repository_contacts.

Lemma probe_Ok_true (today : date) (y : Z) (c : Contact.t) :
  probe today y c = Ok true <->
  let p := mkDate y (month (Contact.birth_date c)) (day (Contact.birth_date c)) in
  valid p = true /\ 0 <= toordinal p - toordinal today < 7.
Proof.
  unfold probe, make, valid, days_between, in_range. cbn.
  destruct (check_date_fields y _ _); cbn.
  - split.
    + intros H. injection H as H'.
      apply andb_true_iff in H'. destruct H' as [H1 H2].
      apply Z.leb_le in H1. apply Z.ltb_lt in H2.
      split; [reflexivity | lia].
    + intros [_ [H1 H2]].
      apply Z.leb_le in H1. apply Z.ltb_lt in H2.
      rewrite H1, H2. reflexivity.
  - split; [discriminate | intros [H _]; discriminate].
Qed.

Lemma probe_in_window_spec (today : date) (y : Z) (c : Contact.t) :
  probe today y c = Ok true <->
  probe_date_in_window today y (Contact.birth_date c).
Proof.
  rewrite probe_Ok_true. cbn zeta.
  unfold probe_date_in_window, make, valid, days_between. cbn [year month day].
  split.
  - intros [V H]. rewrite V. eauto.
  - intros (p & Hp & H).
    destruct (check_date_fields y _ _); [| discriminate].
    inversion Hp; subst. auto.
Qed.

Lemma probe_Raise (today : date) (y : Z) (c : Contact.t) (e : exn) :
  probe today y c = Raise e -> e = ValueError.
Proof.
  unfold probe, make. destruct (check_date_fields y _ _); cbn; congruence.
Qed.

Lemma probes_Raise (today : date) (c : Contact.t) (e : exn) :
  probes today c = Raise e -> e = ValueError.
Proof.
  unfold probes, or_else.
  destruct (probe today (year today) c) as [[|] |] eqn:E1; cbn.
  - discriminate.
  - apply probe_Raise.
  - intros H; inversion H; subst. apply (probe_Raise _ _ _ _ E1).
Qed.

(** A contact one of whose probes succeeds has passed the WHERE clause:
    the query in front of the comprehension loses nobody. *)
Lemma clause_of_probe (today s nm : date) (user : User.t) (c : Contact.t)
  (y : Z) :
  valid today = true ->
  add_days today 7 = Ok s ->
  replace_month today (month today mod 12 + 1) = Ok nm ->
  Contact.owner_id c = User.id user ->
  probe today y c = Ok true ->
  birthday_clause today nm s user c = true.
Proof.
  intros Vt Hs Hnm Ho Hp.
  apply probe_Ok_true in Hp. cbn zeta in Hp. destruct Hp as [Vp Hk].
  destruct (add_days_spec 7 today s Vt Hs) as [Vs Os].
  apply make_Ok in Hnm. destruct Hnm as [-> _].
  pose proof (toordinal_close today _ _ Vt Vp
                (eq_sym (Zplus_minus _ _)) ltac:(lia)) as Cp.
  pose proof (toordinal_close today s 7 Vt Vs Os ltac:(lia)) as Cs.
  apply valid_spec in Vt, Vp, Vs. cbn in Vp, Cp.
  pose proof (days_in_month_bounds (year today) (month today)
                ltac:(lia)) as Dm.
  unfold birthday_clause. cbn [month day].
  rewrite Ho, Z.eqb_refl. cbn [andb].
  apply orb_true_iff.
  destruct Cp as [(_ & Em & Ed) | [(_ & Lm & Em & Ed) | (_ & E12 & Em & Ed)]].
  - left. rewrite !andb_true_iff, Z.eqb_eq, Z.leb_le, Z.ltb_lt. lia.
  - right. rewrite andb_true_iff, Z.eqb_eq, Z.leb_le.
    rewrite Z.mod_small by lia.
    destruct Cs as [(_ & Em' & Ed') | [(_ & _ & _ & Ed') | (_ & ? & _)]];
      lia.
  - right. rewrite andb_true_iff, Z.eqb_eq, Z.leb_le.
    rewrite E12 in *. cbn in Dm |- *.
    destruct Cs as [(_ & Em' & Ed') | [(_ & ? & _) | (_ & _ & _ & Ed')]];
      lia.
Qed.

Lemma get_upcoming_birthdays_Ok (today : date) (user : User.t)
  (db : Session) (l : list Contact.t) :
  get_upcoming_birthdays today user db = Ok l ->
  exists s nm,
    add_days today 7 = Ok s /\
    replace_month today (month today mod 12 + 1) = Ok nm /\
    filterM (probes today)
      (filter (birthday_clause today nm s user) (contacts db)) = Ok l.
Proof.
  unfold get_upcoming_birthdays.
  destruct (add_days today 7) as [s |]; cbn [bind]; [| discriminate].
  destruct (replace_month today _) as [nm |]; cbn [bind]; [| discriminate].
  eauto.
Qed.

Lemma birthday_clause_owner (today nm s : date) (user : User.t)
  (c : Contact.t) :
  birthday_clause today nm s user c = true ->
  Contact.owner_id c = User.id user.
Proof.
  unfold birthday_clause. intros H. apply andb_true_iff in H.
  destruct H as [H _]. now apply Z.eqb_eq.
Qed.

(** Whenever the query produces a list, that list holds exactly the
    contacts of the user one of whose two probes succeeds. *)
Lemma get_upcoming_birthdays_members (today : date) (user : User.t)
  (db : Session) (l : list Contact.t) :
  valid today = true ->
  get_upcoming_birthdays today user db = Ok l ->
  forall c,
    In c l <->
    In c (contacts db) /\ Contact.owner_id c = User.id user /\
    (probe today (year today) c = Ok true \/
     probe today (year today + 1) c = Ok true).
Proof.
  intros Vt H c.
  destruct (get_upcoming_birthdays_Ok _ _ _ _ H) as (s & nm & Hs & Hnm & HF).
  destruct (filterM_Ok _ _ _ HF) as [-> Hall].
  rewrite filter_In, filter_In. unfold kept, probes, or_else. split.
  - intros [[Hin Hc] Hk]. split; [assumption |].
    split; [apply (birthday_clause_owner _ _ _ _ _ Hc) |].
    destruct (probe today (year today) c) as [[|] |]; cbn in Hk; auto.
    + destruct (probe today (year today + 1) c) as [[|] |]; auto;
        discriminate.
    + discriminate.
  - intros (Hin & Ho & Hp).
    assert (Hc : birthday_clause today nm s user c = true).
    { destruct Hp as [Hp | Hp];
        apply (clause_of_probe today s nm user c _ Vt Hs Hnm Ho Hp). }
    split; [split; assumption |].
    destruct (Hall c) as [b Hb]; [apply filter_In; split; assumption |].
    unfold probes, or_else in Hb.
    destruct (probe today (year today) c) as [[|] |]; cbn in Hb |- *;
      trivial.
    + destruct Hp as [Hp | Hp]; [discriminate |]. rewrite Hp. reflexivity.
    + discriminate.
Qed.

(** The next-month operand of the query cannot be built on a day that the
    following month does not have. *)
Lemma next_month_probe_raises (today : date) (user : User.t) (db : Session) :
  valid today = true -> year today < 9999 ->
  days_in_month (year today) (month today mod 12 + 1) < day today ->
  get_upcoming_birthdays today user db = Raise ValueError.
Proof.
  intros Vt Hy Hd. unfold get_upcoming_birthdays.
  destruct (add_days_total 7 today Vt Hy) as [s ->]; [lia |]. cbn [bind].
  unfold replace_month, make, check_date_fields.
  apply Z.leb_gt in Hd. rewrite Hd, !andb_false_r. reflexivity.
Qed.

(** In December the operands exist and every selected contact can be
    probed in both years, so the query returns. *)
Lemma december_total (today : date) (user : User.t) (db : Session) :
  valid today = true -> year today < 9999 -> month today = 12 ->
  dates_valid db ->
  exists l, get_upcoming_birthdays today user db = Ok l.
Proof.
  intros Vt Hy Hm Hdb. unfold get_upcoming_birthdays.
  destruct (add_days_total 7 today Vt Hy) as [s Hs]; [lia |].
  rewrite Hs. cbn [bind].
  destruct (add_days_spec 7 today s Vt Hs) as [Vs _].
  assert (Hnm : replace_month today (month today mod 12 + 1)
                = Ok (mkDate (year today) 1 (day today))).
  { unfold replace_month, make. rewrite Hm. cbn.
    replace (check_date_fields (year today) 1 (day today)) with true;
      [reflexivity |].
    symmetry. apply valid_spec in Vt. rewrite Hm in Vt. cbn in Vt.
    apply (proj2 (valid_spec (mkDate (year today) 1 (day today)))).
    cbn. lia. }
  rewrite Hnm. cbn [bind].
  apply filterM_total. intros c Hc. apply filter_In in Hc.
  destruct Hc as [Hin Hc].
  unfold dates_valid in Hdb. rewrite Forall_forall in Hdb.
  specialize (Hdb c Hin). apply valid_spec in Hdb.
  unfold birthday_clause in Hc. cbn [month] in Hc. rewrite Hm in Hc.
  apply andb_true_iff in Hc. destruct Hc as [_ Hc].
  assert (Hb : month (Contact.birth_date c) = 12 \/
               month (Contact.birth_date c) = 1).
  { apply orb_true_iff in Hc. destruct Hc as [Hc | Hc].
    - rewrite !andb_true_iff, Z.eqb_eq in Hc. tauto.
    - rewrite andb_true_iff, Z.eqb_eq in Hc. tauto. }
  assert (G : forall y, 1 <= y <= 9999 ->
                exists b, probe today y c = Ok b).
  { intros y Hy'. unfold probe, make.
    replace (check_date_fields y _ _) with true; [cbn; eauto |].
    symmetry.
    apply (proj2 (valid_spec (mkDate y (month (Contact.birth_date c))
                                       (day (Contact.birth_date c))))).
    cbn. destruct Hb as [Hb | Hb]; rewrite Hb in *; cbn in *; lia. }
  apply valid_spec in Vt.
  unfold probes, or_else.
  destruct (G (year today)) as [b1 ->]; [lia |]. cbn [bind].
  destruct b1; eauto.
  destruct (G (year today + 1)) as [b2 ->]; [lia |]. eauto.
Qed.

Lemma probes_Ok_true (today : date) (c : Contact.t) :
  probes today c = Ok true ->
  probe today (year today) c = Ok true \/
  probe today (year today + 1) c = Ok true.
Proof.
  unfold probes, or_else.
  destruct (probe today (year today) c) as [[|] |]; cbn; auto;
    discriminate.
Qed.

Lemma probes_Ok_of_probe (today : date) (c : Contact.t) (b : bool) :
  probes today c = Ok b ->
  probe today (year today) c = Ok true \/
  probe today (year today + 1) c = Ok true ->
  b = true.
Proof.
  unfold probes, or_else.
  destruct (probe today (year today) c) as [[|] |]; cbn.
  - congruence.
  - intros H [H' | H']; congruence.
  - discriminate.
Qed.

Lemma add_days_plus (a b : nat) (t : date) :
  add_days t (a + b) = (t' <- add_days t a ;; add_days t' b).
Proof.
  revert t. induction a as [| a IH]; intros t; cbn; [reflexivity |].
  destruct (next_day t) as [t1 |]; cbn; [apply IH | reflexivity].
Qed.

Lemma add_days_le (n k : nat) (t s : date) :
  add_days t n = Ok s -> (k <= n)%nat -> exists t', add_days t k = Ok t'.
Proof.
  intros H Hk. replace n with (k + (n - k))%nat in H by lia.
  rewrite add_days_plus in H.
  destruct (add_days t k) as [t' |]; [eauto | discriminate].
Qed.

(** The window, told by the days after [today], is the window told by the
    two probes. *)
Lemma window_iff_probe (today s : date) (c : Contact.t) :
  valid today = true -> add_days today 7 = Ok s ->
  in_birthday_window today (Contact.birth_date c) = true <->
  probe today (year today) c = Ok true \/
  probe today (year today + 1) c = Ok true.
Proof.
  intros Vt Hs. unfold in_birthday_window. rewrite existsb_exists. split.
  - intros (k & Hk & Hb). apply in_seq in Hk. unfold birthday_on in Hb.
    destruct (add_days today k) as [t |] eqn:Et; [| discriminate].
    apply andb_true_iff in Hb. destruct Hb as [Hm Hd].
    apply Z.eqb_eq in Hm, Hd.
    destruct (add_days_spec k today t Vt Et) as [Vk Ot].
    pose proof (toordinal_close today t _ Vt Vk Ot ltac:(lia)) as Cl.
    assert (P : forall y, year t = y -> probe today y c = Ok true).
    { intros y <-. apply probe_Ok_true. cbn zeta.
      rewrite <- Hm, <- Hd. destruct t as [ty tm td]. cbn [year month day].
      split; [assumption | lia]. }
    destruct Cl as [(Ey & _) | [(Ey & _) | (Ey & _)]]; auto.
  - intros Hp.
    assert (exists y,
              valid (mkDate y (month (Contact.birth_date c))
                              (day (Contact.birth_date c))) = true /\
              0 <= toordinal (mkDate y (month (Contact.birth_date c))
                                       (day (Contact.birth_date c)))
                   - toordinal today < 7) as (y & Vp & Hk).
    { destruct Hp as [Hp | Hp]; apply probe_Ok_true in Hp; eauto. }
    set (p := mkDate y _ _) in *.
    set (k := Z.to_nat (toordinal p - toordinal today)).
    exists k. split; [apply in_seq; lia |].
    destruct (add_days_le 7 k today s Hs ltac:(lia)) as [t Et].
    destruct (add_days_spec k today t Vt Et) as [Vk Ot].
    assert (t = p) by (apply toordinal_inj; trivial; lia). subst t.
    unfold birthday_on. rewrite Et. unfold p. cbn [month day].
    rewrite !Z.eqb_refl. reflexivity.
Qed.

Lemma filter_filter_ext {A : Type} (f g h : A -> bool) (l : list A) :
  (forall x, In x l -> f x && g x = h x) ->
  filter g (filter f l) = filter h l.
Proof.
  induction l as [| a l IH]; intros H; cbn; [reflexivity |].
  rewrite <- (H a (or_introl eq_refl)).
  rewrite <- IH by (intros x Hx; apply H; now right).
  destruct (f a); cbn; [destruct (g a) |]; reflexivity.
Qed.

(** Whenever the query produces a list, it is, in table order, the list of
    the user's contacts whose month and day fall in
    [[today, today + 7 days)]. *)
Lemma get_upcoming_birthdays_window (today : date) (user : User.t)
  (db : Session) (l : list Contact.t) :
  valid today = true ->
  get_upcoming_birthdays today user db = Ok l ->
  l = filter (fun c => owned_by user c
                       && in_birthday_window today (Contact.birth_date c))
             (contacts db).
Proof.
  intros Vt H.
  destruct (get_upcoming_birthdays_Ok _ _ _ _ H) as (s & nm & Hs & Hnm & HF).
  destruct (filterM_Ok _ _ _ HF) as [-> Hall].
  apply filter_filter_ext. intros c Hin.
  apply eq_true_iff_eq. rewrite !andb_true_iff, owned_by_spec.
  rewrite (window_iff_probe today s c Vt Hs). split.
  - intros [Hc Hk]. split; [apply (birthday_clause_owner _ _ _ _ _ Hc) |].
    apply probes_Ok_true. unfold kept in Hk.
    destruct (probes today c) as [[|] |]; trivial; discriminate.
  - intros [Ho Hp].
    assert (Hc : birthday_clause today nm s user c = true).
    { destruct Hp as [Hp | Hp];
        apply (clause_of_probe today s nm user c _ Vt Hs Hnm Ho Hp). }
    split; [assumption |].
    destruct (Hall c) as [b Hb]; [apply filter_In; split; assumption |].
    unfold kept. rewrite Hb. apply (probes_Ok_of_probe today c b Hb Hp).
Qed.

End BirthdayQuery.

Section BirthdayClaims.
Import PyDate PyDateFacts repository_contacts.

(** C3. The two probes carry the query over the end of the year.  In
    December the query always produces a list; a contact of the store is on
    it exactly when the user owns it and its birthday, built in the current
    year or in the next one, is 0 to 6 days after today; and on a
    December 30 the list holds every contact of the user with a January 2
    birthday, whatever the year of birth.  In any other month the same
    equivalence holds of every list the query produces. *)
Theorem birthday_probes_handle_year_end (today : date) (user : User.t)
  (db : Session) :
  valid today = true ->
  year today < 9999 ->
  dates_valid db ->
  let accepted c :=
    In c (contacts db) /\ Contact.owner_id c = User.id user /\
    (probe_date_in_window today (year today) (Contact.birth_date c) \/
     probe_date_in_window today (year today + 1) (Contact.birth_date c)) in
  (month today = 12 ->
   exists l,
     get_upcoming_birthdays today user db = Ok l /\
     (forall c, In c l <-> accepted c) /\
     (day today = 30 ->
      forall c,
        In c (contacts db) -> Contact.owner_id c = User.id user ->
        month (Contact.birth_date c) = 1 ->
        day (Contact.birth_date c) = 2 ->
        In c l))
  /\
  (forall l,
      get_upcoming_birthdays today user db = Ok l ->
      forall c, In c l <-> accepted c).
Proof.
  intros Vt Hy Hdb accepted.
  assert (M : forall l,
             get_upcoming_birthdays today user db = Ok l ->
             forall c, In c l <-> accepted c).
  { intros l Hl c. unfold accepted.
    rewrite <- !probe_in_window_spec.
    apply get_upcoming_birthdays_members; assumption. }
  split; [| exact M].
  intros Hm.
  destruct (december_total today user db Vt Hy Hm Hdb) as [l Hl].
  exists l. split; [assumption | split; [exact (M l Hl) |]].
  intros Hd c Hin Ho Hbm Hbd.
  apply (M l Hl).
  split; [assumption | split; [assumption |]].
  right. apply probe_in_window_spec, probe_Ok_true. cbn zeta.
  rewrite Hbm, Hbd. split.
  - apply valid_spec in Vt. apply valid_spec. cbn. lia.
  - unfold toordinal. cbn [year month day].
    rewrite Hm, Hd, days_before_year_succ, days_before_month_first.
    pose proof (days_before_month_december (year today)).
    destruct (is_leap (year today)); lia.
Qed.

Lemma sample_dates_valid : dates_valid Sample.db.
Proof. unfold dates_valid; cbn. repeat constructor. Defined.

Lemma birthday_probes_handle_year_end_witness :
  let today := mkDate 2023 12 30 in
  let user := Sample.alice in
  let db := Sample.db in
  valid today = true /\
  year today < 9999 /\
  dates_valid db /\
  let accepted c :=
    In c (contacts db) /\ Contact.owner_id c = User.id user /\
    (probe_date_in_window today (year today) (Contact.birth_date c) \/
     probe_date_in_window today (year today + 1) (Contact.birth_date c)) in
  (month today = 12 ->
   exists l,
     get_upcoming_birthdays today user db = Ok l /\
     (forall c, In c l <-> accepted c) /\
     (day today = 30 ->
      forall c,
        In c (contacts db) -> Contact.owner_id c = User.id user ->
        month (Contact.birth_date c) = 1 ->
        day (Contact.birth_date c) = 2 ->
        In c l))
  /\
  (forall l,
      get_upcoming_birthdays today user db = Ok l ->
      forall c, In c l <-> accepted c).
Proof.
  cbv zeta.
  assert (V : valid (mkDate 2023 12 30) = true) by reflexivity.
  assert (Y : year (mkDate 2023 12 30) < 9999) by (cbn; lia).
  split; [exact V | split; [exact Y | split; [exact sample_dates_valid |]]].
  exact (birthday_probes_handle_year_end (mkDate 2023 12 30) Sample.alice
           Sample.db V Y sample_dates_valid).
Defined.

(** On 2023-12-30 alice is shown John (January 2) and Johnny (December 31);
    on 2023-12-26 John is exactly seven days out and not shown. *)
Example year_end_sample :
  get_upcoming_birthdays (mkDate 2023 12 30) Sample.alice Sample.db
  = Ok [Sample.john; Sample.johnny]
  /\
  get_upcoming_birthdays (mkDate 2023 12 26) Sample.alice Sample.db
  = Ok [Sample.johnny].
Proof. split; reflexivity. Qed.

(** C4. The query is not total in [today]: on a January 31 and on a
    March 31 the next-month operand [today.replace(month=...)] raises for
    every user and every store, and on 2023-02-23 the probe of a stored
    February 29 birthday raises. *)
Theorem get_upcoming_birthdays_raises :
  (forall user db,
      get_upcoming_birthdays (mkDate 2023 1 31) user db = Raise ValueError) /\
  (forall user db,
      get_upcoming_birthdays (mkDate 2024 3 31) user db = Raise ValueError) /\
  valid (Contact.birth_date Sample.leapling) = true /\
  get_upcoming_birthdays (mkDate 2023 2 23) Sample.alice Sample.db_leap
  = Raise ValueError.
Proof.
  split; [| split; [| split]]; try reflexivity;
    intros user db; apply next_month_probe_raises;
    try reflexivity; cbn; lia.
Qed.

(** C2. On 2023-01-31 bob owns a contact whose birthday is that very day,
    inside the window, and the query raises instead of returning it. *)
Theorem birthday_today_not_returned :
  In Sample.jane (contacts Sample.db) /\
  Contact.owner_id Sample.jane = User.id Sample.bob /\
  month (Contact.birth_date Sample.jane) = 1 /\
  day (Contact.birth_date Sample.jane) = 31 /\
  in_birthday_window (mkDate 2023 1 31) (Contact.birth_date Sample.jane)
  = true /\
  get_upcoming_birthdays (mkDate 2023 1 31) Sample.bob Sample.db
  = Raise ValueError.
Proof.
  repeat split; try reflexivity. cbn. auto.
Qed.

(** The scenarios of the specification, for a user with one contact. *)
Example window_scenarios :
  let born y m d := Contact.mk 7 "A" "B" "a@b.c" "1" (mkDate y m d) None 1 in
  let only c := mkSession [Sample.alice] [c] 8 in
  let shown today c :=
    get_upcoming_birthdays today Sample.alice (only c) in
  shown (mkDate 2024 6 1) (born 1990 6 5) = Ok [born 1990 6 5] /\
  shown (mkDate 2024 6 1) (born 1990 6 9) = Ok [] /\
  shown (mkDate 2024 6 1) (born 1990 6 1) = Ok [born 1990 6 1] /\
  shown (mkDate 2024 6 1) (born 1990 6 8) = Ok [] /\
  shown (mkDate 2024 12 25) (born 1990 12 28) = Ok [born 1990 12 28] /\
  shown (mkDate 2024 12 28) (born 1990 12 31) = Ok [born 1990 12 31].
Proof. cbv zeta. repeat split; reflexivity. Qed.

End BirthdayClaims.

(** ** Searching *)

Section Patterns.
Import Sql.
Local Open Scope string_scope.

Lemma lower_append (a b : string) : lower (a ++ b) = lower a ++ lower b.
Proof. induction a as [| c a IH]; cbn; [reflexivity | now rewrite IH]. Qed.

Lemma lower_ascii_special (c : ascii) :
  special (lower_ascii c) = special c.
Proof. destruct c as [[] [] [] [] [] [] [] []]; reflexivity. Qed.

Lemma plain_cons (c : ascii) (s : string) :
  plain (String c s) = negb (special c) && plain s.
Proof. reflexivity. Qed.

Lemma plain_lower (s : string) : plain (lower s) = plain s.
Proof.
  induction s as [| c s IH]; [reflexivity |].
  cbn [lower]. rewrite !plain_cons, lower_ascii_special, IH. reflexivity.
Qed.

Lemma like_percent (p t : string) :
  like (String "%" p) t
  = like p t ||
    match t with
    | EmptyString => false
    | String _ t' => like (String "%" p) t'
    end.
Proof. destruct t; reflexivity. Qed.

Lemma like_plain_char (c : ascii) (p t : string) :
  special c = false ->
  like (String c p) t
  = match t with
    | EmptyString => false
    | String a t' => Ascii.eqb c a && like p t'
    end.
Proof.
  unfold special. intros H.
  apply orb_false_iff in H. destruct H as [H H3].
  apply orb_false_iff in H. destruct H as [H1 H2].
  cbn [like]. rewrite H1, H2, H3. reflexivity.
Qed.

Lemma like_any (t : string) : like "%" t = true.
Proof.
  induction t as [| a t IH]; rewrite like_percent; [reflexivity |].
  rewrite IH. apply orb_true_r.
Qed.

Lemma prefix_cons (c a : ascii) (f t : string) :
  String.prefix (String c f) (String a t) = Ascii.eqb c a && String.prefix f t.
Proof.
  cbn. destruct (ascii_dec c a) as [-> | N].
  - rewrite Ascii.eqb_refl. reflexivity.
  - apply Ascii.eqb_neq in N. rewrite N. reflexivity.
Qed.

Lemma like_plain_prefix (f t : string) :
  plain f = true -> like (f ++ "%") t = String.prefix f t.
Proof.
  revert t. induction f as [| c f IH]; intros t H.
  - cbn [append]. rewrite like_any. destruct t; reflexivity.
  - rewrite plain_cons in H. apply andb_true_iff in H. destruct H as [Hc Hf].
    apply negb_true_iff in Hc.
    cbn [append]. rewrite (like_plain_char c _ t Hc).
    destruct t as [| a t]; [reflexivity |].
    rewrite prefix_cons, IH by assumption. reflexivity.
Qed.

(** Between two [%], a value without pattern characters is looked for as
    a substring. *)
Lemma like_plain_contains (f t : string) :
  plain f = true -> like ("%" ++ f ++ "%") t = contains f t.
Proof.
  intros H. cbn [append].
  induction t as [| a t IH]; rewrite like_percent, like_plain_prefix by
      assumption; cbn [contains]; [reflexivity |].
  rewrite IH. reflexivity.
Qed.

Lemma ilike_plain (v column : string) :
  plain v = true -> ilike column ("%" ++ v ++ "%") = icontains v column.
Proof.
  intros H. unfold ilike, icontains.
  rewrite !lower_append. change (lower "%") with "%".
  apply like_plain_contains. rewrite plain_lower. exact H.
Qed.

Lemma prefix_spec (n h : string) :
  String.prefix n h = true <-> exists b, h = n ++ b.
Proof.
  revert h. induction n as [| c n IH]; intros h.
  - split; [intros _; exists h; reflexivity | destruct h; reflexivity].
  - destruct h as [| a h].
    + split; [discriminate | intros [b Hb]; discriminate].
    + rewrite prefix_cons, andb_true_iff, Ascii.eqb_eq, IH. split.
      * intros [-> [b ->]]. exists b. reflexivity.
      * intros [b Hb]. cbn in Hb. inversion Hb; subst. eauto.
Qed.

(** [contains] is the substring relation. *)
Lemma contains_spec (n h : string) :
  contains n h = true <-> exists a b, h = a ++ n ++ b.
Proof.
  induction h as [| c h IH]; cbn [contains];
    rewrite orb_true_iff, prefix_spec.
  - split.
    + intros [[b Hb] | H]; [exists "", b; exact Hb | discriminate].
    + intros (a & b & H). left. destruct a; [eauto | discriminate].
  - rewrite IH. split.
    + intros [[b Hb] | (a & b & ->)].
      * exists "", b. exact Hb.
      * exists (String c a), b. reflexivity.
    + intros (a & b & H). destruct a as [| c' a].
      * left. eauto.
      * right. cbn in H. inversion H; subst. eauto.
Qed.

End Patterns.

Section SearchClaims.
Import repository_contacts.

Lemma ilike_filter_spec (column : Contact.t -> string)
  (value : option string) (query : list Contact.t) :
  ilike_filter column value query
  = filter (fun c => pattern_filter value (column c)) query.
Proof.
  unfold ilike_filter, pattern_filter.
  destruct value as [v |]; [destruct (truthy (Some v)) |];
    trivial; symmetry; apply filter_all; trivial.
Qed.

Lemma filter_filter {A : Type} (f g : A -> bool) (l : list A) :
  filter g (filter f l) = filter (fun x => f x && g x) l.
Proof. apply filter_filter_ext. reflexivity. Qed.

Lemma search_contact_spec (first_name last_name email : option string)
  (user : User.t) (db : Session) :
  search_contact first_name last_name email user db
  = filter (fun c =>
              owned_by user c
              && pattern_filter first_name (Contact.first_name c)
              && pattern_filter last_name (Contact.last_name c)
              && pattern_filter email (Contact.email c))
           (contacts db).
Proof.
  unfold search_contact. rewrite !ilike_filter_spec, !filter_filter.
  apply filter_ext. intros c. rewrite !andb_assoc. reflexivity.
Qed.

Lemma pattern_filter_plain (value : option string) (column : string) :
  (forall v, value = Some v -> plain v = true) ->
  pattern_filter value column = substring_filter value column.
Proof.
  intros H. unfold pattern_filter, substring_filter.
  destruct value as [v |]; [| reflexivity].
  destruct (truthy (Some v)); [| reflexivity].
  apply ilike_plain. apply H. reflexivity.
Qed.

(** C7. The filter is not searched for as a substring: spliced unescaped
    between two [%], its [_] and [%] act as wildcards.  For alice, the
    first-name filter [j_hn] returns John and Johnny, and the e-mail
    filter [%] returns both as well, although neither filter occurs, with
    or without regard to case, in the names and addresses returned. *)
Theorem search_contact_wildcards_not_substrings :
  search_contact (Some "j_hn"%string) None None Sample.alice Sample.db
  = [Sample.john; Sample.johnny] /\
  Contact.first_name Sample.john = "John"%string /\
  Contact.first_name Sample.johnny = "Johnny"%string /\
  icontains "j_hn" (Contact.first_name Sample.john) = false /\
  icontains "j_hn" (Contact.first_name Sample.johnny) = false /\
  search_contact None None (Some "%"%string) Sample.alice Sample.db
  = [Sample.john; Sample.johnny] /\
  icontains "%" (Contact.email Sample.john) = false /\
  icontains "%" (Contact.email Sample.johnny) = false.
Proof. repeat split. Qed.

Example search_contact_samples :
  search_contact (Some "JOHN"%string) (Some ""%string) None
    Sample.alice Sample.db = [Sample.john; Sample.johnny] /\
  search_contact (Some "john"%string) (Some "SMI"%string) None
    Sample.alice Sample.db = [Sample.johnny] /\
  search_contact None None None Sample.bob Sample.db = [Sample.jane] /\
  search_contact (Some "%"%string) None None Sample.alice Sample.db
  = [Sample.john; Sample.johnny] /\
  search_contact None None (Some "john_doe"%string) Sample.alice Sample.db
  = [Sample.john].
Proof. repeat split; reflexivity. Qed.

End SearchClaims.

(** * Further properties of the modelled code *)

(** ** Contacts: writes followed by lookups *)

Section ContactRoundTrips.
Import repository_contacts.

Lemma first_filter_app {A : Type} (f : A -> bool) (l l' : list A) :
  first (filter f (l ++ l'))
  = match first (filter f l) with
    | Some x => Some x
    | None => first (filter f l')
    end.
Proof.
  induction l as [| a l IH]; cbn; [destruct (first _); reflexivity |].
  destruct (f a); cbn; [reflexivity | exact IH].
Qed.

Lemma get_contact_fresh_id (db : Session) (user : User.t) :
  seq_fresh db -> get_contact (contacts_id_seq db) user db = None.
Proof.
  unfold seq_fresh, get_contact. rewrite Forall_forall. intros H.
  apply first_filter_None. intros c Hc. specialize (H c Hc).
  unfold by_id_and_owner.
  destruct (Contact.id c =? contacts_id_seq db) eqn:E; [| reflexivity].
  apply Z.eqb_eq in E. lia.
Qed.

(** X1. A contact that was just created is found by its owner under the
    number the sequence gave it and by nobody else; every other lookup
    answers as it did before the insertion. *)
Theorem create_contact_then_get (db : Session) (body : ContactModel.t)
  (user : User.t) :
  seq_fresh db ->
  let c := fst (create_contact body user db) in
  let db' := snd (create_contact body user db) in
  Contact.id c = contacts_id_seq db /\
  get_contact (Contact.id c) user db' = Some c /\
  routes_contacts.read_contact (Contact.id c) db' user = Ok c /\
  (forall other,
      User.id other <> User.id user ->
      get_contact (Contact.id c) other db' = None /\
      routes_contacts.read_contact (Contact.id c) db' other
      = Raise (HTTPException 404 "Contact not found")) /\
  (forall contact_id u,
      contact_id <> Contact.id c ->
      get_contact contact_id u db' = get_contact contact_id u db).
Proof.
  intros SF c db'.
  assert (G : forall contact_id u,
             get_contact contact_id u db'
             = match get_contact contact_id u db with
               | Some x => Some x
               | None => if by_id_and_owner contact_id u c
                         then Some c else None
               end).
  { intros contact_id u. unfold get_contact.
    replace (contacts db') with (contacts db ++ [c]) by reflexivity.
    rewrite first_filter_app. cbn [filter].
    destruct (first (filter _ (contacts db))); [reflexivity |].
    destruct (by_id_and_owner contact_id u c); reflexivity. }
  assert (Own : get_contact (Contact.id c) user db' = Some c).
  { rewrite G. cbn [c create_contact fst Contact.id].
    rewrite (get_contact_fresh_id db user SF).
    unfold by_id_and_owner. cbn. rewrite !Z.eqb_refl. reflexivity. }
  split; [reflexivity |]. split; [exact Own |]. split.
  - unfold routes_contacts.read_contact. rewrite Own. reflexivity.
  - split.
    + intros other Hne.
      assert (N : get_contact (Contact.id c) other db' = None).
      { rewrite G. cbn [c create_contact fst Contact.id].
        rewrite (get_contact_fresh_id db other SF).
        unfold by_id_and_owner. cbn. rewrite Z.eqb_refl. cbn.
        destruct (User.id user =? User.id other) eqn:E; [| reflexivity].
        apply Z.eqb_eq in E. congruence. }
      split; [exact N |].
      unfold routes_contacts.read_contact. rewrite N. reflexivity.
    + intros contact_id u Hne. rewrite G.
      destruct (get_contact contact_id u db); [reflexivity |].
      unfold by_id_and_owner.
      destruct (Contact.id c =? contact_id) eqn:E; [| reflexivity].
      apply Z.eqb_eq in E. congruence.
Qed.

Lemma sample_seq_fresh : seq_fresh Sample.db.
Proof. unfold seq_fresh; cbn. repeat constructor; cbn; lia. Defined.

Lemma create_contact_then_get_witness :
  seq_fresh Sample.db /\
  let c := fst (create_contact Sample.body Sample.bob Sample.db) in
  let db' := snd (create_contact Sample.body Sample.bob Sample.db) in
  Contact.id c = contacts_id_seq Sample.db /\
  get_contact (Contact.id c) Sample.bob db' = Some c /\
  routes_contacts.read_contact (Contact.id c) db' Sample.bob = Ok c /\
  (forall other,
      User.id other <> User.id Sample.bob ->
      get_contact (Contact.id c) other db' = None /\
      routes_contacts.read_contact (Contact.id c) db' other
      = Raise (HTTPException 404 "Contact not found")) /\
  (forall contact_id u,
      contact_id <> Contact.id c ->
      get_contact contact_id u db' = get_contact contact_id u Sample.db).
Proof.
  split; [exact sample_seq_fresh |].
  exact (create_contact_then_get Sample.db Sample.body Sample.bob
           sample_seq_fresh).
Defined.

Lemma by_id_and_owner_other_id (contact_id : Z) (user : User.t)
  (c : Contact.t) :
  Contact.id c <> contact_id -> by_id_and_owner contact_id user c = false.
Proof.
  intros H. unfold by_id_and_owner. apply Z.eqb_neq in H. rewrite H.
  reflexivity.
Qed.

Lemma get_contact_other_id (contact_id : Z)
  (user : User.t) (c c' : Contact.t) (l1 l2 : list Contact.t) :
  Contact.id c <> contact_id -> Contact.id c' <> contact_id ->
  first (filter (by_id_and_owner contact_id user) (l1 ++ c :: l2))
  = first (filter (by_id_and_owner contact_id user) ((l1 ++ l2) ++ [c'])).
Proof.
  intros H H'. rewrite !filter_app. cbn [filter].
  rewrite (by_id_and_owner_other_id _ _ _ H).
  rewrite (by_id_and_owner_other_id _ _ _ H'). rewrite app_nil_r.
  reflexivity.
Qed.

(** X2. After an update the owner reads back the row with the new fields
    under the same number, and every lookup under another number answers
    as before. *)
Theorem update_contact_then_get (db : Session) (body : ContactModel.t)
  (user : User.t) (c : Contact.t) :
  contacts_pk db ->
  In c (contacts db) ->
  Contact.owner_id c = User.id user ->
  let db' := snd (update_contact (Contact.id c) body user db) in
  get_contact (Contact.id c) user db' = Some (assign c body) /\
  routes_contacts.read_contact (Contact.id c) db' user = Ok (assign c body) /\
  (forall contact_id u,
      contact_id <> Contact.id c ->
      get_contact contact_id u db' = get_contact contact_id u db).
Proof.
  intros PK Hin Ho db'.
  pose proof (get_contact_owned db PK c user Hin Ho) as G.
  destruct (update_contact_Some db PK _ body _ _ G) as (l1 & l2 & E & U).
  assert (Edb' : contacts db' = (l1 ++ l2) ++ [assign c body]).
  { unfold db'. rewrite U. reflexivity. }
  assert (PK' : contacts_pk db').
  { unfold contacts_pk in *. rewrite Edb'. rewrite E in PK.
    rewrite !map_app in *. cbn [map assign Contact.id] in *.
    apply (Permutation_NoDup
             (Permutation_trans
                (Permutation_sym (Permutation_middle _ _ _))
                (Permutation_cons_append _ _))).
    exact PK. }
  assert (Own : get_contact (Contact.id c) user db' = Some (assign c body)).
  { apply (get_contact_owned db' PK' (assign c body) user);
      [rewrite Edb'; auto with datatypes | exact Ho]. }
  split; [exact Own |]. split.
  - unfold routes_contacts.read_contact. rewrite Own. reflexivity.
  - intros contact_id u Hne. unfold get_contact. rewrite Edb', E.
    symmetry. apply get_contact_other_id; cbn; congruence.
Qed.

Lemma update_contact_then_get_witness :
  contacts_pk Sample.db /\
  In Sample.john (contacts Sample.db) /\
  Contact.owner_id Sample.john = User.id Sample.alice /\
  let db' :=
    snd (update_contact (Contact.id Sample.john) Sample.body Sample.alice
           Sample.db) in
  get_contact (Contact.id Sample.john) Sample.alice db'
  = Some (assign Sample.john Sample.body) /\
  routes_contacts.read_contact (Contact.id Sample.john) db' Sample.alice
  = Ok (assign Sample.john Sample.body) /\
  (forall contact_id u,
      contact_id <> Contact.id Sample.john ->
      get_contact contact_id u db' = get_contact contact_id u Sample.db).
Proof.
  assert (H1 : In Sample.john (contacts Sample.db)) by (cbn; auto).
  assert (H2 : Contact.owner_id Sample.john = User.id Sample.alice)
    by reflexivity.
  split; [exact sample_pk | split; [exact H1 | split; [exact H2 |]]].
  exact (update_contact_then_get Sample.db Sample.body Sample.alice
           Sample.john sample_pk H1 H2).
Defined.

(** X3. After a removal nobody finds the contact any more, a second
    removal answers "not found" and changes nothing, the table is one row
    shorter and every lookup under another number answers as before. *)
Theorem remove_contact_then_get (db : Session) (user : User.t)
  (c : Contact.t) :
  contacts_pk db ->
  In c (contacts db) ->
  Contact.owner_id c = User.id user ->
  let db' := snd (remove_contact (Contact.id c) user db) in
  (forall u, get_contact (Contact.id c) u db' = None) /\
  remove_contact (Contact.id c) user db' = (None, db') /\
  S (List.length (contacts db')) = List.length (contacts db) /\
  (forall contact_id u,
      contact_id <> Contact.id c ->
      get_contact contact_id u db' = get_contact contact_id u db).
Proof.
  intros PK Hin Ho db'.
  pose proof (get_contact_owned db PK c user Hin Ho) as G.
  destruct (remove_contact_Some db PK _ _ _ G) as (l1 & l2 & E & U).
  assert (Edb' : contacts db' = l1 ++ l2).
  { unfold db'. rewrite U. reflexivity. }
  unfold contacts_pk in PK. rewrite E in PK.
  pose proof (pk_split l1 l2 c PK) as Uq.
  assert (Gone : forall u, get_contact (Contact.id c) u db' = None).
  { intros u. unfold get_contact. apply first_filter_None.
    rewrite Edb'. intros r Hr. unfold by_id_and_owner.
    rewrite (Uq r Hr). reflexivity. }
  split; [exact Gone |]. split; [| split].
  - apply remove_contact_None, Gone.
  - rewrite Edb', E, !length_app. cbn. lia.
  - intros contact_id u Hne. unfold get_contact. rewrite Edb', E.
    rewrite !filter_app. cbn [filter].
    rewrite (by_id_and_owner_other_id contact_id u c) by congruence.
    reflexivity.
Qed.

Lemma remove_contact_then_get_witness :
  contacts_pk Sample.db /\
  In Sample.jane (contacts Sample.db) /\
  Contact.owner_id Sample.jane = User.id Sample.bob /\
  let db' :=
    snd (remove_contact (Contact.id Sample.jane) Sample.bob Sample.db) in
  (forall u, get_contact (Contact.id Sample.jane) u db' = None) /\
  remove_contact (Contact.id Sample.jane) Sample.bob db' = (None, db') /\
  S (List.length (contacts db')) = List.length (contacts Sample.db) /\
  (forall contact_id u,
      contact_id <> Contact.id Sample.jane ->
      get_contact contact_id u db' = get_contact contact_id u Sample.db).
Proof.
  assert (H1 : In Sample.jane (contacts Sample.db)) by (cbn; auto).
  assert (H2 : Contact.owner_id Sample.jane = User.id Sample.bob)
    by reflexivity.
  split; [exact sample_pk | split; [exact H1 | split; [exact H2 |]]].
  exact (remove_contact_then_get Sample.db Sample.bob Sample.jane
           sample_pk H1 H2).
Defined.

End ContactRoundTrips.

(** ** Contacts: one user's writes and another user's reads *)

Section Isolation.
Import repository_contacts.

(** Every read of the repository sees the table only through the rows of
    the requester. *)
Lemma reads_depend_on_owned_rows (db db' : Session) (user : User.t) :
  filter (owned_by user) (contacts db')
  = filter (owned_by user) (contacts db) ->
  (forall skip limit,
      get_contacts skip limit user db' = get_contacts skip limit user db) /\
  (forall contact_id,
      get_contact contact_id user db' = get_contact contact_id user db) /\
  (forall first_name last_name email,
      search_contact first_name last_name email user db'
      = search_contact first_name last_name email user db) /\
  (forall today,
      get_upcoming_birthdays today user db'
      = get_upcoming_birthdays today user db).
Proof.
  intros E. repeat split.
  - intros skip limit. unfold get_contacts. rewrite E. reflexivity.
  - intros contact_id. unfold get_contact.
    assert (F : forall l,
               filter (by_id_and_owner contact_id user) l
               = filter (fun c => Contact.id c =? contact_id)
                        (filter (owned_by user) l)).
    { intros l. rewrite filter_filter. apply filter_ext. intros c.
      unfold by_id_and_owner, owned_by. apply andb_comm. }
    rewrite !F, E. reflexivity.
  - intros fn ln em. unfold search_contact. rewrite E. reflexivity.
  - intros today. unfold get_upcoming_birthdays.
    destruct (PyDate.add_days today 7) as [s |]; [| reflexivity].
    cbn [bind].
    destruct (PyDate.replace_month today _) as [nm |]; [| reflexivity].
    cbn [bind].
    assert (F : forall l,
               filter (birthday_clause today nm s user) l
               = filter (birthday_clause today nm s user)
                        (filter (owned_by user) l)).
    { intros l. rewrite filter_filter. apply filter_ext. intros c.
      unfold birthday_clause, owned_by.
      destruct (Contact.owner_id c =? User.id user); reflexivity. }
    rewrite (F (contacts db')), (F (contacts db)), E. reflexivity.
Qed.

Lemma filter_owned_swap (other : User.t) (l1 l2 : list Contact.t)
  (c c' : Contact.t) :
  owned_by other c = false -> owned_by other c' = false ->
  filter (owned_by other) ((l1 ++ l2) ++ [c'])
  = filter (owned_by other) (l1 ++ c :: l2).
Proof.
  intros H H'. rewrite !filter_app. cbn [filter]. rewrite H, H'.
  apply app_nil_r.
Qed.

Lemma writes_keep_other_rows (op : contact_op) (db : Session)
  (other : User.t) :
  contacts_pk db ->
  User.id (op_user op) <> User.id other ->
  filter (owned_by other) (contacts (apply_op op db))
  = filter (owned_by other) (contacts db).
Proof.
  intros PK Hne.
  assert (NotOwned : forall c,
             Contact.owner_id c = User.id (op_user op) ->
             owned_by other c = false).
  { intros c Hc. unfold owned_by. apply Z.eqb_neq. congruence. }
  destruct op as [body user | contact_id body user | contact_id user];
    cbn [apply_op op_user] in *.
  - cbn. rewrite filter_app. cbn [filter].
    rewrite NotOwned by reflexivity. apply app_nil_r.
  - destruct (get_contact contact_id user db) as [c |] eqn:G.
    + destruct (get_contact_Some db _ _ _ G) as (_ & _ & Ho).
      destruct (update_contact_Some db PK _ body _ _ G) as (l1 & l2 & E & U).
      rewrite U. cbn [snd with_contacts contacts]. rewrite E.
      apply filter_owned_swap; apply NotOwned; [exact Ho | exact Ho].
    + rewrite (update_contact_None db _ body _ G). reflexivity.
  - destruct (get_contact contact_id user db) as [c |] eqn:G.
    + destruct (get_contact_Some db _ _ _ G) as (_ & _ & Ho).
      destruct (remove_contact_Some db PK _ _ _ G) as (l1 & l2 & E & U).
      rewrite U. cbn [snd with_contacts contacts]. rewrite E.
      rewrite !filter_app. cbn [filter]. rewrite (NotOwned c Ho).
      reflexivity.
    + rewrite (remove_contact_None db _ _ G). reflexivity.
Qed.

(** X4. Whatever one user creates, updates or removes, another user lists,
    looks up, searches and is shown as birthdays exactly what they were
    before. *)
Theorem other_users_reads_unchanged (op : contact_op) (db : Session)
  (other : User.t) :
  contacts_pk db ->
  User.id (op_user op) <> User.id other ->
  let db' := apply_op op db in
  (forall skip limit,
      get_contacts skip limit other db' = get_contacts skip limit other db) /\
  (forall contact_id,
      get_contact contact_id other db' = get_contact contact_id other db) /\
  (forall first_name last_name email,
      search_contact first_name last_name email other db'
      = search_contact first_name last_name email other db) /\
  (forall today,
      get_upcoming_birthdays today other db'
      = get_upcoming_birthdays today other db).
Proof.
  intros PK Hne db'. apply reads_depend_on_owned_rows.
  apply writes_keep_other_rows; assumption.
Qed.

Lemma other_users_reads_unchanged_witness :
  let op := OpRemove 1 Sample.alice in
  contacts_pk Sample.db /\
  User.id (op_user op) <> User.id Sample.bob /\
  let db' := apply_op op Sample.db in
  (forall skip limit,
      get_contacts skip limit Sample.bob db'
      = get_contacts skip limit Sample.bob Sample.db) /\
  (forall contact_id,
      get_contact contact_id Sample.bob db'
      = get_contact contact_id Sample.bob Sample.db) /\
  (forall first_name last_name email,
      search_contact first_name last_name email Sample.bob db'
      = search_contact first_name last_name email Sample.bob Sample.db) /\
  (forall today,
      get_upcoming_birthdays today Sample.bob db'
      = get_upcoming_birthdays today Sample.bob Sample.db).
Proof.
  assert (H : User.id (op_user (OpRemove 1 Sample.alice))
              <> User.id Sample.bob) by (cbn; discriminate).
  cbv zeta. split; [exact sample_pk | split; [exact H |]].
  exact (other_users_reads_unchanged (OpRemove 1 Sample.alice) Sample.db
           Sample.bob sample_pk H).
Defined.

(** X5. Starting from a well-formed table (the empty one is), any sequence
    of creations, updates and removals with valid birth dates leaves the
    table well formed: numbers stay unique, stay below the sequence, and
    the dates stay calendar dates. *)
Theorem run_ops_wf (ops : list contact_op) (db : Session) :
  Forall op_body_valid ops ->
  wf_contacts db ->
  wf_contacts (run_ops ops db).
Proof.
  unfold run_ops. revert db.
  induction ops as [| op ops IH]; intros db Hv WF; [exact WF |].
  inversion Hv as [| x xs Hop Hops]; subst. cbn [fold_left].
  apply IH; [exact Hops |].
  destruct op as [body user | contact_id body user | contact_id user];
    cbn [apply_op op_body_valid] in *.
  - apply create_contact_wf; assumption.
  - apply update_contact_wf; assumption.
  - apply remove_contact_wf; assumption.
Qed.

Lemma run_ops_wf_witness :
  let ops :=
    [OpCreate Sample.body Sample.alice;
     OpCreate Sample.body Sample.bob;
     OpUpdate 1 Sample.body Sample.alice;
     OpRemove 2 Sample.bob;
     OpCreate Sample.body Sample.bob] in
  Forall op_body_valid ops /\
  wf_contacts empty_session /\
  wf_contacts (run_ops ops empty_session).
Proof.
  cbv zeta.
  assert (V : Forall op_body_valid
                [OpCreate Sample.body Sample.alice;
                 OpCreate Sample.body Sample.bob;
                 OpUpdate 1 Sample.body Sample.alice;
                 OpRemove 2 Sample.bob;
                 OpCreate Sample.body Sample.bob]).
  { repeat constructor. }
  split; [exact V | split; [exact empty_session_wf |]].
  exact (run_ops_wf _ empty_session V empty_session_wf).
Defined.

End Isolation.

(** ** Contacts: what an update can and cannot do *)

Section UpdateLimits.
Import repository_contacts.

(** X6. An update never changes the number or the owner of any row, never
    adds or drops a row, and leaves the users and the sequence alone: the
    pairs of number and owner in the table after the update are those
    before it, in whatever order.  A contact cannot change hands through
    [update_contact]. *)
Theorem update_contact_keeps_keys_and_owners (db : Session) (contact_id : Z)
  (body : ContactModel.t) (user : User.t) :
  let db' := snd (update_contact contact_id body user db) in
  let key c := (Contact.id c, Contact.owner_id c) in
  Permutation (map key (contacts db')) (map key (contacts db)) /\
  List.length (contacts db') = List.length (contacts db) /\
  users db' = users db /\
  contacts_id_seq db' = contacts_id_seq db.
Proof.
  intros db' key.
  assert (P : Permutation (map key (contacts db')) (map key (contacts db))).
  { unfold db', update_contact.
    destruct (first _) as [c |]; cbn [snd]; [| apply Permutation_refl].
    cbn [contacts with_contacts]. rewrite map_app, map_map.
    change (map (fun x => key (assign x body)))
      with (map (fun x : Contact.t => key x)).
    rewrite <- map_app. apply Permutation_sym, Permutation_map.
    apply (filter_split_perm (fun r => Contact.id r =? Contact.id c)). }
  split; [exact P |]. split.
  - apply Permutation_length in P. rewrite !length_map in P. exact P.
  - unfold db', update_contact.
    destruct (first _) as [c |]; split; reflexivity.
Qed.

Lemma owns_email_intro (db : Session) (user : User.t) (c : Contact.t) :
  In c (contacts db) -> Contact.owner_id c = User.id user ->
  owns_email db user (Contact.email c).
Proof. intros H1 H2. exists c. auto. Qed.

(** X7. The duplicate check of the create route is not made on update: a
    user owning two contacts can give the second the e-mail of the first.
    The update route accepts it, both rows then carry that e-mail, and the
    create route would have refused it. *)
Theorem update_contact_skips_email_check (db : Session)
  (body : ContactModel.t) (user : User.t) (c1 c2 : Contact.t) :
  contacts_pk db ->
  In c1 (contacts db) -> In c2 (contacts db) ->
  Contact.owner_id c1 = User.id user ->
  Contact.owner_id c2 = User.id user ->
  Contact.id c1 <> Contact.id c2 ->
  ContactModel.email body = Contact.email c1 ->
  let r := routes_contacts.update_contact (Contact.id c2) body db user in
  fst r = Ok (assign c2 body) /\
  In c1 (contacts (snd r)) /\
  In (assign c2 body) (contacts (snd r)) /\
  Contact.email (assign c2 body) = Contact.email c1 /\
  Contact.id (assign c2 body) <> Contact.id c1 /\
  fst (routes_contacts.create_contact body db user)
  = Raise (HTTPException 400 "Contact with this email already exists.").
Proof.
  intros PK H1 H2 O1 O2 Hne He r.
  pose proof (get_contact_owned db PK c2 user H2 O2) as G.
  destruct (update_contact_Some db PK _ body _ _ G) as (l1 & l2 & E & U).
  unfold r, routes_contacts.update_contact. rewrite U.
  cbn [fst snd with_contacts contacts routes_contacts.or_404].
  split; [reflexivity |]. split; [| split; [| split; [| split]]].
  - rewrite E in H1. apply in_app_or in H1.
    destruct H1 as [H | [H | H]]; auto with datatypes. congruence.
  - auto with datatypes.
  - exact He.
  - cbn. congruence.
  - rewrite route_create_conflict; [reflexivity |].
    rewrite He. apply owns_email_intro; assumption.
Qed.

Lemma update_contact_skips_email_check_witness :
  let body :=
    ContactModel.mk "Johnny" "Smith" "john.doe@example.com" "5550000"
      (PyDate.mkDate 1988 12 31) None in
  let db := Sample.db in
  let user := Sample.alice in
  let c1 := Sample.john in
  let c2 := Sample.johnny in
  contacts_pk db /\
  In c1 (contacts db) /\ In c2 (contacts db) /\
  Contact.owner_id c1 = User.id user /\
  Contact.owner_id c2 = User.id user /\
  Contact.id c1 <> Contact.id c2 /\
  ContactModel.email body = Contact.email c1 /\
  let r := routes_contacts.update_contact (Contact.id c2) body db user in
  fst r = Ok (assign c2 body) /\
  In c1 (contacts (snd r)) /\
  In (assign c2 body) (contacts (snd r)) /\
  Contact.email (assign c2 body) = Contact.email c1 /\
  Contact.id (assign c2 body) <> Contact.id c1 /\
  fst (routes_contacts.create_contact body db user)
  = Raise (HTTPException 400 "Contact with this email already exists.").
Proof.
  cbv zeta.
  assert (H1 : In Sample.john (contacts Sample.db)) by (cbn; auto).
  assert (H2 : In Sample.johnny (contacts Sample.db)) by (cbn; auto).
  assert (O1 : Contact.owner_id Sample.john = User.id Sample.alice)
    by reflexivity.
  assert (O2 : Contact.owner_id Sample.johnny = User.id Sample.alice)
    by reflexivity.
  assert (N : Contact.id Sample.john <> Contact.id Sample.johnny)
    by (cbn; discriminate).
  assert (E : ContactModel.email
                (ContactModel.mk "Johnny" "Smith" "john.doe@example.com"
                   "5550000" (PyDate.mkDate 1988 12 31) None)
              = Contact.email Sample.john) by reflexivity.
  split; [exact sample_pk |].
  split; [exact H1 |]. split; [exact H2 |]. split; [exact O1 |].
  split; [exact O2 |]. split; [exact N |]. split; [exact E |].
  exact (update_contact_skips_email_check Sample.db _ Sample.alice
           Sample.john Sample.johnny sample_pk H1 H2 O1 O2 N E).
Defined.

(** X8. A request that the create route has served cannot be served
    twice: sent again by the same user it is refused with 400 and the store
    stays as the first request left it. *)
Theorem create_contact_route_not_repeatable (db : Session)
  (contact : ContactModel.t) (user : User.t) :
  ~ owns_email db user (ContactModel.email contact) ->
  let r1 := routes_contacts.create_contact contact db user in
  let r2 := routes_contacts.create_contact contact (snd r1) user in
  (exists c, fst r1 = Ok c /\ In c (contacts (snd r1))) /\
  r2 = (Raise (HTTPException 400 "Contact with this email already exists."),
        snd r1).
Proof.
  intros H r1 r2. unfold r2, r1.
  rewrite (route_create_fresh db contact user H). cbn [fst snd].
  split.
  - eexists. split; [reflexivity |]. cbn. auto with datatypes.
  - apply route_create_conflict.
    exists (fst (create_contact contact user db)).
    cbn. auto with datatypes.
Qed.

Lemma create_contact_route_not_repeatable_witness :
  let contact :=
    ContactModel.mk "Ann" "New" "new@example.com" "1"
      (PyDate.mkDate 2000 5 5) None in
  ~ owns_email Sample.db Sample.alice (ContactModel.email contact) /\
  let r1 := routes_contacts.create_contact contact Sample.db Sample.alice in
  let r2 := routes_contacts.create_contact contact (snd r1) Sample.alice in
  (exists c, fst r1 = Ok c /\ In c (contacts (snd r1))) /\
  r2 = (Raise (HTTPException 400 "Contact with this email already exists."),
        snd r1).
Proof.
  cbv zeta.
  assert (H : ~ owns_email Sample.db Sample.alice
                (ContactModel.email
                   (ContactModel.mk "Ann" "New" "new@example.com" "1"
                      (PyDate.mkDate 2000 5 5) None))).
  { intros (c & Hc & He & _). cbn in Hc.
    destruct Hc as [<- | [<- | [<- | []]]]; cbn in He; discriminate. }
  split; [exact H |].
  exact (create_contact_route_not_repeatable Sample.db _ Sample.alice H).
Defined.

End UpdateLimits.

(** ** Contacts: pages and searches *)

Section PagesAndSearches.
Import repository_contacts.

Lemma firstn_plus {A : Type} (a b : nat) (l : list A) :
  firstn (a + b) l = firstn a l ++ firstn b (skipn a l).
Proof.
  revert l. induction a as [| a IH]; intros l; [reflexivity |].
  destruct l as [| x l]; cbn; [now rewrite firstn_nil | now rewrite IH].
Qed.

(** X9. Consecutive pages fit together.  For counts the server accepts
    (non-negative, [skip + limit1] and [limit1 + limit2] at most 2^63 - 1),
    the page of [limit1] rows at [skip] followed by the page of [limit2]
    rows at [skip + limit1] is the page of [limit1 + limit2] rows at
    [skip]; and a page that comes back shorter than asked for is the last
    one. *)
Theorem get_contacts_pages_concat (db : Session) (user : User.t)
  (skip limit1 limit2 : Z) :
  0 <= skip -> 0 <= limit1 -> 0 <= limit2 ->
  skip + limit1 <= Sql.MAX_BIGINT ->
  limit1 + limit2 <= Sql.MAX_BIGINT ->
  exists p1 p2,
    get_contacts skip limit1 user db = Ok p1 /\
    get_contacts (skip + limit1) limit2 user db = Ok p2 /\
    get_contacts skip (limit1 + limit2) user db = Ok (p1 ++ p2) /\
    (Z.of_nat (List.length p1) <= limit1) /\
    (Z.of_nat (List.length p1) < limit1 -> p2 = []).
Proof.
  intros Hs H1 H2 B1 B2.
  rewrite !get_contacts_in_range by lia.
  set (owned := filter (owned_by user) (contacts db)).
  do 2 eexists. split; [reflexivity |]. split; [reflexivity |].
  split; [| split].
  - f_equal. rewrite !Z2Nat.inj_add by lia.
    rewrite firstn_plus, skipn_skipn. f_equal. f_equal. f_equal. lia.
  - rewrite length_firstn. lia.
  - rewrite length_firstn, length_skipn. intros Hlt.
    rewrite skipn_all2; [apply firstn_nil |]. lia.
Qed.

Lemma get_contacts_pages_concat_witness :
  0 <= 0 /\ 0 <= 1 /\ 0 <= 5 /\
  0 + 1 <= Sql.MAX_BIGINT /\ 1 + 5 <= Sql.MAX_BIGINT /\
  exists p1 p2,
    get_contacts 0 1 Sample.alice Sample.db = Ok p1 /\
    get_contacts (0 + 1) 5 Sample.alice Sample.db = Ok p2 /\
    get_contacts 0 (1 + 5) Sample.alice Sample.db = Ok (p1 ++ p2) /\
    (Z.of_nat (List.length p1) <= 1) /\
    (Z.of_nat (List.length p1) < 1 -> p2 = []).
Proof.
  assert (H0 : 0 <= 0) by lia.
  assert (H1 : 0 <= 1) by lia.
  assert (H5 : 0 <= 5) by lia.
  assert (B1 : 0 + 1 <= Sql.MAX_BIGINT) by (unfold Sql.MAX_BIGINT; lia).
  assert (B2 : 1 + 5 <= Sql.MAX_BIGINT) by (unfold Sql.MAX_BIGINT; lia).
  split; [exact H0 | split; [exact H1 | split; [exact H5 |]]].
  split; [exact B1 | split; [exact B2 |]].
  exact (get_contacts_pages_concat Sample.db Sample.alice 0 1 5
           H0 H1 H5 B1 B2).
Defined.



End PagesAndSearches.

(** ** Birthdays: what the query answers and when it raises *)

Section BirthdayAnswers.
Import PyDate PyDateFacts repository_contacts.

Lemma today_in_window (today b : date) :
  month b = month today -> day b = day today ->
  in_birthday_window today b = true.
Proof.
  intros Hm Hd. unfold in_birthday_window. cbn [seq existsb].
  unfold birthday_on at 1. cbn [add_days].
  rewrite Hm, Hd, !Z.eqb_refl. reflexivity.
Qed.

Lemma seventh_day_outside (today s : date) (c : Contact.t) :
  valid today = true -> add_days today 7 = Ok s ->
  month (Contact.birth_date c) = month s ->
  day (Contact.birth_date c) = day s ->
  in_birthday_window today (Contact.birth_date c) = false.
Proof.
  intros Vt Hs Hm Hd.
  destruct (in_birthday_window today (Contact.birth_date c)) eqn:W;
    [exfalso | reflexivity].
  apply (window_iff_probe today s c Vt Hs) in W.
  destruct (add_days_spec 7 today s Vt Hs) as [Vs Os].
  pose proof (toordinal_close today s 7 Vt Vs Os ltac:(lia)) as Cs.
  assert (exists y,
            valid (mkDate y (month s) (day s)) = true /\
            0 <= toordinal (mkDate y (month s) (day s))
                 - toordinal today < 7) as (y & Vp & Hk).
  { rewrite <- Hm, <- Hd.
    destruct W as [W | W]; apply probe_Ok_true in W; eauto. }
  pose proof (toordinal_close today _ _ Vt Vp
                (eq_sym (Zplus_minus _ _)) ltac:(lia)) as Cp.
  cbn [year month day] in Cp.
  destruct Cp as [(_ & ? & ?) | [(_ & ? & ? & ?) | (_ & ? & ? & ?)]];
    destruct Cs as [(_ & ? & ?) | [(_ & ? & ? & ?) | (_ & ? & ? & ?)]];
    lia.
Qed.

(** X12. Whenever the birthdays route answers, it answers, in table
    order, exactly the user's contacts whose month and day fall on one of
    the seven days starting today: a contact whose birthday is today is on
    the list and a contact whose birthday is the day seven days from today
    is not. *)
Theorem birthdays_route_answer (today : date) (user : User.t) (db : Session)
  (l : list Contact.t) :
  valid today = true ->
  routes_contacts.get_upcoming_birthdays today db user = Ok l ->
  l = filter (fun c => owned_by user c
                       && in_birthday_window today (Contact.birth_date c))
             (contacts db) /\
  (forall c,
      In c (contacts db) -> Contact.owner_id c = User.id user ->
      month (Contact.birth_date c) = month today ->
      day (Contact.birth_date c) = day today ->
      In c l) /\
  (forall c s,
      add_days today 7 = Ok s ->
      month (Contact.birth_date c) = month s ->
      day (Contact.birth_date c) = day s ->
      ~ In c l).
Proof.
  intros Vt H. unfold routes_contacts.get_upcoming_birthdays in H.
  pose proof (get_upcoming_birthdays_window today user db l Vt H) as E.
  split; [exact E |]. split.
  - intros c Hin Ho Hm Hd. rewrite E. apply filter_In. split; [exact Hin |].
    apply andb_true_iff. split; [now apply owned_by_spec |].
    now apply today_in_window.
  - intros c s Hs Hm Hd Hin. rewrite E in Hin. apply filter_In in Hin.
    destruct Hin as [_ Hc]. apply andb_true_iff in Hc.
    rewrite (seventh_day_outside today s c Vt Hs Hm Hd) in Hc.
    destruct Hc; discriminate.
Qed.

Lemma birthdays_route_answer_witness :
  let today := mkDate 2023 12 26 in
  let l := [Sample.johnny] in
  valid today = true /\
  routes_contacts.get_upcoming_birthdays today Sample.db Sample.alice = Ok l /\
  l = filter (fun c => owned_by Sample.alice c
                       && in_birthday_window today (Contact.birth_date c))
             (contacts Sample.db) /\
  (forall c,
      In c (contacts Sample.db) ->
      Contact.owner_id c = User.id Sample.alice ->
      month (Contact.birth_date c) = month today ->
      day (Contact.birth_date c) = day today ->
      In c l) /\
  (forall c s,
      add_days today 7 = Ok s ->
      month (Contact.birth_date c) = month s ->
      day (Contact.birth_date c) = day s ->
      ~ In c l).
Proof.
  cbv zeta.
  assert (V : valid (mkDate 2023 12 26) = true) by reflexivity.
  assert (R : routes_contacts.get_upcoming_birthdays (mkDate 2023 12 26)
                Sample.db Sample.alice = Ok [Sample.johnny]) by reflexivity.
  split; [exact V | split; [exact R |]].
  exact (birthdays_route_answer (mkDate 2023 12 26) Sample.alice Sample.db
           [Sample.johnny] V R).
Defined.

Lemma days_in_month_any_year (y y' m d : Z) :
  1 <= m <= 12 -> 1 <= d <= days_in_month y m ->
  ~ (m = 2 /\ d = 29) ->
  d <= days_in_month y' m.
Proof.
  intros Hm Hd Hn. month_cases m; cbn in *; try lia.
  destruct (is_leap y), (is_leap y'); lia.
Qed.

(** A birthday other than 29 February can be probed in every year. *)
Lemma probes_total (today : date) (c : Contact.t) :
  valid today = true -> year today < 9999 ->
  valid (Contact.birth_date c) = true ->
  ~ (month (Contact.birth_date c) = 2 /\ day (Contact.birth_date c) = 29) ->
  exists b, probes today c = Ok b.
Proof.
  intros Vt Hy Vb Hn. apply valid_spec in Vt, Vb.
  assert (G : forall y, 1 <= y <= 9999 -> exists b, probe today y c = Ok b).
  { intros y Hy'. unfold probe, make.
    replace (check_date_fields y _ _) with true; [cbn; eauto |].
    symmetry.
    apply (proj2 (valid_spec (mkDate y (month (Contact.birth_date c))
                                       (day (Contact.birth_date c))))).
    cbn [year month day].
    pose proof (days_in_month_any_year (year (Contact.birth_date c)) y
                  (month (Contact.birth_date c))
                  (day (Contact.birth_date c))) as D.
    lia. }
  unfold probes, or_else.
  destruct (G (year today)) as [b1 ->]; [lia |]. cbn [bind].
  destruct b1; eauto.
  destruct (G (year today + 1)) as [b2 ->]; [lia |]. eauto.
Qed.

(** X13. For a user none of whose contacts was born on a 29 February, the
    query raises exactly on the days whose number the following month does
    not have (such as 31 January or 31 March) and returns a list on every
    other day. *)
Theorem get_upcoming_birthdays_raises_exactly (today : date) (user : User.t)
  (db : Session) :
  valid today = true ->
  year today < 9999 ->
  dates_valid db ->
  (forall c,
      In c (contacts db) -> Contact.owner_id c = User.id user ->
      ~ (month (Contact.birth_date c) = 2 /\
         day (Contact.birth_date c) = 29)) ->
  let next := month today mod 12 + 1 in
  (days_in_month (year today) next < day today ->
   get_upcoming_birthdays today user db = Raise ValueError) /\
  (day today <= days_in_month (year today) next ->
   exists l, get_upcoming_birthdays today user db = Ok l).
Proof.
  intros Vt Hy Hdb Hleap next. split.
  - apply next_month_probe_raises; assumption.
  - intros Hd. unfold get_upcoming_birthdays.
    destruct (add_days_total 7 today Vt Hy) as [s Hs]; [lia |].
    rewrite Hs. cbn [bind].
    assert (Hnm : replace_month today next
                  = Ok (mkDate (year today) next (day today))).
    { unfold replace_month, make.
      replace (check_date_fields (year today) next (day today)) with true;
        [reflexivity |].
      symmetry. pose proof Vt as Vt'. apply valid_spec in Vt'.
      apply (proj2 (valid_spec (mkDate (year today) next (day today)))).
      cbn [year month day]. unfold next in *.
      pose proof (Z.mod_pos_bound (month today) 12 ltac:(lia)). lia. }
    fold next. rewrite Hnm. cbn [bind].
    apply filterM_total. intros c Hc. apply filter_In in Hc.
    destruct Hc as [Hin Hc].
    pose proof (birthday_clause_owner _ _ _ _ _ Hc) as Ho.
    unfold dates_valid in Hdb. rewrite Forall_forall in Hdb.
    apply probes_total; auto.
Qed.

Lemma get_upcoming_birthdays_raises_exactly_witness :
  let today := mkDate 2024 1 29 in
  let user := Sample.alice in
  let db := Sample.db in
  valid today = true /\
  year today < 9999 /\
  dates_valid db /\
  (forall c,
      In c (contacts db) -> Contact.owner_id c = User.id user ->
      ~ (month (Contact.birth_date c) = 2 /\
         day (Contact.birth_date c) = 29)) /\
  let next := month today mod 12 + 1 in
  (days_in_month (year today) next < day today ->
   get_upcoming_birthdays today user db = Raise ValueError) /\
  (day today <= days_in_month (year today) next ->
   exists l, get_upcoming_birthdays today user db = Ok l).
Proof.
  cbv zeta.
  assert (V : valid (mkDate 2024 1 29) = true) by reflexivity.
  assert (Y : year (mkDate 2024 1 29) < 9999) by (cbn; lia).
  assert (L : forall c,
             In c (contacts Sample.db) ->
             Contact.owner_id c = User.id Sample.alice ->
             ~ (month (Contact.birth_date c) = 2 /\
                day (Contact.birth_date c) = 29)).
  { intros c Hc _ [Hm _]. cbn in Hc.
    destruct Hc as [<- | [<- | [<- | []]]]; cbn in Hm; discriminate. }
  split; [exact V | split; [exact Y | split; [exact sample_dates_valid |]]].
  split; [exact L |].
  exact (get_upcoming_birthdays_raises_exactly (mkDate 2024 1 29)
           Sample.alice Sample.db V Y sample_dates_valid L).
Defined.

End BirthdayAnswers.

Section LeapDay.
Import PyDate PyDateFacts repository_contacts.

Lemma leap_years_not_adjacent (y : Z) :
  is_leap y = true -> is_leap (y + 1) = false.
Proof.
  unfold is_leap. intros H. apply andb_true_iff in H. destruct H as [H _].
  apply Z.eqb_eq in H.
  replace ((y + 1) mod 4 =? 0) with false; [reflexivity |].
  symmetry. apply Z.eqb_neq. Z.div_mod_to_equations. lia.
Qed.

Lemma make_leap_day (y : Z) :
  1 <= y <= 9999 ->
  make y 2 29 = if is_leap y then Ok (mkDate y 2 29) else Raise ValueError.
Proof.
  intros Hy. unfold make, check_date_fields, MINYEAR, MAXYEAR. cbn.
  destruct (is_leap y); cbn;
    replace (1 <=? y) with true by (symmetry; apply Z.leb_le; lia);
    replace (y <=? 9999) with true by (symmetry; apply Z.leb_le; lia);
    reflexivity.
Qed.

(** Once a leap-day birthday is selected by the WHERE clause on a day more
    than six days before any 29 February, the comprehension raises. *)
Lemma leap_day_selected_raises (today s nm : date) (user : User.t)
  (db : Session) (c : Contact.t) :
  valid today = true -> year today < 9999 ->
  add_days today 7 = Ok s ->
  replace_month today (month today mod 12 + 1) = Ok nm ->
  In c (contacts db) ->
  birthday_clause today nm s user c = true ->
  month (Contact.birth_date c) = 2 -> day (Contact.birth_date c) = 29 ->
  (is_leap (year today) = true ->
   ~ 0 <= toordinal (mkDate (year today) 2 29) - toordinal today < 7) ->
  get_upcoming_birthdays today user db = Raise ValueError.
Proof.
  intros Vt Hy Hs Hnm Hin Hc Hm Hd Hfar.
  unfold get_upcoming_birthdays. rewrite Hs. cbn [bind].
  rewrite Hnm. cbn [bind].
  assert (P : probes today c = Raise ValueError).
  { apply valid_spec in Vt.
    unfold probes, or_else, probe. rewrite Hm, Hd.
    rewrite !make_leap_day by lia.
    destruct (is_leap (year today)) eqn:L.
    - cbn [bind]. unfold in_range, days_between.
      specialize (Hfar eq_refl).
      destruct ((0 <=? _) && (_ <? 7)) eqn:R.
      + apply andb_true_iff in R. rewrite Z.leb_le, Z.ltb_lt in R. lia.
      + rewrite (leap_years_not_adjacent _ L). reflexivity.
    - reflexivity. }
  destruct (filterM_raises (probes today)
              (filter (birthday_clause today nm s user) (contacts db))
              c ValueError) as [e He]; [apply filter_In; auto | exact P |].
  rewrite He. f_equal.
  destruct (filterM_Raise _ _ _ He) as (x & _ & Hx).
  apply (probes_Raise today x e Hx).
Qed.

(** X14. A contact born on a 29 February makes the query raise for its
    owner on 22, 23 and 24 January of every year, and on 23 to 28 February
    of every year that is not a leap year. *)
Theorem leap_day_birthday_raises (y d : Z) (user : User.t) (db : Session)
  (c : Contact.t) :
  1 <= y < 9999 ->
  In c (contacts db) ->
  Contact.owner_id c = User.id user ->
  month (Contact.birth_date c) = 2 ->
  day (Contact.birth_date c) = 29 ->
  (22 <= d <= 24 ->
   get_upcoming_birthdays (mkDate y 1 d) user db = Raise ValueError) /\
  (23 <= d <= 28 -> is_leap y = false ->
   get_upcoming_birthdays (mkDate y 2 d) user db = Raise ValueError).
Proof.
  intros Hy Hin Ho Hm Hd. split.
  - intros Hr. set (today := mkDate y 1 d).
    assert (Vt : valid today = true) by (apply valid_spec; cbn; lia).
    destruct (add_days_total 7 today Vt) as [s Hs]; [cbn; lia | lia |].
    destruct (add_days_spec 7 today s Vt Hs) as [Vs Os].
    pose proof (toordinal_close today s 7 Vt Vs Os ltac:(lia)) as Cs.
    cbn [year month day today] in Cs. cbn in Cs.
    pose proof (proj1 (valid_spec s) Vs) as Bs.
    assert (Ds : day s = d + 7) by lia.
    assert (Hnm : replace_month today (month today mod 12 + 1)
                  = Ok (mkDate y 2 d)).
    { unfold replace_month, make. cbn.
      replace (check_date_fields y 2 d) with true; [reflexivity |].
      symmetry. apply (proj2 (valid_spec (mkDate y 2 d))). cbn.
      destruct (is_leap y); lia. }
    apply (leap_day_selected_raises today s _ user db c Vt
             ltac:(cbn; lia) Hs Hnm Hin); trivial.
    + unfold birthday_clause. cbn [month day today].
      rewrite Ho, Hm, Hd, Z.eqb_refl. cbn.
      apply Z.leb_le. lia.
    + intros _. unfold toordinal. cbn.
      destruct (is_leap y); cbn; lia.
  - intros Hr Hl. set (today := mkDate y 2 d).
    assert (Vt : valid today = true).
    { apply valid_spec. cbn. rewrite Hl. lia. }
    destruct (add_days_total 7 today Vt) as [s Hs]; [cbn; lia | lia |].
    assert (Hnm : replace_month today (month today mod 12 + 1)
                  = Ok (mkDate y 3 d)).
    { unfold replace_month, make. cbn.
      replace (check_date_fields y 3 d) with true; [reflexivity |].
      symmetry. apply (proj2 (valid_spec (mkDate y 3 d))). cbn. lia. }
    apply (leap_day_selected_raises today s _ user db c Vt
             ltac:(cbn; lia) Hs Hnm Hin); trivial.
    + unfold birthday_clause. cbn [month day today].
      rewrite Ho, Hm, Hd, Z.eqb_refl. cbn.
      rewrite orb_false_r. apply andb_true_iff.
      split; [apply Z.leb_le | apply Z.ltb_lt]; lia.
    + cbn [year today]. congruence.
Qed.

Lemma leap_day_birthday_raises_witness :
  let c := Sample.leapling in
  1 <= 2024 < 9999 /\
  In c (contacts Sample.db_leap) /\
  Contact.owner_id c = User.id Sample.alice /\
  month (Contact.birth_date c) = 2 /\
  day (Contact.birth_date c) = 29 /\
  (22 <= 23 <= 24 ->
   get_upcoming_birthdays (mkDate 2024 1 23) Sample.alice Sample.db_leap
   = Raise ValueError) /\
  (23 <= 23 <= 28 -> is_leap 2024 = false ->
   get_upcoming_birthdays (mkDate 2024 2 23) Sample.alice Sample.db_leap
   = Raise ValueError).
Proof.
  cbv zeta.
  assert (Hy : 1 <= 2024 < 9999) by lia.
  assert (Hin : In Sample.leapling (contacts Sample.db_leap))
    by (cbn; auto).
  assert (Ho : Contact.owner_id Sample.leapling = User.id Sample.alice)
    by reflexivity.
  assert (Hm : month (Contact.birth_date Sample.leapling) = 2)
    by reflexivity.
  assert (Hd : day (Contact.birth_date Sample.leapling) = 29)
    by reflexivity.
  split; [exact Hy | split; [exact Hin | split; [exact Ho |]]].
  split; [exact Hm | split; [exact Hd |]].
  exact (leap_day_birthday_raises 2024 23 Sample.alice Sample.db_leap
           Sample.leapling Hy Hin Ho Hm Hd).
Defined.

(** In the leap year 2024 the same contact is listed on 23 February, and
    a day earlier it is not yet selected. *)
Example leap_day_samples :
  get_upcoming_birthdays (mkDate 2024 2 23) Sample.alice Sample.db_leap
  = Ok [Sample.leapling] /\
  get_upcoming_birthdays (mkDate 2023 2 22) Sample.alice Sample.db_leap
  = Ok [] /\
  get_upcoming_birthdays (mkDate 2024 1 25) Sample.alice Sample.db_leap
  = Ok [].
Proof. repeat split; reflexivity. Qed.

End LeapDay.

(** ** Users: the repository *)

Section UserRepository.
Import repository_users.

Lemma get_user_by_email_Some (email : string) (db : Session) (u : User.t) :
  get_user_by_email email db = Some u ->
  In u (users db) /\ User.email u = email.
Proof.
  unfold get_user_by_email. intros H.
  apply first_filter_Some in H. destruct H as (l1 & l2 & E & Hu & _).
  apply String.eqb_eq in Hu. rewrite E. auto with datatypes.
Qed.

Lemma get_user_by_email_None (email : string) (db : Session) :
  get_user_by_email email db = None <->
  ~ In email (map User.email (users db)).
Proof.
  unfold get_user_by_email. rewrite first_filter_None, in_map_iff. split.
  - intros H (u & He & Hu). specialize (H u Hu).
    rewrite He, String.eqb_refl in H. discriminate.
  - intros H u Hu. destruct (String.eqb (User.email u) email) eqn:E; trivial.
    apply String.eqb_eq in E. exfalso. apply H. eauto.
Qed.

Lemma write_row_keys (f : User.t -> User.t) (user : User.t) (db : Session) :
  (forall r, User.id (f r) = User.id r) ->
  (forall r, User.email (f r) = User.email r) ->
  map User.id (users (write_row f user db)) = map User.id (users db) /\
  map User.email (users (write_row f user db)) = map User.email (users db) /\
  contacts (write_row f user db) = contacts db.
Proof.
  intros Hid Hem. unfold write_row. cbn. repeat split;
    rewrite map_map; apply map_ext; intros r;
    destruct (User.id r =? User.id user); auto.
Qed.

Lemma write_row_found (f : User.t -> User.t) (email : string)
  (user : User.t) (db : Session) :
  (forall r, User.email (f r) = User.email r) ->
  get_user_by_email email db = Some user ->
  get_user_by_email email (write_row f user db) = Some (f user).
Proof.
  intros Hem. unfold get_user_by_email, write_row. intros H.
  apply first_filter_Some in H. destruct H as (l1 & l2 & E & Hu & Hl1).
  cbn [users with_users]. rewrite E, map_app, filter_app. cbn [map].
  rewrite Z.eqb_refl. cbn [filter]. rewrite Hem, Hu.
  replace (filter _ (map _ l1)) with (@nil User.t); [reflexivity |].
  symmetry. clear E. induction l1 as [| a l1 IH]; [reflexivity |].
  cbn [map filter].
  assert (Ha : String.eqb (User.email a) email = false)
    by (apply Hl1; now left).
  destruct (User.id a =? User.id user); rewrite ?Hem, Ha;
    apply IH; intros y Hy; apply Hl1; now right.
Qed.

Lemma write_row_others (f : User.t -> User.t) (user : User.t)
  (db : Session) (email : string) :
  (forall r, User.email (f r) = User.email r) ->
  users_pk db -> In user (users db) ->
  email <> User.email user ->
  get_user_by_email email (write_row f user db) = get_user_by_email email db.
Proof.
  intros Hem PK Hin Hne. unfold get_user_by_email, write_row.
  cbn [users with_users]. f_equal.
  unfold users_pk in PK.
  induction (users db) as [| a l IH]; [reflexivity |].
  cbn [map filter]. cbn [map] in PK. inversion PK as [| x xs Hn Hd]; subst.
  destruct (User.id a =? User.id user) eqn:E.
  - apply Z.eqb_eq in E. rewrite Hem.
    assert (a = user).
    { destruct Hin as [-> | Hin]; [reflexivity |].
      exfalso. apply Hn. rewrite E. now apply in_map. }
    subst a.
    replace (String.eqb (User.email user) email) with false
      by (symmetry; apply String.eqb_neq; congruence).
    rewrite <- (map_unchanged
                  (fun r => if User.id r =? User.id user then f r else r) l)
      at 2; [reflexivity |].
    intros r Hr. destruct (User.id r =? User.id user) eqn:Er; trivial.
    apply Z.eqb_eq in Er. exfalso. apply Hn. rewrite <- Er. now apply in_map.
  - destruct Hin as [-> | Hin]; [rewrite Z.eqb_refl in E; discriminate |].
    rewrite (IH Hd Hin). reflexivity.
Qed.

(** X15. [create_user] refuses an address that is already registered and
    leaves the store alone; otherwise it appends an unconfirmed user
    without refresh token who is found under that address from then on,
    while every other address resolves as before and the addresses stay
    unique. *)
Theorem create_user_registers_once (body : UserModel.t) (user_id now : Z)
  (avatar : option string) (db : Session) :
  let email := UserModel.email body in
  let r := create_user body user_id now avatar db in
  (get_user_by_email email db <> None -> r = (None, db)) /\
  (get_user_by_email email db = None ->
   exists u,
     r = (Some u, with_users db (users db ++ [u])) /\
     u = User.mk user_id (UserModel.username body) email
           (UserModel.password body) now avatar None false /\
     get_user_by_email email (snd r) = Some u /\
     (forall e, e <> email ->
                get_user_by_email e (snd r) = get_user_by_email e db) /\
     (users_email_unique db -> users_email_unique (snd r)) /\
     fst (create_user body (user_id + 1) now avatar (snd r)) = None).
Proof.
  intros email r. unfold r, create_user. fold email.
  change (first (filter (fun u => String.eqb (User.email u) email)
                        (users db)))
    with (get_user_by_email email db).
  split.
  - destruct (get_user_by_email email db); [reflexivity | congruence].
  - intros N. rewrite N. eexists. split; [reflexivity |].
    split; [reflexivity |]. cbn [snd].
    assert (L : forall e,
               get_user_by_email e
                 (with_users db
                    (users db
                     ++ [User.mk user_id (UserModel.username body) email
                           (UserModel.password body) now avatar None false]))
               = match get_user_by_email e db with
                 | Some x => Some x
                 | None =>
                     if String.eqb email e
                     then Some (User.mk user_id (UserModel.username body)
                                  email (UserModel.password body) now avatar
                                  None false)
                     else None
                 end).
    { intros e. unfold get_user_by_email. cbn [users with_users].
      rewrite first_filter_app. cbn [filter User.email].
      destruct (first _); [reflexivity |].
      destruct (String.eqb email e); reflexivity. }
    split; [| split; [| split]].
    + rewrite L, N, String.eqb_refl. reflexivity.
    + intros e He. rewrite L.
      destruct (get_user_by_email e db); [reflexivity |].
      replace (String.eqb email e) with false; [reflexivity |].
      symmetry. apply String.eqb_neq. congruence.
    + unfold users_email_unique. cbn [users with_users]. intros U.
      rewrite map_app. apply NoDup_app; trivial.
      * cbn. repeat constructor. intros [].
      * intros a Ha [<- | []]. cbn in Ha.
        apply get_user_by_email_None in N. contradiction.
    + change (first (filter (fun u => String.eqb (User.email u) email)
                            (users (with_users db (users db ++ [_])))))
        with (get_user_by_email email
                (with_users db
                   (users db
                    ++ [User.mk user_id (UserModel.username body) email
                          (UserModel.password body) now avatar None false]))).
      rewrite L, N, String.eqb_refl. reflexivity.
Qed.

Lemma create_user_registers_once_witness :
  let email := UserModel.email Sample.carol in
  let r := create_user Sample.carol 3 100 None Sample.db in
  (get_user_by_email email Sample.db <> None -> r = (None, Sample.db)) /\
  (get_user_by_email email Sample.db = None ->
   exists u,
     r = (Some u, with_users Sample.db (users Sample.db ++ [u])) /\
     u = User.mk 3 (UserModel.username Sample.carol) email
           (UserModel.password Sample.carol) 100 None None false /\
     get_user_by_email email (snd r) = Some u /\
     (forall e, e <> email ->
                get_user_by_email e (snd r) = get_user_by_email e Sample.db) /\
     (users_email_unique Sample.db -> users_email_unique (snd r)) /\
     fst (create_user Sample.carol (3 + 1) 100 None (snd r)) = None).
Proof.
  exact (create_user_registers_once Sample.carol 3 100 None Sample.db).
Defined.

End UserRepository.

Section UserWrites.
Import repository_users.

Lemma sample_users_pk : users_pk Sample.db.
Proof.
  unfold users_pk; cbn. repeat constructor; cbn; intuition discriminate.
Defined.

(** X16. Confirming an address nobody registered raises; confirming a
    registered one sets the flag of that user and nothing else, the user
    is still found under the address, every other address resolves as
    before, the contacts are untouched and confirming again changes
    nothing. *)
Theorem confirmed_email_sets_flag (email : string) (db : Session) :
  (get_user_by_email email db = None ->
   confirmed_email email db = Raise AttributeError) /\
  (forall u,
      get_user_by_email email db = Some u ->
      exists db',
        confirmed_email email db = Ok db' /\
        get_user_by_email email db' = Some (User.set_confirmed u true) /\
        contacts db' = contacts db /\
        map User.id (users db') = map User.id (users db) /\
        confirmed_email email db' = Ok db' /\
        (users_pk db ->
         forall e, e <> email ->
                   get_user_by_email e db' = get_user_by_email e db)).
Proof.
  split.
  - intros N. unfold confirmed_email. rewrite N. reflexivity.
  - intros u Hu.
    set (f := fun r => User.set_confirmed r true).
    assert (Hem : forall r, User.email (f r) = User.email r)
      by reflexivity.
    assert (Hid : forall r, User.id (f r) = User.id r) by reflexivity.
    exists (write_row f u db).
    assert (C : confirmed_email email db = Ok (write_row f u db)).
    { unfold confirmed_email. rewrite Hu. reflexivity. }
    pose proof (write_row_found f email u db Hem Hu) as F.
    destruct (write_row_keys f u db Hid Hem) as (K1 & _ & K3).
    split; [exact C |]. split; [exact F |]. split; [exact K3 |].
    split; [exact K1 |]. split.
    + unfold confirmed_email. rewrite F. f_equal.
      unfold write_row. cbn [users with_users].
      destruct db as [us cs sq]. unfold with_users. cbn. f_equal.
      rewrite map_map. apply map_ext. intros r. cbn.
      destruct (User.id r =? User.id u) eqn:E; cbn; rewrite E; reflexivity.
    + intros PK e He.
      destruct (get_user_by_email_Some email db u Hu) as [Hin Heq].
      apply write_row_others; trivial. congruence.
Qed.

Lemma confirmed_email_sets_flag_witness :
  (get_user_by_email "bob@example.com" Sample.db = None ->
   confirmed_email "bob@example.com" Sample.db = Raise AttributeError) /\
  (forall u,
      get_user_by_email "bob@example.com" Sample.db = Some u ->
      exists db',
        confirmed_email "bob@example.com" Sample.db = Ok db' /\
        get_user_by_email "bob@example.com" db'
        = Some (User.set_confirmed u true) /\
        contacts db' = contacts Sample.db /\
        map User.id (users db') = map User.id (users Sample.db) /\
        confirmed_email "bob@example.com" db' = Ok db' /\
        (users_pk Sample.db ->
         forall e, e <> "bob@example.com"%string ->
                   get_user_by_email e db' = get_user_by_email e Sample.db)).
Proof.
  exact (confirmed_email_sets_flag "bob@example.com" Sample.db).
Defined.



End UserWrites.

(** ** Users: logging in and exchanging tokens *)

Section LoginAndTokens.
Import repository_users.

Variable auth_service : AuthService.
Variable passwords : PasswordService.

Lemma update_token_is_write_row (user : User.t) (tok : option string)
  (db : Session) :
  update_token user tok db
  = write_row (fun r => User.set_refresh_token r tok) user db.
Proof. reflexivity. Qed.

Lemma login_eval (now : Z) (username password : string) (db : Session)
  (user : User.t) :
  get_user_by_email username db = Some user ->
  User.confirmed user = true ->
  verify_password passwords password (User.password user) = true ->
  routes_users.login auth_service passwords now username password db
  = (Ok (mkTokenModel
           (create_access_token auth_service (User.email user) now)
           (create_refresh_token auth_service (User.email user) now)
           "bearer"),
     update_token user
       (Some (create_refresh_token auth_service (User.email user) now)) db).
Proof.
  intros Hu Hc Hv. unfold routes_users.login. rewrite Hu, Hc, Hv.
  reflexivity.
Qed.

Lemma refresh_token_eval (now : Z) (token email : string) (db : Session)
  (user : User.t) :
  decode_refresh_token auth_service token = Ok email ->
  get_user_by_email email db = Some user ->
  routes_users.refresh_token auth_service now token db
  = if match User.refresh_token user with
       | Some stored => String.eqb stored token
       | None => false
       end
    then
      (Ok (mkTokenModel (create_access_token auth_service email now)
             (create_refresh_token auth_service email now) "bearer"),
       update_token user
         (Some (create_refresh_token auth_service email now)) db)
    else
      (Raise (HTTPException 401 "Invalid refresh token"),
       update_token user None db).
Proof.
  intros Hd Hu. unfold routes_users.refresh_token. rewrite Hd, Hu.
  destruct (match User.refresh_token user with
            | Some stored => String.eqb stored token
            | None => false
            end); reflexivity.
Qed.

(** X18. Logging in succeeds exactly for a registered, confirmed user
    whose password verifies.  A failed attempt is a 401 and leaves the
    store as it was; a successful one stores the refresh token it returns
    in the row of that user and touches no contact. *)
Theorem login_succeeds_exactly (now : Z) (username password : string)
  (db : Session) :
  let r := routes_users.login auth_service passwords now username password
             db in
  ((exists tok, fst r = Ok tok) <->
   (exists u,
       get_user_by_email username db = Some u /\
       User.confirmed u = true /\
       verify_password passwords password (User.password u) = true)) /\
  (forall e,
      fst r = Raise e ->
      snd r = db /\ exists detail, e = HTTPException 401 detail) /\
  (forall tok,
      fst r = Ok tok ->
      token_type tok = "bearer"%string /\
      contacts (snd r) = contacts db /\
      exists u,
        get_user_by_email username (snd r) = Some u /\
        User.refresh_token u = Some (refresh_token tok)).
Proof.
  intros r. unfold r, routes_users.login.
  destruct (get_user_by_email username db) as [u |] eqn:Hu.
  - destruct (User.confirmed u) eqn:Hc; cbn [negb].
    + destruct (verify_password passwords password (User.password u)) eqn:Hv;
        cbn [negb fst snd].
      * split; [| split].
        -- split; [intros _; exists u; auto | intros _; eauto].
        -- intros e H. discriminate.
        -- intros tok H. injection H as <-. cbn.
           split; [reflexivity |]. split; [reflexivity |].
           eexists. split.
           ++ rewrite update_token_is_write_row.
              apply write_row_found; [reflexivity | exact Hu].
           ++ reflexivity.
      * split; [| split].
        -- split; [intros [tok H]; discriminate |].
           intros (u' & Hu' & _ & Hv'). congruence.
        -- intros e H. injection H as <-. eauto.
        -- intros tok H. discriminate.
    + cbn [fst snd]. split; [| split].
      * split; [intros [tok H]; discriminate |].
        intros (u' & Hu' & Hc' & _). congruence.
      * intros e H. injection H as <-. eauto.
      * intros tok H. discriminate.
  - cbn [fst snd]. split; [| split].
    + split; [intros [tok H]; discriminate |].
      intros (u' & Hu' & _). discriminate.
    + intros e H. injection H as <-. eauto.
    + intros tok H. discriminate.
Qed.

(** X19. A refresh token serves once.  After a successful exchange the
    token that was presented is refused with 401, and that refusal also
    clears the stored token, so the token issued by the exchange is
    refused as well: the user has to log in again. *)
Theorem refresh_token_single_use (now now' now'' : Z) (token email : string)
  (db : Session) (user : User.t) :
  decode_refresh_token auth_service token = Ok email ->
  get_user_by_email email db = Some user ->
  User.refresh_token user = Some token ->
  let issued := create_refresh_token auth_service email now in
  issued <> token ->
  decode_refresh_token auth_service issued = Ok email ->
  let r1 := routes_users.refresh_token auth_service now token db in
  let r2 := routes_users.refresh_token auth_service now' token (snd r1) in
  let r3 := routes_users.refresh_token auth_service now'' issued (snd r2) in
  (exists tok, fst r1 = Ok tok /\ refresh_token tok = issued) /\
  fst r2 = Raise (HTTPException 401 "Invalid refresh token") /\
  fst r3 = Raise (HTTPException 401 "Invalid refresh token") /\
  (exists u,
      get_user_by_email email (snd r3) = Some u /\
      User.refresh_token u = None).
Proof.
  intros Hd Hu Hs issued Hne Hd' r1 r2 r3.
  assert (E1 : r1
               = (Ok (mkTokenModel
                        (create_access_token auth_service email now)
                        issued "bearer"),
                  update_token user (Some issued) db)).
  { unfold r1. rewrite (refresh_token_eval now token email db user Hd Hu).
    rewrite Hs, String.eqb_refl. reflexivity. }
  set (u1 := User.set_refresh_token user (Some issued)).
  assert (Hu1 : get_user_by_email email (snd r1) = Some u1).
  { rewrite E1. cbn [snd]. apply get_user_after_update_token, Hu. }
  assert (E2 : r2
               = (Raise (HTTPException 401 "Invalid refresh token"),
                  update_token u1 None (snd r1))).
  { unfold r2. rewrite (refresh_token_eval now' token email _ u1 Hd Hu1).
    cbn [u1 User.refresh_token User.set_refresh_token].
    replace (String.eqb issued token) with false; [reflexivity |].
    symmetry. apply String.eqb_neq. exact Hne. }
  set (u2 := User.set_refresh_token u1 None).
  assert (Hu2 : get_user_by_email email (snd r2) = Some u2).
  { rewrite E2. cbn [snd]. apply get_user_after_update_token, Hu1. }
  assert (E3 : r3
               = (Raise (HTTPException 401 "Invalid refresh token"),
                  update_token u2 None (snd r2))).
  { unfold r3. rewrite (refresh_token_eval now'' issued email _ u2 Hd' Hu2).
    reflexivity. }
  split; [rewrite E1; eexists; split; reflexivity |].
  split; [rewrite E2; reflexivity |].
  split; [rewrite E3; reflexivity |].
  exists (User.set_refresh_token u2 None). split; [| reflexivity].
  rewrite E3. cbn [snd]. apply get_user_after_update_token, Hu2.
Qed.

(** X20. The refresh token returned by a successful login is accepted by
    the next exchange, provided the token service decodes what it
    issues. *)
Theorem login_then_refresh (now now' : Z) (username password : string)
  (db : Session) (user : User.t) :
  get_user_by_email username db = Some user ->
  User.confirmed user = true ->
  verify_password passwords password (User.password user) = true ->
  decode_refresh_token auth_service
    (create_refresh_token auth_service username now) = Ok username ->
  let r := routes_users.login auth_service passwords now username password
             db in
  exists tok tok',
    fst r = Ok tok /\
    fst (routes_users.refresh_token auth_service now' (refresh_token tok)
           (snd r)) = Ok tok' /\
    exists u,
      get_user_by_email username
        (snd (routes_users.refresh_token auth_service now'
                (refresh_token tok) (snd r))) = Some u /\
      User.refresh_token u = Some (refresh_token tok').
Proof.
  intros Hu Hc Hv Hd r.
  destruct (get_user_by_email_Some username db user Hu) as [_ He].
  unfold r. rewrite (login_eval now username password db user Hu Hc Hv).
  rewrite He.
  set (issued := create_refresh_token auth_service username now) in *.
  set (u1 := User.set_refresh_token user (Some issued)).
  assert (Hu1 : get_user_by_email username (update_token user (Some issued) db)
                = Some u1) by (apply get_user_after_update_token, Hu).
  assert (E : routes_users.refresh_token auth_service now' issued
                (update_token user (Some issued) db)
              = (Ok (mkTokenModel
                       (create_access_token auth_service username now')
                       (create_refresh_token auth_service username now')
                       "bearer"),
                 update_token u1
                   (Some (create_refresh_token auth_service username now'))
                   (update_token user (Some issued) db))).
  { rewrite (refresh_token_eval now' issued username _ u1 Hd Hu1).
    cbn [u1 User.refresh_token User.set_refresh_token].
    rewrite String.eqb_refl. reflexivity. }
  eexists. eexists. cbn [fst snd refresh_token].
  split; [reflexivity |]. cbn [fst snd refresh_token]. rewrite E.
  cbn [fst snd].
  split; [reflexivity |].
  eexists. split; [apply get_user_after_update_token, Hu1 | reflexivity].
Qed.

End LoginAndTokens.

Section LoginWitnesses.
Import repository_users.

Lemma login_succeeds_exactly_witness :
  let r := routes_users.login Sample.tokens Sample.passwords 0
             "dave@example.com" "pw" Sample.db_users in
  ((exists tok, fst r = Ok tok) <->
   (exists u,
       get_user_by_email "dave@example.com" Sample.db_users = Some u /\
       User.confirmed u = true /\
       verify_password Sample.passwords "pw" (User.password u) = true)) /\
  (forall e,
      fst r = Raise e ->
      snd r = Sample.db_users /\ exists detail, e = HTTPException 401 detail) /\
  (forall tok,
      fst r = Ok tok ->
      token_type tok = "bearer"%string /\
      contacts (snd r) = contacts Sample.db_users /\
      exists u,
        get_user_by_email "dave@example.com" (snd r) = Some u /\
        User.refresh_token u = Some (refresh_token tok)).
Proof.
  exact (login_succeeds_exactly Sample.tokens Sample.passwords 0
           "dave@example.com" "pw" Sample.db_users).
Defined.

Lemma refresh_token_single_use_witness :
  let auth_service := Sample.tokens in
  let token := "a:dave@example.com"%string in
  let email := "dave@example.com"%string in
  let db := Sample.db_users in
  decode_refresh_token auth_service token = Ok email /\
  get_user_by_email email db = Some Sample.dave /\
  User.refresh_token Sample.dave = Some token /\
  let issued := create_refresh_token auth_service email 1 in
  issued <> token /\
  decode_refresh_token auth_service issued = Ok email /\
  let r1 := routes_users.refresh_token auth_service 1 token db in
  let r2 := routes_users.refresh_token auth_service 2 token (snd r1) in
  let r3 := routes_users.refresh_token auth_service 3 issued (snd r2) in
  (exists tok, fst r1 = Ok tok /\ refresh_token tok = issued) /\
  fst r2 = Raise (HTTPException 401 "Invalid refresh token") /\
  fst r3 = Raise (HTTPException 401 "Invalid refresh token") /\
  (exists u,
      get_user_by_email email (snd r3) = Some u /\
      User.refresh_token u = None).
Proof.
  cbv zeta.
  assert (H1 : decode_refresh_token Sample.tokens "a:dave@example.com"
               = Ok "dave@example.com"%string) by reflexivity.
  assert (H2 : get_user_by_email "dave@example.com" Sample.db_users
               = Some Sample.dave) by reflexivity.
  assert (H3 : User.refresh_token Sample.dave
               = Some "a:dave@example.com"%string) by reflexivity.
  assert (H4 : create_refresh_token Sample.tokens "dave@example.com" 1
               <> "a:dave@example.com"%string) by (cbn; discriminate).
  assert (H5 : decode_refresh_token Sample.tokens
                 (create_refresh_token Sample.tokens "dave@example.com" 1)
               = Ok "dave@example.com"%string) by reflexivity.
  split; [exact H1 | split; [exact H2 | split; [exact H3 |]]].
  split; [exact H4 | split; [exact H5 |]].
  exact (refresh_token_single_use Sample.tokens 1 2 3 "a:dave@example.com"
           "dave@example.com" Sample.db_users Sample.dave H1 H2 H3 H4 H5).
Defined.

Lemma login_then_refresh_witness :
  let auth_service := Sample.tokens in
  let passwords := Sample.passwords in
  let username := "dave@example.com"%string in
  let db := Sample.db_users in
  get_user_by_email username db = Some Sample.dave /\
  User.confirmed Sample.dave = true /\
  verify_password passwords "pw" (User.password Sample.dave) = true /\
  decode_refresh_token auth_service
    (create_refresh_token auth_service username 0) = Ok username /\
  let r := routes_users.login auth_service passwords 0 username "pw" db in
  exists tok tok',
    fst r = Ok tok /\
    fst (routes_users.refresh_token auth_service 1 (refresh_token tok)
           (snd r)) = Ok tok' /\
    exists u,
      get_user_by_email username
        (snd (routes_users.refresh_token auth_service 1
                (refresh_token tok) (snd r))) = Some u /\
      User.refresh_token u = Some (refresh_token tok').
Proof.
  cbv zeta.
  assert (H1 : get_user_by_email "dave@example.com" Sample.db_users
               = Some Sample.dave) by reflexivity.
  assert (H2 : User.confirmed Sample.dave = true) by reflexivity.
  assert (H3 : verify_password Sample.passwords "pw"
                 (User.password Sample.dave) = true) by reflexivity.
  assert (H4 : decode_refresh_token Sample.tokens
                 (create_refresh_token Sample.tokens "dave@example.com" 0)
               = Ok "dave@example.com"%string) by reflexivity.
  split; [exact H1 | split; [exact H2 | split; [exact H3 |]]].
  split; [exact H4 |].
  exact (login_then_refresh Sample.tokens Sample.passwords 0 1
           "dave@example.com" "pw" Sample.db_users Sample.dave
           H1 H2 H3 H4).
Defined.

End LoginWitnesses.

(** ** Users: signing up and confirming *)

Section Signup.
Import repository_users.

Variable auth_service : AuthService.
Variable passwords : PasswordService.

Lemma get_user_by_email_app (e : string) (db : Session) (u : User.t) :
  get_user_by_email e (with_users db (users db ++ [u]))
  = match get_user_by_email e db with
    | Some x => Some x
    | None => if String.eqb (User.email u) e then Some u else None
    end.
Proof.
  unfold get_user_by_email. cbn [users with_users].
  rewrite first_filter_app. cbn [filter].
  destruct (first _); [reflexivity |].
  destruct (String.eqb (User.email u) e); reflexivity.
Qed.

Lemma signup_eval (user_id now salt : Z) (avatar : option string)
  (base_url : string) (body : UserModel.t) (db : Session) :
  get_user_by_email (UserModel.email body) db = None ->
  let u :=
    User.mk user_id (UserModel.username body) (UserModel.email body)
      (get_password_hash passwords (UserModel.password body) salt)
      now avatar None false in
  routes_users.signup passwords user_id now salt avatar base_url body db
  = (Ok u, with_users db (users db ++ [u]),
     [mkEmailTask (UserModel.email body) (UserModel.username body) base_url]).
Proof.
  intros N u. unfold routes_users.signup. rewrite N.
  unfold create_user. cbn [UserModel.email UserModel.username
                             UserModel.password].
  change (first (filter (fun x => String.eqb (User.email x)
                                    (UserModel.email body)) (users db)))
    with (get_user_by_email (UserModel.email body) db).
  rewrite N. reflexivity.
Qed.

(** X21. Signing up with a registered address is refused with 409: the
    store stays as it was and no mail is queued.  With a new address the
    user is stored unconfirmed under the hash of the password, one
    confirmation mail to that address is queued, and the same request
    sent again is refused. *)
Theorem signup_registers_or_conflicts (user_id now salt : Z)
  (avatar : option string) (base_url : string) (body : UserModel.t)
  (db : Session) :
  let email := UserModel.email body in
  let r := routes_users.signup passwords user_id now salt avatar base_url
             body db in
  (get_user_by_email email db <> None ->
   r = (Raise (HTTPException 409 "Account already exists"), db, [])) /\
  (get_user_by_email email db = None ->
   exists u,
     r = (Ok u, with_users db (users db ++ [u]),
          [mkEmailTask email (UserModel.username body) base_url]) /\
     User.email u = email /\
     User.password u
     = get_password_hash passwords (UserModel.password body) salt /\
     User.confirmed u = false /\
     User.refresh_token u = None /\
     get_user_by_email email (snd (fst r)) = Some u /\
     contacts (snd (fst r)) = contacts db /\
     forall user_id' now' salt' avatar',
       routes_users.signup passwords user_id' now' salt' avatar' base_url
         body (snd (fst r))
       = (Raise (HTTPException 409 "Account already exists"),
          snd (fst r), [])).
Proof.
  intros email r. split.
  - intros H. unfold r, routes_users.signup. fold email.
    destruct (get_user_by_email email db); [reflexivity | congruence].
  - intros N. unfold r. unfold email in *.
    rewrite (signup_eval user_id now salt avatar base_url body db N).
    cbn [fst snd]. eexists. split; [reflexivity |].
    assert (F : get_user_by_email (UserModel.email body)
                  (with_users db
                     (users db
                      ++ [User.mk user_id (UserModel.username body)
                            (UserModel.email body)
                            (get_password_hash passwords
                               (UserModel.password body) salt)
                            now avatar None false]))
                = Some (User.mk user_id (UserModel.username body)
                          (UserModel.email body)
                          (get_password_hash passwords
                             (UserModel.password body) salt)
                          now avatar None false)).
    { rewrite get_user_by_email_app, N.
      cbn [User.email]. rewrite String.eqb_refl. reflexivity. }
    repeat split; try reflexivity; [exact F |].
    intros user_id' now' salt' avatar'. unfold routes_users.signup.
    rewrite F. reflexivity.
Qed.

(** X22. A user who has signed up cannot log in until the address is
    confirmed: the login is refused with "Email not confirmed" and
    changes nothing.  Confirming with a token for that address answers
    "Email confirmed", after which the same login succeeds; confirming a
    second time answers "already confirmed" and changes nothing. *)
Theorem signup_confirm_login (user_id now salt : Z) (avatar : option string)
  (base_url token : string) (body : UserModel.t) (db : Session) :
  let email := UserModel.email body in
  let password := UserModel.password body in
  get_user_by_email email db = None ->
  verify_password passwords password
    (get_password_hash passwords password salt) = true ->
  get_email_from_token passwords token = Ok email ->
  let db1 :=
    snd (fst (routes_users.signup passwords user_id now salt avatar
                base_url body db)) in
  let db2 := snd (routes_users.confirmed_email passwords token db1) in
  routes_users.login auth_service passwords now email password db1
  = (Raise (HTTPException 401 "Email not confirmed"), db1) /\
  fst (routes_users.confirmed_email passwords token db1)
  = Ok "Email confirmed"%string /\
  (exists tok,
      fst (routes_users.login auth_service passwords now email password db2)
      = Ok tok) /\
  routes_users.confirmed_email passwords token db2
  = (Ok "Your email is already confirmed"%string, db2).
Proof.
  intros email password N Hv Ht db1 db2.
  set (u := User.mk user_id (UserModel.username body) email
              (get_password_hash passwords password salt) now avatar
              None false).
  assert (E1 : db1 = with_users db (users db ++ [u])).
  { unfold db1.
    rewrite (signup_eval user_id now salt avatar base_url body db N).
    reflexivity. }
  assert (F1 : get_user_by_email email db1 = Some u).
  { rewrite E1, get_user_by_email_app, N. cbn [u User.email].
    rewrite String.eqb_refl. reflexivity. }
  set (f := fun r => User.set_confirmed r true).
  assert (C : routes_users.confirmed_email passwords token db1
              = (Ok "Email confirmed"%string, write_row f u db1)).
  { unfold routes_users.confirmed_email, confirmed_email.
    rewrite Ht, F1. reflexivity. }
  assert (E2 : db2 = write_row f u db1) by (unfold db2; rewrite C; reflexivity).
  assert (F2 : get_user_by_email email db2 = Some (f u)).
  { rewrite E2. apply write_row_found; [reflexivity | exact F1]. }
  split; [| split; [| split]].
  - unfold routes_users.login. rewrite F1. reflexivity.
  - rewrite C. reflexivity.
  - rewrite (login_eval auth_service passwords now email password db2 (f u)
               F2 eq_refl Hv).
    eexists. reflexivity.
  - unfold routes_users.confirmed_email. rewrite Ht, F2. reflexivity.
Qed.

(** X23. Asking for the confirmation mail again: for an address nobody
    registered the route raises (it reads [user.confirmed] before testing
    [user]); for an unconfirmed user it queues one mail to the stored
    address, the same task the signup queued; for a confirmed user it
    queues nothing. *)
Theorem request_email_resends (email base_url : string) (db : Session) :
  (get_user_by_email email db = None ->
   routes_users.request_email email base_url db = (Raise AttributeError, [])) /\
  (forall u,
      get_user_by_email email db = Some u ->
      routes_users.request_email email base_url db
      = if User.confirmed u
        then (Ok "Your email is already confirmed"%string, [])
        else (Ok "Check your email for confirmation."%string,
              [mkEmailTask email (User.username u) base_url])) /\
  (forall user_id now salt avatar body,
      UserModel.email body = email ->
      get_user_by_email email db = None ->
      let r := routes_users.signup passwords user_id now salt avatar
                 base_url body db in
      snd (routes_users.request_email email base_url (snd (fst r)))
      = snd r).
Proof.
  split; [| split].
  - intros N. unfold routes_users.request_email. rewrite N. reflexivity.
  - intros u Hu. unfold routes_users.request_email. rewrite Hu.
    destruct (get_user_by_email_Some email db u Hu) as [_ ->].
    destruct (User.confirmed u); reflexivity.
  - intros user_id now salt avatar body He N r. unfold r. subst email.
    rewrite (signup_eval user_id now salt avatar base_url body db N).
    cbn [fst snd]. unfold routes_users.request_email.
    rewrite get_user_by_email_app, N. cbn [User.email].
    rewrite String.eqb_refl. reflexivity.
Qed.

End Signup.

Section SignupWitnesses.
Import repository_users.

Lemma signup_confirm_login_witness :
  let body := Sample.carol in
  let db := Sample.db in
  let email := UserModel.email body in
  let password := UserModel.password body in
  let token := "et-carol@example.com"%string in
  get_user_by_email email db = None /\
  verify_password Sample.passwords password
    (get_password_hash Sample.passwords password 7) = true /\
  get_email_from_token Sample.passwords token = Ok email /\
  let db1 :=
    snd (fst (routes_users.signup Sample.passwords 3 100 7 None
                "http://host/" body db)) in
  let db2 := snd (routes_users.confirmed_email Sample.passwords token db1) in
  routes_users.login Sample.tokens Sample.passwords 100 email password db1
  = (Raise (HTTPException 401 "Email not confirmed"), db1) /\
  fst (routes_users.confirmed_email Sample.passwords token db1)
  = Ok "Email confirmed"%string /\
  (exists tok,
      fst (routes_users.login Sample.tokens Sample.passwords 100 email
             password db2) = Ok tok) /\
  routes_users.confirmed_email Sample.passwords token db2
  = (Ok "Your email is already confirmed"%string, db2).
Proof.
  cbv zeta.
  assert (H1 : get_user_by_email (UserModel.email Sample.carol) Sample.db
               = None) by reflexivity.
  assert (H2 : verify_password Sample.passwords
                 (UserModel.password Sample.carol)
                 (get_password_hash Sample.passwords
                    (UserModel.password Sample.carol) 7) = true)
    by reflexivity.
  assert (H3 : get_email_from_token Sample.passwords "et-carol@example.com"
               = Ok (UserModel.email Sample.carol)) by reflexivity.
  split; [exact H1 | split; [exact H2 | split; [exact H3 |]]].
  exact (signup_confirm_login Sample.tokens Sample.passwords 3 100 7 None
           "http://host/" "et-carol@example.com" Sample.carol Sample.db
           H1 H2 H3).
Defined.

Lemma signup_registers_or_conflicts_witness :
  let body := Sample.carol in
  let db := Sample.db in
  let email := UserModel.email body in
  let r := routes_users.signup Sample.passwords 3 100 7 None "http://host/"
             body db in
  (get_user_by_email email db <> None ->
   r = (Raise (HTTPException 409 "Account already exists"), db, [])) /\
  (get_user_by_email email db = None ->
   exists u,
     r = (Ok u, with_users db (users db ++ [u]),
          [mkEmailTask email (UserModel.username body) "http://host/"]) /\
     User.email u = email /\
     User.password u
     = get_password_hash Sample.passwords (UserModel.password body) 7 /\
     User.confirmed u = false /\
     User.refresh_token u = None /\
     get_user_by_email email (snd (fst r)) = Some u /\
     contacts (snd (fst r)) = contacts db /\
     forall user_id' now' salt' avatar',
       routes_users.signup Sample.passwords user_id' now' salt' avatar'
         "http://host/" body (snd (fst r))
       = (Raise (HTTPException 409 "Account already exists"),
          snd (fst r), [])).
Proof.
  exact (signup_registers_or_conflicts Sample.passwords 3 100 7 None
           "http://host/" Sample.carol Sample.db).
Defined.

Lemma request_email_resends_witness :
  let email := "bob@example.com"%string in
  let base_url := "http://host/"%string in
  let db := Sample.db in
  (get_user_by_email email db = None ->
   routes_users.request_email email base_url db = (Raise AttributeError, [])) /\
  (forall u,
      get_user_by_email email db = Some u ->
      routes_users.request_email email base_url db
      = if User.confirmed u
        then (Ok "Your email is already confirmed"%string, [])
        else (Ok "Check your email for confirmation."%string,
              [mkEmailTask email (User.username u) base_url])) /\
  (forall user_id now salt avatar body,
      UserModel.email body = email ->
      get_user_by_email email db = None ->
      let r := routes_users.signup Sample.passwords user_id now salt avatar
                 base_url body db in
      snd (routes_users.request_email email base_url (snd (fst r)))
      = snd r).
Proof.
  exact (request_email_resends Sample.passwords "bob@example.com"
           "http://host/" Sample.db).
Defined.

End SignupWitnesses.

(** ** Users: keys and addresses are stable *)

Section UserKeys.
Import repository_users.

Lemma create_user_keys (body : UserModel.t) (user_id now : Z)
  (avatar : option string) (db : Session) :
  users_pk db -> users_email_unique db ->
  ~ In user_id (map User.id (users db)) ->
  users_pk (snd (create_user body user_id now avatar db)) /\
  users_email_unique (snd (create_user body user_id now avatar db)).
Proof.
  intros PK EU Hfresh. unfold create_user.
  destruct (first _) as [x |] eqn:E; [split; assumption |].
  change (first (filter (fun u => String.eqb (User.email u)
                                    (UserModel.email body)) (users db)))
    with (get_user_by_email (UserModel.email body) db) in E.
  apply get_user_by_email_None in E.
  unfold users_pk, users_email_unique in *. cbn [snd users with_users].
  rewrite !map_app.
  split; (apply NoDup_app;
          [assumption
          | cbn; repeat constructor; intros []
          | intros a Ha [<- | []]; cbn in Ha; contradiction]).
Qed.

(** X24. No write of the user repository changes the number or the
    address of an existing user, and registration with a fresh number
    keeps both unique: a store in which user numbers and addresses are
    unique stays so under [create_user], [update_token],
    [confirmed_email] and [update_avatar]. *)
Theorem user_writes_keep_keys (db : Session) :
  users_pk db -> users_email_unique db ->
  (forall body user_id now avatar,
      ~ In user_id (map User.id (users db)) ->
      let db' := snd (create_user body user_id now avatar db) in
      users_pk db' /\ users_email_unique db') /\
  (forall user tok,
      let db' := update_token user tok db in
      map User.id (users db') = map User.id (users db) /\
      map User.email (users db') = map User.email (users db) /\
      users_pk db' /\ users_email_unique db') /\
  (forall email db',
      confirmed_email email db = Ok db' ->
      map User.id (users db') = map User.id (users db) /\
      map User.email (users db') = map User.email (users db) /\
      users_pk db' /\ users_email_unique db') /\
  (forall email url u db',
      update_avatar email url db = Ok (u, db') ->
      map User.id (users db') = map User.id (users db) /\
      map User.email (users db') = map User.email (users db) /\
      users_pk db' /\ users_email_unique db').
Proof.
  intros PK EU.
  assert (W : forall f user,
             (forall r, User.id (f r) = User.id r) ->
             (forall r, User.email (f r) = User.email r) ->
             map User.id (users (write_row f user db)) = map User.id (users db)
             /\ map User.email (users (write_row f user db))
                = map User.email (users db)
             /\ users_pk (write_row f user db)
             /\ users_email_unique (write_row f user db)).
  { intros f user Hid Hem.
    destruct (write_row_keys f user db Hid Hem) as (K1 & K2 & _).
    unfold users_pk, users_email_unique. rewrite K1, K2. auto. }
  split; [| split; [| split]].
  - intros body user_id now avatar Hf. apply create_user_keys; assumption.
  - intros user tok. cbv zeta. rewrite update_token_is_write_row.
    apply W; reflexivity.
  - intros email db' H. unfold confirmed_email in H.
    destruct (get_user_by_email email db) as [user |]; [| discriminate].
    injection H as <-.
    apply (W (fun r => User.set_confirmed r true)); reflexivity.
  - intros email url u db' H. unfold update_avatar in H.
    destruct (get_user_by_email email db) as [user |]; [| discriminate].
    injection H as <- <-.
    apply (W (fun r => User.set_avatar r (Some url))); reflexivity.
Qed.

Lemma sample_users_email_unique : users_email_unique Sample.db.
Proof.
  unfold users_email_unique; cbn.
  repeat constructor; cbn; intuition discriminate.
Defined.

Lemma user_writes_keep_keys_witness :
  let db := Sample.db in
  users_pk db /\ users_email_unique db /\
  (forall body user_id now avatar,
      ~ In user_id (map User.id (users db)) ->
      let db' := snd (create_user body user_id now avatar db) in
      users_pk db' /\ users_email_unique db') /\
  (forall user tok,
      let db' := update_token user tok db in
      map User.id (users db') = map User.id (users db) /\
      map User.email (users db') = map User.email (users db) /\
      users_pk db' /\ users_email_unique db') /\
  (forall email db',
      confirmed_email email db = Ok db' ->
      map User.id (users db') = map User.id (users db) /\
      map User.email (users db') = map User.email (users db) /\
      users_pk db' /\ users_email_unique db') /\
  (forall email url u db',
      update_avatar email url db = Ok (u, db') ->
      map User.id (users db') = map User.id (users db) /\
      map User.email (users db') = map User.email (users db) /\
      users_pk db' /\ users_email_unique db').
Proof.
  cbv zeta.
  split; [exact sample_users_pk | split; [exact sample_users_email_unique |]].
  exact (user_writes_keep_keys Sample.db sample_users_pk
           sample_users_email_unique).
Defined.

End UserKeys.

(** ** Contacts: lists lead to rows, and updates overwrite *)

Section ListsAndOverwrites.
Import repository_contacts.

Lemma in_page {A : Type} (skip limit : nat) (l : list A) (x : A) :
  In x (firstn limit (skipn skip l)) -> In x l.
Proof.
  intros H. rewrite <- (firstn_skipn skip l). apply in_or_app. right.
  rewrite <- (firstn_skipn limit (skipn skip l)). apply in_or_app. now left.
Qed.

(** X25. Whatever the list route, the search route or the birthdays route
    shows to a user can be opened by that user: the read route answers
    the very row under its number. *)
Theorem listed_contacts_can_be_read (db : Session) (user : User.t)
  (c : Contact.t) :
  contacts_pk db ->
  (forall skip limit page,
      routes_contacts.read_contacts skip limit db user = Ok page ->
      In c page ->
      routes_contacts.read_contact (Contact.id c) db user = Ok c) /\
  (forall first_name last_name email found,
      routes_contacts.search_contacts first_name last_name email db user
      = Ok found ->
      In c found ->
      routes_contacts.read_contact (Contact.id c) db user = Ok c) /\
  (forall today shown,
      routes_contacts.get_upcoming_birthdays today db user = Ok shown ->
      In c shown ->
      routes_contacts.read_contact (Contact.id c) db user = Ok c).
Proof.
  intros PK.
  assert (R : In c (contacts db) -> Contact.owner_id c = User.id user ->
              routes_contacts.read_contact (Contact.id c) db user = Ok c).
  { intros Hin Ho. unfold routes_contacts.read_contact.
    rewrite (get_contact_owned db PK c user Hin Ho). reflexivity. }
  split; [| split].
  - intros skip limit page H Hc.
    unfold routes_contacts.read_contacts in H.
    apply get_contacts_Ok in H. subst page.
    apply in_page, filter_In in Hc. destruct Hc as [Hin Ho].
    apply R; [exact Hin | now apply owned_by_spec].
  - intros fn ln em found H Hc.
    unfold routes_contacts.search_contacts in H. injection H as <-.
    rewrite search_contact_spec in Hc. apply filter_In in Hc.
    destruct Hc as [Hin Hb]. rewrite !andb_true_iff in Hb.
    apply R; [exact Hin | apply owned_by_spec; tauto].
  - intros today shown H Hc.
    unfold routes_contacts.get_upcoming_birthdays in H.
    destruct (get_upcoming_birthdays_Ok _ _ _ _ H)
      as (s & nm & _ & _ & HF).
    destruct (filterM_Ok _ _ _ HF) as [-> _].
    apply filter_In in Hc. destruct Hc as [Hc _].
    apply filter_In in Hc. destruct Hc as [Hin Hcl].
    apply R; [exact Hin | exact (birthday_clause_owner _ _ _ _ _ Hcl)].
Qed.

Lemma listed_contacts_can_be_read_witness :
  let db := Sample.db in
  let user := Sample.alice in
  let c := Sample.johnny in
  contacts_pk db /\
  (forall skip limit page,
      routes_contacts.read_contacts skip limit db user = Ok page ->
      In c page ->
      routes_contacts.read_contact (Contact.id c) db user = Ok c) /\
  (forall first_name last_name email found,
      routes_contacts.search_contacts first_name last_name email db user
      = Ok found ->
      In c found ->
      routes_contacts.read_contact (Contact.id c) db user = Ok c) /\
  (forall today shown,
      routes_contacts.get_upcoming_birthdays today db user = Ok shown ->
      In c shown ->
      routes_contacts.read_contact (Contact.id c) db user = Ok c).
Proof.
  cbv zeta. split; [exact sample_pk |].
  exact (listed_contacts_can_be_read Sample.db Sample.alice Sample.johnny
           sample_pk).
Defined.






End ListsAndOverwrites.
